(** * Uniswap V3 liquidity and swap mathematics

    A shallow embedding of [uniswap_v3_calculations.js] (price/tick
    conversion, liquidity mathematics, the single swap step, the
    multi-tick [simulateSwap], price impact and fees) and of
    [uniswap_v3_swap_simulation.js] (the tick index and the multi-tick
    swap loop of [UniswapV3SwapSimulator]).

    JavaScript numbers are IEEE-754 binary64 values.  The code is embedded
    once, over an interface of the number operations it uses, and the
    interface is interpreted twice:

    - [binary64] runs the code on the kernel's primitive floats, which
      round [+ - * /] and [sqrt] exactly as JavaScript does, so a value
      computed with it is the value the program prints;
    - [exact] runs the same code over the real numbers; it is where the
      algebraic laws of the specification are stated and proved.

    [Math.floor], [Math.log] and [Math.pow] form a second interface, of
    which only the exact reading exists: ECMAScript leaves the rounding of
    [Math.log] and [Math.pow] to the implementation.  Results that hold
    whatever these three functions return are stated for binary64 with an
    arbitrary [MathLib]; a result that rests on particular values of them
    lists those values in its statement.

    The real numbers have no [Infinity] and no [NaN]: where JavaScript
    produces one (a division by zero, the logarithm of a number that is
    not positive, the root of a negative number) the exact reading has
    the value the real-number library gives.  The theorems about the
    exact reading exclude such inputs by hypothesis wherever their
    conclusion depends on the value. *)

From Stdlib Require Import Reals Lra Lia ZArith List Bool Floats.
From Stdlib Require Import Permutation Sorted.
Import ListNotations.

Set Implicit Arguments.

(** ** Numbers *)

(** The operations of a JavaScript number that the program uses.  [lt] and
    [le] are [<] and [<=]; [a > b] is [lt b a] and [a >= b] is [le b a]. *)
Class Number : Type := {
  num : Type;
  of_Z : Z -> num;
  add : num -> num -> num;
  sub : num -> num -> num;
  mul : num -> num -> num;
  div : num -> num -> num;
  neg : num -> num;
  lt : num -> num -> bool;
  le : num -> num -> bool;
  Math_abs : num -> num;
  Math_min : num -> num -> num;
  Math_sqrt : num -> num
}.

(** [Math.log] and [Math.pow], whose results are not fixed bit for bit,
    and [Math.floor], which the program applies to their results only. *)
Class MathLib (N : Number) : Type := {
  Math_floor : num -> num;
  Math_log : num -> num;
  Math_pow : num -> num -> num
}.

Declare Scope num_scope.
Delimit Scope num_scope with num.
Infix "+" := add : num_scope.
Infix "-" := sub : num_scope.
Infix "*" := mul : num_scope.
Infix "/" := div : num_scope.
Notation "- x" := (neg x) : num_scope.
Notation "x <? y" := (lt x y) : num_scope.
Notation "x <=? y" := (le x y) : num_scope.
Notation "x >? y" := (lt y x) : num_scope.
Notation "x >=? y" := (le y x) : num_scope.

(** *** Binary64 reading: primitive floats *)

(** An integer literal below [2^63] in magnitude, rounded to nearest. *)
Definition float_of_Z (z : Z) : float :=
  match z with
  | Z0 => PrimFloat.zero
  | Zpos _ => PrimFloat.of_uint63 (Uint63.of_Z z)
  | Zneg p => PrimFloat.opp (PrimFloat.of_uint63 (Uint63.of_Z (Zpos p)))
  end.

(** [Math.min] of two numbers: [NaN] if either is, and [-0] below [+0]. *)
Definition float_min (x y : float) : float :=
  if PrimFloat.is_nan x || PrimFloat.is_nan y then PrimFloat.nan
  else if PrimFloat.ltb x y then x
  else if PrimFloat.ltb y x then y
  else if PrimFloat.get_sign x then x else y.

#[export] Instance binary64 : Number := {|
  num := float;
  of_Z := float_of_Z;
  add := PrimFloat.add;
  sub := PrimFloat.sub;
  mul := PrimFloat.mul;
  div := PrimFloat.div;
  neg := PrimFloat.opp;
  lt := PrimFloat.ltb;
  le := PrimFloat.leb;
  Math_abs := PrimFloat.abs;
  Math_min := float_min;
  Math_sqrt := PrimFloat.sqrt
|}.

(** *** Exact reading: real numbers *)

Definition Rltb (x y : R) : bool := if Rlt_dec x y then true else false.
Definition Rleb (x y : R) : bool := if Rle_dec x y then true else false.

#[export] Instance exact : Number := {|
  num := R;
  of_Z := IZR;
  add := Rplus;
  sub := Rminus;
  mul := Rmult;
  div := Rdiv;
  neg := Ropp;
  lt := Rltb;
  le := Rleb;
  Math_abs := Rabs;
  Math_min := Rmin;
  Math_sqrt := R_sqrt.sqrt
|}.

(** [Math.pow] on reals: a whole exponent is a repeated product (so a
    negative base is squared as JavaScript squares it), any other
    exponent goes through [exp] and [ln]. *)
Definition Rpow (x y : R) : R :=
  if Req_dec_T y (IZR (Int_part y)) then powerRZ x (Int_part y) else Rpower x y.

#[export] Instance exact_math : MathLib exact := {|
  Math_floor := fun x => IZR (Int_part x);
  Math_log := ln;
  Math_pow := Rpow
|}.

(** [NaN], the number that arithmetic makes of [undefined].  Of the two
    readings only binary64 has one. *)
Class NotANumber (N : Number) : Type := {
  NaN : num
}.

#[export] Instance binary64_NaN : NotANumber binary64 :=
  @Build_NotANumber binary64 PrimFloat.nan.

(** ** uniswap_v3_calculations.js *)

Module Calculations.
Section Calculations.
Context {N : Number}.
Local Open Scope num_scope.

(** Decimal literals of the source, as quotients of integer literals
    (correctly rounded in binary64, exact over the reals). *)
Definition lit_1e_10 : num := of_Z 1 / of_Z 10000000000.
Definition lit_1_0001 : num := of_Z 10001 / of_Z 10000.

Definition MIN_TICK : num := of_Z (-887272).
Definition MAX_TICK : num := of_Z 887272.

Record FeeTiers : Type := { LOW : num; MEDIUM : num; HIGH : num }.
Definition FEE_TIERS : FeeTiers :=
  {| LOW := of_Z 5 / of_Z 10000;
     MEDIUM := of_Z 3 / of_Z 1000;
     HIGH := of_Z 1 / of_Z 100 |}.

Definition calculateLiquidity0 (sqrtPriceAX96 sqrtPriceBX96 amount0 : num) : num :=
  let numerator := amount0 * sqrtPriceAX96 * sqrtPriceBX96 in
  let denominator := sqrtPriceBX96 - sqrtPriceAX96 in
  numerator / denominator.

Definition calculateLiquidity1 (sqrtPriceAX96 sqrtPriceBX96 amount1 : num) : num :=
  amount1 / (sqrtPriceBX96 - sqrtPriceAX96).

Definition getLiquidityForAmounts
    (sqrtPriceX96 sqrtPriceAX96 sqrtPriceBX96 amount0 amount1 : num) : num :=
  let '(sqrtPriceAX96, sqrtPriceBX96) :=
    if sqrtPriceAX96 >? sqrtPriceBX96
    then (sqrtPriceBX96, sqrtPriceAX96)
    else (sqrtPriceAX96, sqrtPriceBX96) in
  if sqrtPriceX96 <=? sqrtPriceAX96 then
    calculateLiquidity0 sqrtPriceAX96 sqrtPriceBX96 amount0
  else if sqrtPriceX96 <? sqrtPriceBX96 then
    let liquidity0 := calculateLiquidity0 sqrtPriceX96 sqrtPriceBX96 amount0 in
    let liquidity1 := calculateLiquidity1 sqrtPriceAX96 sqrtPriceX96 amount1 in
    Math_min liquidity0 liquidity1
  else
    calculateLiquidity1 sqrtPriceAX96 sqrtPriceBX96 amount1.

Definition calculateAmount0 (sqrtPriceAX96 sqrtPriceBX96 liquidity : num) : num :=
  liquidity * (sqrtPriceBX96 - sqrtPriceAX96) / (sqrtPriceAX96 * sqrtPriceBX96).

Definition calculateAmount1 (sqrtPriceAX96 sqrtPriceBX96 liquidity : num) : num :=
  liquidity * (sqrtPriceBX96 - sqrtPriceAX96).

Record Amounts : Type := { amount0 : num; amount1 : num }.

Definition getAmountsForLiquidity
    (sqrtPriceX96 sqrtPriceAX96 sqrtPriceBX96 liquidity : num) : Amounts :=
  let '(sqrtPriceAX96, sqrtPriceBX96) :=
    if sqrtPriceAX96 >? sqrtPriceBX96
    then (sqrtPriceBX96, sqrtPriceAX96)
    else (sqrtPriceAX96, sqrtPriceBX96) in
  if sqrtPriceX96 <=? sqrtPriceAX96 then
    {| amount0 := calculateAmount0 sqrtPriceAX96 sqrtPriceBX96 liquidity;
       amount1 := of_Z 0 |}
  else if sqrtPriceX96 <? sqrtPriceBX96 then
    {| amount0 := calculateAmount0 sqrtPriceX96 sqrtPriceBX96 liquidity;
       amount1 := calculateAmount1 sqrtPriceAX96 sqrtPriceX96 liquidity |}
  else
    {| amount0 := of_Z 0;
       amount1 := calculateAmount1 sqrtPriceAX96 sqrtPriceBX96 liquidity |}.

Context {M : MathLib N}.

Definition Q96 : num := Math_pow (of_Z 2) (of_Z 96).

Definition priceToTick (price : num) : num :=
  Math_floor (Math_log price / Math_log lit_1_0001).

Definition tickToPrice (tick : num) : num :=
  Math_pow lit_1_0001 tick.

Definition priceToSqrtPriceX96 (price : num) : num :=
  Math_sqrt price * Q96.

Definition sqrtPriceX96ToPrice (sqrtPriceX96 : num) : num :=
  Math_pow (sqrtPriceX96 / Q96) (of_Z 2).

Record SwapStep : Type := { amountOut : num; newSqrtPriceX96 : num }.

Definition computeSwapStep
    (amountIn sqrtPriceX96 liquidity feeTier : num) (zeroForOne : bool) : SwapStep :=
  let amountInWithFee := amountIn * (of_Z 1 - feeTier) in
  if amountIn <? lit_1e_10 then
    if zeroForOne then
      {| amountOut := amountInWithFee * sqrtPriceX96ToPrice sqrtPriceX96;
         newSqrtPriceX96 :=
           sqrtPriceX96 * (of_Z 1 - amountIn / (liquidity * of_Z 1000)) |}
    else
      {| amountOut := amountInWithFee / sqrtPriceX96ToPrice sqrtPriceX96;
         newSqrtPriceX96 :=
           sqrtPriceX96 * (of_Z 1 + amountIn / (liquidity * of_Z 1000)) |}
  else if zeroForOne then
    let priceDelta := (amountInWithFee * sqrtPriceX96) / liquidity in
    let newSqrtPriceX96 := sqrtPriceX96 - priceDelta in
    {| amountOut := liquidity * (sqrtPriceX96 - newSqrtPriceX96);
       newSqrtPriceX96 := newSqrtPriceX96 |}
  else
    let priceDelta := amountInWithFee / liquidity in
    let newSqrtPriceX96 := sqrtPriceX96 + priceDelta in
    {| amountOut :=
         liquidity * (of_Z 1 / newSqrtPriceX96 - of_Z 1 / sqrtPriceX96)
         * (sqrtPriceX96 * newSqrtPriceX96);
       newSqrtPriceX96 := newSqrtPriceX96 |}.

Definition calculatePriceImpact
    (amountIn amountOut spotPrice : num) (zeroForOne : bool) : num :=
  let executionPrice :=
    if zeroForOne then amountOut / amountIn else amountIn / amountOut in
  let priceImpact :=
    Math_abs ((executionPrice - spotPrice) / spotPrice) * of_Z 100 in
  priceImpact.

Definition calculateFees (liquidity volumeUSD totalLiquidity feeTier : num) : num :=
  (liquidity / totalLiquidity) * volumeUSD * feeTier.

End Calculations.
End Calculations.

(** ** uniswap_v3_swap_simulation.js *)

(** [Array.prototype.sort] with a comparison function: a stable sort, an
    element [y] being moved behind [x] exactly when [compareFn y x > 0].
    Modelled as a left-to-right insertion sort, which is the order the
    engine gives whenever the comparisons are those of a total preorder;
    where [compareFn] returns [NaN] the engine's order is its own. *)
Module JSArray.
Section JSArray.
Context {N : Number} {A : Type}.
Local Open Scope num_scope.

Fixpoint insert (compareFn : A -> A -> num) (x : A) (l : list A) : list A :=
  match l with
  | [] => [x]
  | y :: l' =>
      if compareFn y x >? of_Z 0 then x :: y :: l'
      else y :: insert compareFn x l'
  end.

Definition sort (compareFn : A -> A -> num) (l : list A) : list A :=
  fold_left (fun sorted x => insert compareFn x sorted) l [].

End JSArray.
End JSArray.

(** [simulateSwap] of [uniswap_v3_calculations.js]. *)
Module SimulateSwap.
Import Calculations.
Section SimulateSwap.
Context {N : Number} {M : MathLib N} {U : NotANumber N}.
Local Open Scope num_scope.

(** An element of the array [ticks]: the function reads these two
    properties. *)
Record TickData : Type := {
  index : num;
  liquidityNet : num
}.

(** The variables that the [for] loop updates. *)
Record Locals : Type := {
  remainingAmount : num;
  currentSqrtPrice : num;
  totalAmountOut : num;
  var_newTick : num
}.

(** The object [simulateSwap] returns. *)
Record Simulated : Type := {
  amountOut : num;
  newTick : num
}.

(** The comparison function given to [sort]. *)
Definition byDirection (zeroForOne : bool) (a b : TickData) : num :=
  if zeroForOne then index a - index b else index b - index a.

(** The loop [for (let i = 0; i < sortedTicks.length - 1; i++)] over
    [sortedTicks[i]] and [sortedTicks[i + 1]], with its two [continue]
    statements and its [break].

    The crossing branch subtracts [partialSwap.amountIn] from
    [remainingAmount].  The object that [computeSwapStep] returns has the
    properties [amountOut] and [newSqrtPriceX96] only, so the expression
    reads [undefined] and the subtraction gives [NaN]. *)
Fixpoint forLoop (sortedTicks : list TickData) (currentTick feeTier : num)
    (zeroForOne : bool) (vars : Locals) : Locals :=
  match sortedTicks with
  | currentTickData :: ((nextTickData :: _) as rest) =>
      if zeroForOne && (index currentTickData >? currentTick) then
        forLoop rest currentTick feeTier zeroForOne vars
      else if negb zeroForOne && (index currentTickData <? currentTick) then
        forLoop rest currentTick feeTier zeroForOne vars
      else
        let liquidity := liquidityNet currentTickData in
        let nextTickPrice := Math_sqrt (tickToPrice (index nextTickData)) * Q96 in
        let step :=
          computeSwapStep (remainingAmount vars) (currentSqrtPrice vars)
            liquidity feeTier zeroForOne in
        let crossedNextTick :=
          if zeroForOne
          then newSqrtPriceX96 step <=? nextTickPrice
          else newSqrtPriceX96 step >=? nextTickPrice in
        if crossedNextTick then
          let partialSwap :=
            computeSwapStep (remainingAmount vars) (currentSqrtPrice vars)
              liquidity feeTier zeroForOne in
          forLoop rest currentTick feeTier zeroForOne
            {| remainingAmount := remainingAmount vars - NaN;
               currentSqrtPrice := nextTickPrice;
               totalAmountOut := totalAmountOut vars + Calculations.amountOut partialSwap;
               var_newTick := index nextTickData |}
        else
          {| remainingAmount := of_Z 0;
             currentSqrtPrice := newSqrtPriceX96 step;
             totalAmountOut := totalAmountOut vars + Calculations.amountOut step;
             var_newTick := priceToTick (sqrtPriceX96ToPrice (newSqrtPriceX96 step)) |}
  | _ => vars
  end.

Definition simulateSwap (amountIn : num) (ticks : list TickData)
    (currentTick feeTier : num) (zeroForOne : bool) : Simulated :=
  let vars :=
    {| remainingAmount := amountIn;
       currentSqrtPrice := Math_sqrt (tickToPrice currentTick) * Q96;
       totalAmountOut := of_Z 0;
       var_newTick := currentTick |} in
  let sortedTicks := JSArray.sort (byDirection zeroForOne) ticks in
  let vars := forLoop sortedTicks currentTick feeTier zeroForOne vars in
  {| amountOut := totalAmountOut vars;
     newTick := var_newTick vars |}.

End SimulateSwap.
End SimulateSwap.

Module Simulation.
Import Calculations.
Section Simulation.
Context {N : Number} {M : MathLib N}.
Local Open Scope num_scope.

(** An element of [this.liquidityTicks]. *)
Record Tick : Type := {
  index : num;
  liquidityNet : num;
  liquidityGross : num
}.

(** An element of [this.swapSteps]; [tickCrossed] is present only on a
    step that crossed a tick. *)
Record StepRecord : Type := {
  step_amountIn : num;
  step_amountOut : num;
  priceAfter : num;
  tickAfter : num;
  liquidityUsed : num;
  crossedTick : bool;
  tickCrossed : option num
}.

(** The fields of a [UniswapV3SwapSimulator] object. *)
Record UniswapV3SwapSimulator : Type := {
  feeTier : num;
  initialPrice : num;
  currentPrice : num;
  currentSqrtPriceX96 : num;
  currentTick : num;
  liquidityTicks : list Tick;
  swapSteps : list StepRecord
}.

(** The object [executeSwap] returns. *)
Record SwapResult : Type := {
  amountIn : num;
  amountOut : num;
  feesCollected : num;
  finalPrice : num;
  priceImpact : num;
  steps : list StepRecord
}.

(** An element of the array given to [initializePoolFromPositions]. *)
Record Position : Type := {
  lowerPrice : num;
  upperPrice : num;
  liquidity : num
}.

(** A parameter with a default value: [None] is an omitted argument. *)
Definition default (d : num) (arg : option num) : num :=
  match arg with Some v => v | None => d end.

(** [constructor(initialPrice, feeTier = FEE_TIERS.MEDIUM)]. *)
Definition constructor (initialPrice : num) (feeTier : option num)
  : UniswapV3SwapSimulator :=
  {| feeTier := default (MEDIUM FEE_TIERS) feeTier;
     initialPrice := initialPrice;
     currentPrice := initialPrice;
     currentSqrtPriceX96 := priceToSqrtPriceX96 initialPrice;
     currentTick := priceToTick initialPrice;
     liquidityTicks := [];
     swapSteps := [] |}.

Definition set_liquidityTicks (this : UniswapV3SwapSimulator) (ticks : list Tick)
  : UniswapV3SwapSimulator :=
  {| feeTier := feeTier this;
     initialPrice := initialPrice this;
     currentPrice := currentPrice this;
     currentSqrtPriceX96 := currentSqrtPriceX96 this;
     currentTick := currentTick this;
     liquidityTicks := ticks;
     swapSteps := swapSteps this |}.

Definition set_swapSteps (this : UniswapV3SwapSimulator) (recorded : list StepRecord)
  : UniswapV3SwapSimulator :=
  {| feeTier := feeTier this;
     initialPrice := initialPrice this;
     currentPrice := currentPrice this;
     currentSqrtPriceX96 := currentSqrtPriceX96 this;
     currentTick := currentTick this;
     liquidityTicks := liquidityTicks this;
     swapSteps := recorded |}.

(** The three assignments [this.currentSqrtPriceX96 = ..],
    [this.currentPrice = ..], [this.currentTick = ..]. *)
Definition set_price (this : UniswapV3SwapSimulator) (sqrtPriceX96 price tick : num)
  : UniswapV3SwapSimulator :=
  {| feeTier := feeTier this;
     initialPrice := initialPrice this;
     currentPrice := price;
     currentSqrtPriceX96 := sqrtPriceX96;
     currentTick := tick;
     liquidityTicks := liquidityTicks this;
     swapSteps := swapSteps this |}.

Definition set_currentTick (this : UniswapV3SwapSimulator) (tick : num)
  : UniswapV3SwapSimulator :=
  set_price this (currentSqrtPriceX96 this) (currentPrice this) tick.

(** [addTick]: push the new entry, then sort by index. *)
Definition addTick (this : UniswapV3SwapSimulator)
    (tickIndex liquidityNet liquidityGross : num) : UniswapV3SwapSimulator :=
  let pushed :=
    liquidityTicks this ++
    [ {| index := tickIndex;
         liquidityNet := liquidityNet;
         liquidityGross := liquidityGross |} ] in
  set_liquidityTicks this
    (JSArray.sort (fun a b => index a - index b) pushed).

(** [addLiquidityInRange(lowerPrice, upperPrice, liquidity, tickSpacing = 10)]. *)
Definition lowerTickOf (lowerPrice tickSpacing : num) : num :=
  Math_floor (priceToTick lowerPrice / tickSpacing) * tickSpacing.

Definition upperTickOf (upperPrice tickSpacing : num) : num :=
  Math_floor (priceToTick upperPrice / tickSpacing) * tickSpacing.

Definition addLiquidityInRange (this : UniswapV3SwapSimulator)
    (lowerPrice upperPrice liquidity : num) (tickSpacing : option num)
  : UniswapV3SwapSimulator :=
  let tickSpacing := default (of_Z 10) tickSpacing in
  let lowerTick := lowerTickOf lowerPrice tickSpacing in
  let upperTick := upperTickOf upperPrice tickSpacing in
  let this := addTick this lowerTick liquidity liquidity in
  addTick this upperTick (- liquidity) liquidity.

(** [initializePoolFromPositions(positions, tickSpacing = 10)]. *)
Definition initializePoolFromPositions (this : UniswapV3SwapSimulator)
    (positions : list Position) (tickSpacing : option num)
  : UniswapV3SwapSimulator :=
  let tickSpacing := default (of_Z 10) tickSpacing in
  fold_left
    (fun this position =>
       addLiquidityInRange this (lowerPrice position) (upperPrice position)
         (liquidity position) (Some tickSpacing))
    positions this.

(** The [for .. of] loop of [getActiveLiquidity], with its [break]. *)
Fixpoint sumUpTo (tick : num) (ticks : list Tick) (activeLiquidity : num) : num :=
  match ticks with
  | [] => activeLiquidity
  | t :: rest =>
      if index t <=? tick
      then sumUpTo tick rest (activeLiquidity + liquidityNet t)
      else activeLiquidity
  end.

Definition getActiveLiquidity (this : UniswapV3SwapSimulator) : num :=
  sumUpTo (currentTick this) (liquidityTicks this) (of_Z 0).

(** [findNextTick]: the last stored tick below the current one when
    swapping token0 for token1, the first one above it otherwise. *)
Definition findNextTick (this : UniswapV3SwapSimulator) (zeroForOne : bool)
  : option Tick :=
  if zeroForOne
  then find (fun t => index t <? currentTick this) (rev (liquidityTicks this))
  else find (fun t => index t >? currentTick this) (liquidityTicks this).

(** *** executeSwap

    The calls to [console.log] write to the log and leave every variable
    and field as it was; they are not modelled. *)

Definition SCALE_FACTOR : num := of_Z 1000000000000000000.

(** The local variables that the [while] loop updates. *)
Record Locals : Type := {
  remainingAmount : num;
  totalAmountOut : num;
  feeAmount : num
}.

(** The object built by both [return] statements; the one inside the loop
    reports [amountIn - remainingAmount], the final one [amountIn]. *)
Definition result (this : UniswapV3SwapSimulator) (initialPrice consumed : num)
    (vars : Locals) : SwapResult :=
  {| amountIn := consumed;
     amountOut := totalAmountOut vars;
     feesCollected := feeAmount vars;
     finalPrice := currentPrice this;
     priceImpact := (initialPrice - currentPrice this) / initialPrice;
     steps := swapSteps this |}.

(** "Use all remaining input": the statements of the branch without a
    next tick, which the branch [amountToNextTick >= remainingAmount]
    repeats word for word. *)
Definition useRemaining (this : UniswapV3SwapSimulator) (vars : Locals)
    (activeLiquidity : num) (zeroForOne : bool)
  : UniswapV3SwapSimulator * Locals :=
  let scaledAmount := remainingAmount vars * SCALE_FACTOR in
  let step :=
    computeSwapStep scaledAmount (currentSqrtPriceX96 this) activeLiquidity
      (feeTier this) zeroForOne in
  let outputAmount := Calculations.amountOut step / SCALE_FACTOR in
  let totalAmountOut := totalAmountOut vars + outputAmount in
  let feeAmount := feeAmount vars + remainingAmount vars * feeTier this in
  let sqrtPriceX96 := newSqrtPriceX96 step in
  let price := sqrtPriceX96ToPrice sqrtPriceX96 in
  let tick := priceToTick price in
  let this := set_price this sqrtPriceX96 price tick in
  let this :=
    set_swapSteps this
      (swapSteps this ++
       [ {| step_amountIn := remainingAmount vars;
            step_amountOut := outputAmount;
            priceAfter := price;
            tickAfter := tick;
            liquidityUsed := activeLiquidity;
            crossedTick := false;
            tickCrossed := None |} ]) in
  (this,
   {| remainingAmount := of_Z 0;
      totalAmountOut := totalAmountOut;
      feeAmount := feeAmount |}).

(** The estimate of the input that moves the price to the next tick. *)
Definition amountToNextTick (this : UniswapV3SwapSimulator)
    (activeLiquidity nextTickSqrtPriceX96 : num) (zeroForOne : bool) : num :=
  let amountToNextTick :=
    if zeroForOne
    then activeLiquidity *
         Math_abs (of_Z 1 / currentSqrtPriceX96 this - of_Z 1 / nextTickSqrtPriceX96)
    else activeLiquidity *
         Math_abs (nextTickSqrtPriceX96 - currentSqrtPriceX96 this) in
  let amountToNextTick := amountToNextTick / (of_Z 1 - feeTier this) in
  amountToNextTick / SCALE_FACTOR.

(** The branch that crosses the next tick. *)
Definition crossTick (this : UniswapV3SwapSimulator) (vars : Locals)
    (activeLiquidity : num) (nextTick : Tick)
    (nextTickPrice nextTickSqrtPriceX96 amountToNextTick : num) (zeroForOne : bool)
  : UniswapV3SwapSimulator * Locals :=
  let scaledAmount := amountToNextTick * SCALE_FACTOR in
  let step :=
    computeSwapStep scaledAmount (currentSqrtPriceX96 this) activeLiquidity
      (feeTier this) zeroForOne in
  let outputAmount := Calculations.amountOut step / SCALE_FACTOR in
  let totalAmountOut := totalAmountOut vars + outputAmount in
  let feeAmount := feeAmount vars + amountToNextTick * feeTier this in
  let remainingAmount := remainingAmount vars - amountToNextTick in
  let this :=
    set_swapSteps this
      (swapSteps this ++
       [ {| step_amountIn := amountToNextTick;
            step_amountOut := outputAmount;
            priceAfter := nextTickPrice;
            tickAfter := index nextTick;
            liquidityUsed := activeLiquidity;
            crossedTick := true;
            tickCrossed := Some (index nextTick) |} ]) in
  let this := set_price this nextTickSqrtPriceX96 nextTickPrice (index nextTick) in
  (this,
   {| remainingAmount := remainingAmount;
      totalAmountOut := totalAmountOut;
      feeAmount := feeAmount |}).

(** How one pass through the loop body ends. *)
Inductive Completion : Type :=
| Return (value : SwapResult) (this : UniswapV3SwapSimulator)
| Break (this : UniswapV3SwapSimulator) (vars : Locals)
| Normal (this : UniswapV3SwapSimulator) (vars : Locals).

(** The body of [while (remainingAmount > 0)]. *)
Definition loopBody (this : UniswapV3SwapSimulator)
    (amountIn initialPrice : num) (zeroForOne : bool) (vars : Locals) : Completion :=
  let activeLiquidity := getActiveLiquidity this in
  if activeLiquidity <=? of_Z 0 then
    Return (result this initialPrice (amountIn - remainingAmount vars) vars) this
  else
    match findNextTick this zeroForOne with
    | None =>
        let '(this, vars) := useRemaining this vars activeLiquidity zeroForOne in
        Break this vars
    | Some nextTick =>
        let nextTickPrice := tickToPrice (index nextTick) in
        let nextTickSqrtPriceX96 := priceToSqrtPriceX96 nextTickPrice in
        let amountToNextTick :=
          amountToNextTick this activeLiquidity nextTickSqrtPriceX96 zeroForOne in
        if amountToNextTick >=? remainingAmount vars then
          let '(this, vars) := useRemaining this vars activeLiquidity zeroForOne in
          Normal this vars
        else
          let '(this, vars) :=
            crossTick this vars activeLiquidity nextTick nextTickPrice
              nextTickSqrtPriceX96 amountToNextTick zeroForOne in
          Normal this vars
    end.

(** The [while] loop; [fuel] bounds the number of times its condition is
    tested, and [None] means the bound was reached. *)
Fixpoint loop (fuel : nat) (this : UniswapV3SwapSimulator)
    (amountIn initialPrice : num) (zeroForOne : bool) (vars : Locals)
  : option (SwapResult * UniswapV3SwapSimulator) :=
  match fuel with
  | O => None
  | S fuel =>
      if remainingAmount vars >? of_Z 0 then
        match loopBody this amountIn initialPrice zeroForOne vars with
        | Return value this => Some (value, this)
        | Break this vars => Some (result this initialPrice amountIn vars, this)
        | Normal this vars => loop fuel this amountIn initialPrice zeroForOne vars
        end
      else Some (result this initialPrice amountIn vars, this)
  end.

(** [executeSwap(amountIn, zeroForOne)] run with the given bound on loop
    tests: the returned object and the simulator after the call. *)
Definition executeSwap_within (fuel : nat) (this : UniswapV3SwapSimulator)
    (amountIn : num) (zeroForOne : bool)
  : option (SwapResult * UniswapV3SwapSimulator) :=
  let initialPrice := currentPrice this in
  let vars :=
    {| remainingAmount := amountIn;
       totalAmountOut := of_Z 0;
       feeAmount := of_Z 0 |} in
  let this := set_swapSteps this [] in
  loop fuel this amountIn initialPrice zeroForOne vars.

(** Each pass either ends the loop or crosses one stored tick, so two
    tests more than there are stored ticks are enough
    ([executeSwap_total] below). *)
Definition executeSwap (this : UniswapV3SwapSimulator)
    (amountIn : num) (zeroForOne : bool)
  : option (SwapResult * UniswapV3SwapSimulator) :=
  executeSwap_within (length (liquidityTicks this) + 2) this amountIn zeroForOne.

(** [addPosition(lowerPrice, upperPrice, liquidity)]. *)
Definition addPosition (this : UniswapV3SwapSimulator)
    (lowerPrice upperPrice liquidity : num) : UniswapV3SwapSimulator :=
  let lowerTick := priceToTick lowerPrice in
  let upperTick := priceToTick upperPrice in
  let this := addTick this lowerTick liquidity liquidity in
  addTick this upperTick (- liquidity) liquidity.

End Simulation.
End Simulation.

(** ** Definitions used to state the properties *)

(** How a call ends.  The error kinds are those the specification names;
    neither source file contains a [throw] statement, and the operations
    of [Number] and [MathLib] return a number on every argument. *)
Inductive ErrorKind : Type :=
| InvalidRange
| InvalidPrice
| TickOutOfRange
| NonPositiveLiquidity
| NonPositiveAmount
| DivisionByZero.

Inductive Outcome (A : Type) : Type :=
| Returns (value : A)
| Throws (error : ErrorKind).
Arguments Returns {A} value.
Arguments Throws {A} error.

Module Calls.
Import Calculations.
Section Calls.
Context {N : Number} {M : MathLib N}.

(** A call of [priceToTick]: its body is one [return] of an expression. *)
Definition call_priceToTick (price : num) : Outcome num :=
  Returns (priceToTick price).

(** A call of [tickToPrice]: likewise. *)
Definition call_tickToPrice (tick : num) : Outcome num :=
  Returns (tickToPrice tick).

End Calls.
End Calls.

Module Spec.
Import Calculations Simulation.
Section Spec.
Context {N : Number} {M : MathLib N}.
Local Open Scope num_scope.

(** A position's range of ticks, as [addLiquidityInRange] records it. *)
Definition lowerTick (tickSpacing : num) (position : Position) : num :=
  lowerTickOf (lowerPrice position) tickSpacing.

Definition upperTick (tickSpacing : num) (position : Position) : num :=
  upperTickOf (upperPrice position) tickSpacing.

(** The range [lowerTick, upperTick) contains [tick]. *)
Definition rangeContains (lowerTick upperTick tick : num) : bool :=
  (lowerTick <=? tick) && (tick <? upperTick).

(** The sum of the liquidity of the ranges that contain [tick]; a range
    is a triple (lower tick, upper tick, liquidity). *)
Definition liquidityOfRangesAt (ranges : list (num * num * num)) (tick : num) : num :=
  fold_left
    (fun total '(lowerTick, upperTick, liquidity) =>
       if rangeContains lowerTick upperTick tick then total + liquidity else total)
    ranges (of_Z 0).

Definition rangeOf (tickSpacing : num) (position : Position) : num * num * num :=
  (lowerTick tickSpacing position, upperTick tickSpacing position, liquidity position).

(** The sum of the liquidity of the positions whose range contains [tick]. *)
Definition liquidityOfPositionsAt (positions : list Position) (tickSpacing tick : num)
  : num :=
  liquidityOfRangesAt (map (rangeOf tickSpacing) positions) tick.

(** The pool state of [this'] is that of [this]: the current tick, the
    current price in both forms, and the stored ticks. *)
Definition samePool (this this' : UniswapV3SwapSimulator) : Prop :=
  currentTick this' = currentTick this /\
  currentSqrtPriceX96 this' = currentSqrtPriceX96 this /\
  currentPrice this' = currentPrice this /\
  liquidityTicks this' = liquidityTicks this.

(** A stored tick lies strictly beyond the current tick in the direction
    of the swap. *)
Definition beyond (this : UniswapV3SwapSimulator) (zeroForOne : bool) (t : Tick)
  : bool :=
  if zeroForOne then index t <? currentTick this else index t >? currentTick this.

(** The number of stored ticks that a swap in this direction can still
    cross. *)
Definition ticksAhead (this : UniswapV3SwapSimulator) (zeroForOne : bool) : nat :=
  length (filter (beyond this zeroForOne) (liquidityTicks this)).

End Spec.
End Spec.

(** What the termination of the swap loop needs of [<]. *)
Class OrderLaws (N : Number) : Prop := {
  lt_irrefl : forall x : num, lt x x = false;
  lt_trans : forall x y z : num, lt x y = true -> lt y z = true -> lt x z = true
}.

(** The input of a swap step after the fee is taken off. *)
Definition amountInNet (amountIn feeTier : R) : R := (amountIn * (1 - feeTier))%R.

(** Stored ticks in ascending order of index. *)
Definition indexOrdered (ticks : list (Simulation.Tick (N:=exact))) : Prop :=
  StronglySorted
    (fun a b : Simulation.Tick (N:=exact) =>
       (Simulation.index a <= Simulation.index b)%R)
    ticks.

(** What a stored tick adds to the active liquidity at [tick]. *)
Definition netAt (tick : R) (t : Simulation.Tick (N:=exact)) : R :=
  if Rleb (Simulation.index t) tick then Simulation.liquidityNet t else 0%R.

(** The sum of [liquidityNet] over the stored ticks with index at most
    [tick], in any order. *)
Definition netUpTo (tick : R) (ticks : list (Simulation.Tick (N:=exact))) : R :=
  fold_right (fun t total => (netAt tick t + total)%R) 0%R ticks.

(** A pool state from which a swap can start: the fee is below 100%, the
    price is positive, the current tick and the square-root price are
    those of the price, and every stored tick has a whole index. *)
Definition consistent (this : Simulation.UniswapV3SwapSimulator (N:=exact)) : Prop :=
  (Simulation.feeTier this < 1)%R /\
  (0 < Simulation.currentPrice this)%R /\
  Simulation.currentTick this =
    Calculations.priceToTick (N:=exact) (Simulation.currentPrice this) /\
  Simulation.currentSqrtPriceX96 this =
    Calculations.priceToSqrtPriceX96 (N:=exact) (Simulation.currentPrice this) /\
  Forall (fun t : Simulation.Tick (N:=exact) => exists z : Z, Simulation.index t = IZR z)
    (Simulation.liquidityTicks this).

(** *** For the further properties *)

(** Totals over the steps that [executeSwap] records, added in the order
    of recording, from 0, as the loop adds them. *)
Module Ledger.
Import Simulation.
Section Ledger.
Context {N : Number}.
Local Open Scope num_scope.

Definition outputOf (recorded : list StepRecord) : num :=
  fold_left (fun total step => total + step_amountOut step) recorded (of_Z 0).

Definition feesOf (feeTier : num) (recorded : list StepRecord) : num :=
  fold_left (fun total step => total + step_amountIn step * feeTier) recorded (of_Z 0).

Definition inputOf (recorded : list StepRecord) : num :=
  fold_left (fun total step => total + step_amountIn step) recorded (of_Z 0).

(** The running totals of the loop are those of the recorded steps. *)
Definition balanced (this : UniswapV3SwapSimulator) (vars : Locals) : Prop :=
  totalAmountOut vars = outputOf (swapSteps this) /\
  feeAmount vars = feesOf (feeTier this) (swapSteps this).

(** The fields that no method but the constructor and [addTick] writes. *)
Definition sameSetup (this this' : UniswapV3SwapSimulator) : Prop :=
  feeTier this' = feeTier this /\
  initialPrice this' = initialPrice this /\
  liquidityTicks this' = liquidityTicks this.

End Ledger.
End Ledger.

(** The kinds of step that [executeSwap] records. *)
Module Shape.
Import Calculations Simulation.
Section Shape.
Context {N : Number} {M : MathLib N}.

(** A step that crossed a stored tick of [this] and ended on it. *)
Definition crossing (this : UniswapV3SwapSimulator) (recorded : StepRecord) : Prop :=
  crossedTick recorded = true /\
  tickCrossed recorded = Some (tickAfter recorded) /\
  exists t : Tick,
    In t (liquidityTicks this) /\
    tickAfter recorded = index t /\
    priceAfter recorded = tickToPrice (index t).

(** A step that used up the input without crossing a tick. *)
Definition closing (recorded : StepRecord) : Prop :=
  crossedTick recorded = false /\ tickCrossed recorded = None.

(** Crossing steps, followed by at most one closing step. *)
Definition wellFormed (this : UniswapV3SwapSimulator) (recorded : list StepRecord)
  : Prop :=
  exists (crossed final : list StepRecord),
    recorded = crossed ++ final /\
    Forall (crossing this) crossed /\
    (final = [] \/ exists last, final = [last] /\ closing last).

End Shape.
End Shape.

(** Stored ticks in ascending order of index, by the [<=] of the numbers. *)
Definition ascending {N : Number} (ticks : list (Simulation.Tick (N:=N))) : Prop :=
  StronglySorted
    (fun a b : Simulation.Tick (N:=N) =>
       le (Simulation.index a) (Simulation.index b) = true)
    ticks.

(** The test of the two [continue] statements of [simulateSwap]: the tick
    lies behind the current tick in the direction of the swap. *)
Definition skipped {N : Number} (currentTick : num) (zeroForOne : bool)
    (t : SimulateSwap.TickData) : bool :=
  if zeroForOne
  then lt currentTick (SimulateSwap.index t)
  else lt (SimulateSwap.index t) currentTick.

(** In [executeSwap], the input is accounted for: it is not overdrawn,
    what is not left has been recorded, and the fee is taken on what has
    been recorded. *)
Definition settled (this : Simulation.UniswapV3SwapSimulator (N:=exact)) (amount : R)
    (vars : Simulation.Locals (N:=exact)) : Prop :=
  (0 <= Simulation.remainingAmount vars)%R /\
  (amount - Simulation.remainingAmount vars)%R
    = Ledger.inputOf (Simulation.swapSteps this) /\
  Simulation.feeAmount vars
    = (Simulation.feeTier this * Ledger.inputOf (Simulation.swapSteps this))%R.

(** The fees of several positions of one pool, by [calculateFees]. *)
Fixpoint feesOfPositions (positions : list R) (volumeUSD totalLiquidity feeTier : R)
  : R :=
  match positions with
  | [] => 0%R
  | liquidity :: rest =>
      (Calculations.calculateFees (N:=exact) liquidity volumeUSD totalLiquidity feeTier
       + feesOfPositions rest volumeUSD totalLiquidity feeTier)%R
  end.

(** A binary64 number that is finite and not negative. *)
Definition finite_nonnegative (x : float) : bool :=
  (PrimFloat.leb 0 x && PrimFloat.ltb x PrimFloat.infinity)%float.

(** A swap step that returns the square-root price it was given: the
    change of the price was lost when the sum or difference was rounded. *)
Definition absorbed {M : MathLib binary64}
    (amountIn sqrtPriceX96 liquidity feeTier : float) (zeroForOne : bool) : Prop :=
  Calculations.newSqrtPriceX96
    (Calculations.computeSwapStep (N:=binary64)
       amountIn sqrtPriceX96 liquidity feeTier zeroForOne)
  = sqrtPriceX96.

(** * Properties *)

Unset Implicit Arguments.

Import Calculations Simulation.

(** ** The exact reading *)

Local Open Scope R_scope.

(** Read the operations of the interface as those of the reals. *)
Ltac exact_ops :=
  change (@num exact) with R in *;
  change (@of_Z exact) with IZR in *;
  change (@add exact) with Rplus in *;
  change (@sub exact) with Rminus in *;
  change (@mul exact) with Rmult in *;
  change (@div exact) with Rdiv in *;
  change (@neg exact) with Ropp in *;
  change (@lt exact) with Rltb in *;
  change (@le exact) with Rleb in *;
  change (@Math_abs exact) with Rabs in *;
  change (@Math_min exact) with Rmin in *;
  change (@Math_sqrt exact) with R_sqrt.sqrt in *;
  change (@Math_floor exact exact_math) with (fun x => IZR (Int_part x)) in *;
  change (@Math_log exact exact_math) with ln in *;
  change (@Math_pow exact exact_math) with Rpow in *;
  cbv beta in *.

Lemma Rltb_true (x y : R) : Rltb x y = true <-> x < y.
Proof. unfold Rltb; destruct (Rlt_dec x y); split; intros; easy. Qed.

Lemma Rltb_false (x y : R) : Rltb x y = false <-> y <= x.
Proof. unfold Rltb; destruct (Rlt_dec x y); split; intros; try easy; lra. Qed.

Lemma Rleb_true (x y : R) : Rleb x y = true <-> x <= y.
Proof. unfold Rleb; destruct (Rle_dec x y); split; intros; easy. Qed.

Lemma Rleb_false (x y : R) : Rleb x y = false <-> y < x.
Proof. unfold Rleb; destruct (Rle_dec x y); split; intros; try easy; lra. Qed.

(** Decide one comparison of the exact reading and keep the fact. *)
Ltac case_Rltb x y :=
  let E := fresh "E" in
  destruct (Rltb x y) eqn:E;
  [ apply Rltb_true in E | apply Rltb_false in E ].

Ltac case_Rleb x y :=
  let E := fresh "E" in
  destruct (Rleb x y) eqn:E;
  [ apply Rleb_true in E | apply Rleb_false in E ].


Lemma exact_order : OrderLaws exact.
Proof.
  split; cbn.
  - intros x. apply Rltb_false. lra.
  - intros x y z Hxy Hyz. apply Rltb_true in Hxy, Hyz. apply Rltb_true. lra.
Qed.

(** ** The binary64 reading *)

Section Binary64.
Local Open Scope float_scope.

(** The quotients that stand for the decimal literals of the source are
    the binary64 values of those literals: [1e-10], [1.0001], [0.0005],
    [0.003], [0.01] and [1e18]. *)
Lemma binary64_literals :
  lit_1e_10 (N:=binary64) = 0x1.b7cdfd9d7bdbbp-34 /\
  lit_1_0001 (N:=binary64) = 0x1.00068db8bac71p+0 /\
  LOW (FEE_TIERS (N:=binary64)) = 0x1.0624dd2f1a9fcp-11 /\
  MEDIUM (FEE_TIERS (N:=binary64)) = 0x1.89374bc6a7efap-9 /\
  HIGH (FEE_TIERS (N:=binary64)) = 0x1.47ae147ae147bp-7 /\
  SCALE_FACTOR (N:=binary64) = 1000000000000000000.
Proof. vm_compute. repeat split. Qed.

Lemma SFcompare_lt_irrefl (x : spec_float) : SFcompare x x <> Some Lt.
Proof.
  destruct x as [s | s | | s m e]; cbn; try discriminate.
  - destruct s; discriminate.
  - rewrite Z.compare_refl.
    change (PosDef.Pos.compare_cont Eq m m) with (Pos.compare m m).
    rewrite Pos.compare_refl. destruct s; discriminate.
Qed.

Lemma SFcompare_antisym (x y : spec_float) (c : comparison) :
  SFcompare x y = Some c -> SFcompare y x = Some (CompOpp c).
Proof.
  destruct x as [sx | sx | | sx mx ex], y as [sy | sy | | sy my ey]; cbn;
    try discriminate; intros [= <-]; try (destruct sx; reflexivity);
    try (destruct sy; reflexivity);
    try (destruct sx, sy; reflexivity).
  change (PosDef.Pos.compare_cont Eq mx my) with (Pos.compare mx my).
  change (PosDef.Pos.compare_cont Eq my mx) with (Pos.compare my mx).
  rewrite (Z.compare_antisym ex ey), (Pos.compare_antisym mx my).
  destruct sx, sy; try reflexivity;
    destruct (ex ?= ey)%Z; cbn; try reflexivity;
    destruct (mx ?= my)%positive; reflexivity.
Qed.

Lemma SFcompare_lt_trans (x y z : spec_float) :
  SFcompare x y = Some Lt -> SFcompare y z = Some Lt -> SFcompare x z = Some Lt.
Proof.
  destruct x as [sx | sx | | sx mx ex], y as [sy | sy | | sy my ey],
           z as [sz | sz | | sz mz ez]; cbn; try discriminate;
    try (destruct sx; discriminate); try (destruct sy; discriminate);
    try (destruct sz; discriminate);
    try (destruct sx, sy; discriminate); try (destruct sy, sz; discriminate);
    try (destruct sx, sy, sz; (discriminate || reflexivity)).
  all: try (destruct sx, sz; (discriminate || reflexivity)).
  all: try (destruct sx, sy, sz; try discriminate; try reflexivity).
  all: change (PosDef.Pos.compare_cont Eq mx my) with (Pos.compare mx my);
       change (PosDef.Pos.compare_cont Eq my mz) with (Pos.compare my mz);
       change (PosDef.Pos.compare_cont Eq mx mz) with (Pos.compare mx mz).
  all: destruct (Z.compare_spec ex ey), (Z.compare_spec ey ez),
                (Z.compare_spec ex ez);
       try lia; try discriminate; try reflexivity; subst.
  all: destruct (Pos.compare_spec mx my), (Pos.compare_spec my mz),
                (Pos.compare_spec mx mz);
       cbn; try lia; try discriminate; try reflexivity.
Qed.

Lemma binary64_order : OrderLaws binary64.
Proof.
  split; cbn.
  - intros x. rewrite ltb_spec. unfold SFltb.
    pose proof (SFcompare_lt_irrefl (Prim2SF x)) as H.
    destruct (SFcompare (Prim2SF x) (Prim2SF x)) as [[| |] |]; congruence.
  - intros x y z. rewrite !ltb_spec. unfold SFltb.
    destruct (SFcompare (Prim2SF x) (Prim2SF y)) as [[| |] |] eqn:Hxy;
      try discriminate.
    destruct (SFcompare (Prim2SF y) (Prim2SF z)) as [[| |] |] eqn:Hyz;
      try discriminate.
    rewrite (SFcompare_lt_trans _ _ _ Hxy Hyz). reflexivity.
Qed.

(** [x < y] excludes [y <= x], and [x <= y] excludes [y < x]. *)
Lemma float_ltb_not_leb (x y : float) : (x <? y) = true -> (y <=? x) = false.
Proof.
  rewrite ltb_spec, leb_spec. unfold SFltb, SFleb.
  destruct (SFcompare (Prim2SF x) (Prim2SF y)) as [[| |] |] eqn:Hxy;
    try discriminate.
  rewrite (SFcompare_antisym _ _ _ Hxy). reflexivity.
Qed.

Lemma float_leb_not_ltb (x y : float) : (x <=? y) = true -> (y <? x) = false.
Proof.
  rewrite ltb_spec, leb_spec. unfold SFltb, SFleb.
  destruct (SFcompare (Prim2SF x) (Prim2SF y)) as [[| |] |] eqn:Hxy;
    try discriminate; rewrite (SFcompare_antisym _ _ _ Hxy); reflexivity.
Qed.

Lemma float_ltb_leb (x y : float) : (x <? y) = true -> (x <=? y) = true.
Proof.
  rewrite ltb_spec, leb_spec. unfold SFltb, SFleb.
  destruct (SFcompare (Prim2SF x) (Prim2SF y)) as [[| |] |];
    try discriminate; reflexivity.
Qed.

Lemma float_ltb_asym (x y : float) : (x <? y) = true -> (y <? x) = false.
Proof. intros H. apply float_leb_not_ltb, float_ltb_leb, H. Qed.

(** Two numbers of which one is at most the other, in either order, the
    second not below the first: the first is at most the second. *)
Lemma float_leb_of_not_ltb (x y : float) :
  (x <=? y) = true \/ (y <=? x) = true -> (y <? x) = false -> (x <=? y) = true.
Proof.
  intros [H | H]; [intros _; exact H |].
  rewrite ltb_spec. rewrite leb_spec in *. unfold SFltb, SFleb in *.
  destruct (SFcompare (Prim2SF y) (Prim2SF x)) as [[| |] |] eqn:Hyx;
    try discriminate.
  rewrite (SFcompare_antisym _ _ _ Hyx). reflexivity.
Qed.

(** A finite number that is not negative is a zero or has a positive
    sign. *)
Lemma float_nonnegative_finite (a : float) :
  (0 <=? a) = true -> (a <? infinity) = true ->
  (exists s, Prim2SF a = S754_zero s) \/
  (exists m e, Prim2SF a = S754_finite false m e).
Proof.
  rewrite leb_spec, ltb_spec.
  change (Prim2SF 0) with (S754_zero false).
  change (Prim2SF infinity) with (S754_infinity false).
  destruct (Prim2SF a) as [s | s | | s m e]; cbn.
  - intros _ _. left. eauto.
  - destruct s; discriminate.
  - discriminate.
  - destruct s; [discriminate |]. intros _ _. right. eauto.
Qed.

Lemma float_sub_diag (a : float) :
  (0 <=? a) = true -> (a <? infinity) = true -> a - a = 0.
Proof.
  intros H0 Hinf. apply Prim2SF_inj. rewrite sub_spec.
  change (Prim2SF 0) with (S754_zero false).
  destruct (float_nonnegative_finite a H0 Hinf) as [[s ->] | (m & e & ->)].
  - destruct s; reflexivity.
  - unfold SF64sub, SFsub. cbv zeta. cbn [cond_Zopp].
    rewrite Z.sub_diag. reflexivity.
Qed.

(** A number that is neither negative nor positive is a zero. *)
Lemma float_zero (a : float) :
  (0 <=? a) = true -> (0 <? a) = false -> (a =? 0) = true.
Proof.
  rewrite leb_spec, ltb_spec, FloatAxioms.eqb_spec.
  change (Prim2SF 0) with (S754_zero false).
  destruct (Prim2SF a) as [s | s | | s m e]; cbn; try discriminate.
  - reflexivity.
  - destruct s; discriminate.
  - destruct s; discriminate.
Qed.

End Binary64.

(** ** C1: the swap step *)

Section SwapStepFormulas.

Lemma lit_1e_10_exact : lit_1e_10 (N:=exact) = 1 / 10000000000.
Proof. reflexivity. Qed.

(** Below [1e-10] the step does not use the closed formulas: the output
    is the net input at the spot price and the square-root price moves by
    the factor [1 -/+ amountIn / (1000 * liquidity)]. *)
Lemma computeSwapStep_small_amount (amountIn sqrtPrice liquidity feeTier : R)
    (zeroForOne : bool) :
  amountIn < 1 / 10000000000 ->
  computeSwapStep (N:=exact) amountIn sqrtPrice liquidity feeTier zeroForOne =
  if zeroForOne then
    @Build_SwapStep exact
      (amountInNet amountIn feeTier * sqrtPriceX96ToPrice (N:=exact) sqrtPrice)
      (sqrtPrice * (1 - amountIn / (liquidity * 1000)))
  else
    @Build_SwapStep exact
      (amountInNet amountIn feeTier / sqrtPriceX96ToPrice (N:=exact) sqrtPrice)
      (sqrtPrice * (1 + amountIn / (liquidity * 1000))).
Proof.
  intros Hsmall. unfold computeSwapStep, amountInNet.
  rewrite lit_1e_10_exact. exact_ops.
  case_Rltb amountIn (1 / 10000000000); [reflexivity | lra].
Qed.

(** From [1e-10] on the step uses the closed formulas. *)
Lemma computeSwapStep_large_amount (amountIn sqrtPrice liquidity feeTier : R)
    (zeroForOne : bool) :
  1 / 10000000000 <= amountIn ->
  computeSwapStep (N:=exact) amountIn sqrtPrice liquidity feeTier zeroForOne =
  if zeroForOne then
    let after := sqrtPrice - amountInNet amountIn feeTier * sqrtPrice / liquidity in
    @Build_SwapStep exact (liquidity * (sqrtPrice - after)) after
  else
    let after := sqrtPrice + amountInNet amountIn feeTier / liquidity in
    @Build_SwapStep exact
      (liquidity * (1 / after - 1 / sqrtPrice) * (sqrtPrice * after)) after.
Proof.
  intros Hlarge. unfold computeSwapStep, amountInNet.
  rewrite lit_1e_10_exact. exact_ops.
  case_Rltb amountIn (1 / 10000000000); [lra |].
  destruct zeroForOne; reflexivity.
Qed.

(** The same in binary64, whatever the [Math] library: unless
    [amountIn < 1e-10] the step performs exactly these operations. *)
Lemma computeSwapStep_large_amount_binary64 (M : MathLib binary64)
    (amountIn sqrtPrice liquidity feeTier : float) (zeroForOne : bool) :
  PrimFloat.ltb amountIn (lit_1e_10 (N:=binary64)) = false ->
  computeSwapStep (N:=binary64) amountIn sqrtPrice liquidity feeTier zeroForOne =
  (let amountInNet := amountIn * (1 - feeTier) in
   if zeroForOne then
     let after := sqrtPrice - amountInNet * sqrtPrice / liquidity in
     @Build_SwapStep binary64 (liquidity * (sqrtPrice - after)) after
   else
     let after := sqrtPrice + amountInNet / liquidity in
     @Build_SwapStep binary64
       (liquidity * (1 / after - 1 / sqrtPrice) * (sqrtPrice * after)) after)%float.
Proof.
  intros Hlarge. unfold computeSwapStep.
  change (@lt binary64 amountIn lit_1e_10)
    with (PrimFloat.ltb amountIn (lit_1e_10 (N:=binary64))).
  rewrite Hlarge. destruct zeroForOne; reflexivity.
Qed.




End SwapStepFormulas.

(** ** C10: the swap step does not clamp the price *)

Section NegativePrice.

(** In exact arithmetic, swapping token0 for token1 with
    [amountIn >= 1e-10], a net input above the liquidity takes the
    square-root price below zero. *)
Lemma computeSwapStep_negative_exact (amountIn sqrtPrice liquidity feeTier : R) :
  1 / 10000000000 <= amountIn -> 0 < liquidity -> 0 < sqrtPrice ->
  liquidity < amountInNet amountIn feeTier ->
  newSqrtPriceX96 (computeSwapStep (N:=exact) amountIn sqrtPrice liquidity feeTier true)
  < 0.
Proof.
  intros Hlarge Hliq Hprice Hnet.
  rewrite computeSwapStep_large_amount by assumption. cbn.
  assert (Hgrow : sqrtPrice < amountInNet amountIn feeTier * sqrtPrice / liquidity).
  { apply Rmult_lt_reg_r with liquidity; [assumption |].
    unfold Rdiv. rewrite Rmult_assoc, Rinv_l by lra. nra. }
  lra.
Qed.

(** C10, as amended: [computeSwapStep] never clamps the price it returns.
    In exact arithmetic, swapping token0 for token1 with
    [amountIn >= 1e-10], [liquidity > 0] and [sqrtPrice > 0], the returned
    [newSqrtPriceX96] is negative whenever
    [amountIn * (1 - feeTier) > liquidity].  In binary64 a caller does
    receive a negative square-root price on such inputs: 2 units swapped
    against liquidity 1 at square-root price 1 without fee return [-1],
    whatever the [Math] library. *)
Theorem computeSwapStep_negative_price :
  (forall amountIn sqrtPrice liquidity feeTier : R,
     1 / 10000000000 <= amountIn -> 0 < liquidity -> 0 < sqrtPrice ->
     liquidity < amountInNet amountIn feeTier ->
     newSqrtPriceX96
       (computeSwapStep (N:=exact) amountIn sqrtPrice liquidity feeTier true) < 0) /\
  (forall M : MathLib binary64,
     let amountIn : float := 2%float in
     let sqrtPrice : float := 1%float in
     let liquidity : float := 1%float in
     let feeTier : float := 0%float in
     (PrimFloat.ltb amountIn (lit_1e_10 (N:=binary64)) = false /\
      PrimFloat.ltb 0 liquidity = true /\
      PrimFloat.ltb 0 sqrtPrice = true /\
      PrimFloat.ltb liquidity (amountIn * (1 - feeTier)) = true /\
      newSqrtPriceX96
        (computeSwapStep (N:=binary64) amountIn sqrtPrice liquidity feeTier true)
      = (-1) /\
      PrimFloat.ltb
        (newSqrtPriceX96
           (computeSwapStep (N:=binary64) amountIn sqrtPrice liquidity feeTier true))
        0 = true)%float).
Proof.
  split; [exact computeSwapStep_negative_exact |].
  intros M. vm_compute. repeat split.
Qed.

(** Two units swapped against liquidity 1 at square-root price 1 leave
    the square-root price at [-1]. *)
Lemma computeSwapStep_negative_price_witness :
  newSqrtPriceX96 (computeSwapStep (N:=exact) 2 1 1 0 true) < 0.
Proof.
  apply (proj1 computeSwapStep_negative_price 2 1 1 0); unfold amountInNet; lra.
Defined.

(** C10 as stated fails in two ways.  Below [1e-10]: [amountIn = 5e-11]
    without fee exceeds the liquidity [1e-11], yet the step returns the
    square-root price [0.995]; so it is in exact arithmetic, and so it is
    in binary64 whatever the [Math] library.  And from [1e-10] on, in
    binary64: with [amountIn = 2 - 2^-52], [sqrtPrice = 1 + 2^-52],
    [liquidity = 2 - 2^-51] and no fee the net input exceeds the
    liquidity, but the quotient [amountIn * sqrtPrice / liquidity] is
    rounded to [sqrtPrice] and the step returns the square-root price 0,
    which is not negative. *)
Lemma computeSwapStep_price_not_negative :
  (0 < 5 / 100000000000 /\
   0 < 1 / 100000000000 /\
   1 / 100000000000 < amountInNet (5 / 100000000000) 0 /\
   ~ newSqrtPriceX96
       (computeSwapStep (N:=exact) (5 / 100000000000) 1 (1 / 100000000000) 0 true)
     < 0) /\
  ~ (exists M : MathLib binary64,
       let amountIn : @num binary64 := of_Z 5 / of_Z 100000000000 in
       let liquidity : @num binary64 := of_Z 1 / of_Z 100000000000 in
       let feeTier : @num binary64 := of_Z 0 in
       (liquidity <? amountIn * (of_Z 1 - feeTier)) = true /\
       (newSqrtPriceX96 (computeSwapStep amountIn (of_Z 1) liquidity feeTier true)
        <? of_Z 0) = true)%num /\
  (let amountIn : float := 0x1.fffffffffffffp+0 in
   let sqrtPrice : float := 0x1.0000000000001p+0 in
   let liquidity : float := 0x1.ffffffffffffep+0 in
   let feeTier : float := 0 in
   PrimFloat.ltb amountIn (lit_1e_10 (N:=binary64)) = false /\
   PrimFloat.ltb 0 liquidity = true /\
   PrimFloat.ltb 0 sqrtPrice = true /\
   PrimFloat.ltb liquidity (amountIn * (1 - feeTier)) = true /\
   ~ (exists M : MathLib binary64,
        newSqrtPriceX96
          (computeSwapStep (N:=binary64) amountIn sqrtPrice liquidity feeTier true)
        <> 0) /\
   ~ (exists M : MathLib binary64,
        PrimFloat.ltb
          (newSqrtPriceX96
             (computeSwapStep (N:=binary64) amountIn sqrtPrice liquidity feeTier true))
          0 = true))%float.
Proof.
  split; [| split].
  - unfold amountInNet. repeat split; try lra.
    rewrite computeSwapStep_small_amount by lra. cbn. lra.
  - intros [M [_ H]]. vm_compute in H. discriminate H.
  - cbv zeta. repeat split; try (vm_compute; reflexivity).
    + intros [M H]. apply H. vm_compute. reflexivity.
    + intros [M H]. vm_compute in H. discriminate H.
Qed.

End NegativePrice.

(** ** C2 and C3: liquidity for amounts and back *)

Section LiquidityMath.

Lemma getLiquidityForAmounts_regimes_exact (p A B amount0 amount1 : R) :
  let lo := Rmin A B in
  let hi := Rmax A B in
  let liquidity : R := getLiquidityForAmounts (N:=exact) p A B amount0 amount1 in
  lo <= hi /\
  liquidity = getLiquidityForAmounts (N:=exact) p lo hi amount0 amount1 /\
  (p <= lo -> liquidity = amount0 * lo * hi / (hi - lo)) /\
  (hi <= p -> lo < p -> liquidity = amount1 / (hi - lo)) /\
  (lo < p < hi ->
   liquidity = Rmin (amount0 * p * hi / (hi - p)) (amount1 / (p - lo))).
Proof.
  cbv zeta.
  assert (Hord : Rmin A B <= Rmax A B)
    by (apply Rle_trans with A; [apply Rmin_l | apply Rmax_l]).
  split; [exact Hord |].
  unfold getLiquidityForAmounts, calculateLiquidity0, calculateLiquidity1.
  exact_ops.
  case_Rltb (Rmax A B) (Rmin A B); [lra |].
  case_Rltb B A.
  - rewrite (Rmin_right A B), (Rmax_left A B) in * by lra.
    split; [reflexivity |].
    case_Rleb p B; [| case_Rltb p A]; repeat split; intros; try reflexivity; lra.
  - rewrite (Rmin_left A B), (Rmax_right A B) in * by lra.
    split; [reflexivity |].
    case_Rleb p A; [| case_Rltb p B]; repeat split; intros; try reflexivity; lra.
Qed.

Lemma getLiquidityForAmounts_regimes_binary64 (p A B amount0 amount1 : float) :
  (let lo := if B <? A then B else A in
   let hi := if B <? A then A else B in
   let liquidity := getLiquidityForAmounts (N:=binary64) p A B amount0 amount1 in
   ((A <=? B) = true \/ (B <=? A) = true -> (lo <=? hi) = true) /\
   liquidity = getLiquidityForAmounts (N:=binary64) p lo hi amount0 amount1 /\
   ((p <=? lo) = true -> liquidity = amount0 * lo * hi / (hi - lo)) /\
   ((hi <=? p) = true -> (lo <? p) = true -> liquidity = amount1 / (hi - lo)) /\
   ((lo <? p) = true -> (p <? hi) = true ->
    liquidity = float_min (amount0 * p * hi / (hi - p)) (amount1 / (p - lo))))%float.
Proof.
  cbv zeta.
  unfold getLiquidityForAmounts, calculateLiquidity0, calculateLiquidity1.
  change (@lt binary64) with PrimFloat.ltb. change (@le binary64) with PrimFloat.leb.
  change (@mul binary64) with PrimFloat.mul. change (@div binary64) with PrimFloat.div.
  change (@sub binary64) with PrimFloat.sub. change (@Math_min binary64) with float_min.
  destruct (PrimFloat.ltb B A) eqn:Hswap.
  - rewrite (float_ltb_asym B A Hswap).
    split; [intros _; apply float_ltb_leb, Hswap |].
    split; [reflexivity |].
    split; [intros ->; reflexivity |].
    split.
    + intros Hhigh Hlow.
      rewrite (float_ltb_not_leb _ _ Hlow), (float_leb_not_ltb _ _ Hhigh).
      reflexivity.
    + intros Hlow Hhigh. rewrite (float_ltb_not_leb _ _ Hlow), Hhigh. reflexivity.
  - rewrite Hswap.
    split; [intros Hcomparable; apply float_leb_of_not_ltb; assumption |].
    split; [reflexivity |].
    split; [intros ->; reflexivity |].
    split.
    + intros Hhigh Hlow.
      rewrite (float_ltb_not_leb _ _ Hlow), (float_leb_not_ltb _ _ Hhigh).
      reflexivity.
    + intros Hlow Hhigh. rewrite (float_ltb_not_leb _ _ Hlow), Hhigh. reflexivity.
Qed.

(** C2: [getLiquidityForAmounts] accepts the bounds in either order and
    works with the smaller as [lo] and the larger as [hi], so that
    [lo <= hi].  At or below [lo] it returns
    [amount0 * lo * hi / (hi - lo)]; at or above [hi] it returns
    [amount1 / (hi - lo)]; strictly inside it returns the smaller of
    [amount0 * p * hi / (hi - p)] and [amount1 / (p - lo)].  (On a range of
    zero width at the current price the first case is the one taken.)
    This holds in exact arithmetic and, operation for operation, in
    binary64. *)
Theorem getLiquidityForAmounts_regimes :
  (forall p A B amount0 amount1 : R,
   let lo := Rmin A B in
   let hi := Rmax A B in
   let liquidity : R := getLiquidityForAmounts (N:=exact) p A B amount0 amount1 in
   lo <= hi /\
   liquidity = getLiquidityForAmounts (N:=exact) p lo hi amount0 amount1 /\
   (p <= lo -> liquidity = amount0 * lo * hi / (hi - lo)) /\
   (hi <= p -> lo < p -> liquidity = amount1 / (hi - lo)) /\
   (lo < p < hi ->
    liquidity = Rmin (amount0 * p * hi / (hi - p)) (amount1 / (p - lo)))) /\
  (forall p A B amount0 amount1 : float,
   let lo := if B <? A then B else A in
   let hi := if B <? A then A else B in
   let liquidity := getLiquidityForAmounts (N:=binary64) p A B amount0 amount1 in
   ((A <=? B) = true \/ (B <=? A) = true -> (lo <=? hi) = true) /\
   liquidity = getLiquidityForAmounts (N:=binary64) p lo hi amount0 amount1 /\
   ((p <=? lo) = true -> liquidity = amount0 * lo * hi / (hi - lo)) /\
   ((hi <=? p) = true -> (lo <? p) = true -> liquidity = amount1 / (hi - lo)) /\
   ((lo <? p) = true -> (p <? hi) = true ->
    liquidity = float_min (amount0 * p * hi / (hi - p)) (amount1 / (p - lo))))%float.
Proof.
  split.
  - exact getLiquidityForAmounts_regimes_exact.
  - exact getLiquidityForAmounts_regimes_binary64.
Qed.

(** Strictly inside the range the liquidity is the smaller of the two
    one-sided values. *)
Lemma getLiquidityForAmounts_inside (p A B a0 a1 : R) :
  Rmin A B < p < Rmax A B ->
  getLiquidityForAmounts (N:=exact) p A B a0 a1 =
  Rmin (a0 * p * Rmax A B / (Rmax A B - p)) (a1 / (p - Rmin A B)).
Proof.
  intros Hin.
  unfold getLiquidityForAmounts, calculateLiquidity0, calculateLiquidity1.
  exact_ops.
  case_Rltb B A.
  - rewrite (Rmin_right A B), (Rmax_left A B) in * by lra.
    case_Rleb p B; [lra |]. case_Rltb p A; [reflexivity | lra].
  - rewrite (Rmin_left A B), (Rmax_right A B) in * by lra.
    case_Rleb p A; [lra |]. case_Rltb p B; [reflexivity | lra].
Qed.

(** Back from a liquidity, strictly inside the range. *)
Lemma getAmountsForLiquidity_inside (p A B liquidity : R) :
  Rmin A B < p < Rmax A B ->
  getAmountsForLiquidity (N:=exact) p A B liquidity =
  @Build_Amounts exact
    (liquidity * (Rmax A B - p) / (p * Rmax A B))
    (liquidity * (p - Rmin A B)).
Proof.
  intros Hin.
  unfold getAmountsForLiquidity, calculateAmount0, calculateAmount1. exact_ops.
  case_Rltb B A.
  - rewrite (Rmin_right A B), (Rmax_left A B) in * by lra.
    case_Rleb p B; [lra |]. case_Rltb p A; [reflexivity | lra].
  - rewrite (Rmin_left A B), (Rmax_right A B) in * by lra.
    case_Rleb p A; [lra |]. case_Rltb p B; [reflexivity | lra].
Qed.

(** C3, as amended: in exact arithmetic, for every price [p] strictly
    inside the range, [p] and the upper bound not being 0 (no positive
    price is), and all non-negative amounts, converting the amounts to
    liquidity and back returns amounts that are component-wise at most
    the amounts given. *)
Theorem roundtrip_never_overcommits (p A B a0 a1 : R) :
  Rmin A B < p < Rmax A B -> p <> 0 -> Rmax A B <> 0 ->
  0 <= a0 -> 0 <= a1 ->
  let liquidity := getLiquidityForAmounts (N:=exact) p A B a0 a1 in
  let amounts := getAmountsForLiquidity (N:=exact) p A B liquidity in
  amount0 amounts <= a0 /\ amount1 amounts <= a1.
Proof.
  intros Hin Hp Hhi Ha0 Ha1. cbv zeta.
  rewrite (getLiquidityForAmounts_inside p A B a0 a1 Hin).
  rewrite (getAmountsForLiquidity_inside p A B _ Hin). cbn.
  set (lo := Rmin A B) in *. set (hi := Rmax A B) in *.
  destruct Hin as [Hlo Hup].
  set (L0 := a0 * p * hi / (hi - p)). set (L1 := a1 / (p - lo)).
  assert (HL0 : L0 * (hi - p) / (p * hi) = a0) by (unfold L0; field; lra).
  assert (HL1 : L1 * (p - lo) = a1) by (unfold L1; field; lra).
  assert (Hmin0 : Rmin L0 L1 <= L0) by apply Rmin_l.
  assert (Hmin1 : Rmin L0 L1 <= L1) by apply Rmin_r.
  assert (Hsign : 0 < p * hi \/ p * hi < 0).
  { destruct (Rtotal_order (p * hi) 0) as [H | [H | H]]; [right; exact H | | left; exact H].
    apply Rmult_integral in H. tauto. }
  destruct Hsign as [Hpos | Hneg].
  - split.
    + rewrite <- HL0. unfold Rdiv.
      apply Rmult_le_compat_r; [left; apply Rinv_0_lt_compat, Hpos |].
      apply Rmult_le_compat_r; [lra | exact Hmin0].
    + rewrite <- HL1. apply Rmult_le_compat_r; [lra | exact Hmin1].
  - assert (HL0neg : L0 <= 0).
    { unfold L0, Rdiv. rewrite Rmult_assoc.
      replace (a0 * (p * hi) * / (hi - p))
        with (- (a0 * (- (p * hi)) * / (hi - p))) by ring.
      assert (0 < / (hi - p)) by (apply Rinv_0_lt_compat; lra).
      assert (0 <= a0 * - (p * hi)) by (apply Rmult_le_pos; lra).
      assert (0 <= a0 * - (p * hi) * / (hi - p)) by (apply Rmult_le_pos; lra).
      lra. }
    assert (HL1pos : 0 <= L1).
    { unfold L1, Rdiv. apply Rmult_le_pos; [exact Ha1 |].
      left. apply Rinv_0_lt_compat. lra. }
    rewrite (Rmin_left L0 L1) by lra.
    split; [rewrite HL0; lra |].
    assert (L0 * (p - lo) <= 0); [| lra].
    replace (L0 * (p - lo)) with (- ((- L0) * (p - lo))) by ring.
    assert (0 <= - L0 * (p - lo)) by (apply Rmult_le_pos; lra). lra.
Qed.

(** The round trip at price 2 in the range [1, 4] from the amounts 3 and 5. *)
Lemma roundtrip_never_overcommits_witness :
  amount0 (getAmountsForLiquidity (N:=exact) 2 1 4
             (getLiquidityForAmounts (N:=exact) 2 1 4 3 5)) <= 3.
Proof.
  assert (Hmin : Rmin 1 4 = 1) by (apply Rmin_left; lra).
  assert (Hmax : Rmax 1 4 = 4) by (apply Rmax_right; lra).
  refine (proj1 (roundtrip_never_overcommits 2 1 4 3 5 _ _ _ _ _));
    rewrite ?Hmin, ?Hmax; lra.
Defined.

(** C3 as stated fails in binary64, the arithmetic the program runs in:
    at price 1.125 in the range [1, 4], from the amounts 3 and 1, the
    round trip returns [amount0 = 3.0000000000000004], above 3. *)
Lemma roundtrip_overcommits_in_binary64 :
  (let p := 1.125 in
   let liquidity := getLiquidityForAmounts (N:=binary64) p 1 4 3 1 in
   let amounts := getAmountsForLiquidity (N:=binary64) p 1 4 liquidity in
   PrimFloat.ltb 1 p = true /\ PrimFloat.ltb p 4 = true /\
   PrimFloat.ltb 3 (amount0 amounts) = true)%float.
Proof. vm_compute. repeat split. Qed.

End LiquidityMath.

(** ** Price and tick in exact arithmetic *)

Section ExactConversions.

Lemma Int_part_IZR (z : Z) : Int_part (IZR z) = z.
Proof. symmetry. apply Int_part_spec. lra. Qed.

Lemma Int_part_le (x y : R) : x <= y -> (Int_part x <= Int_part y)%Z.
Proof.
  intros Hxy.
  destruct (base_Int_part x) as [Hx _], (base_Int_part y) as [_ Hy].
  assert (H : IZR (Int_part x) < IZR (Int_part y + 1)) by (rewrite plus_IZR; lra).
  apply lt_IZR in H. lia.
Qed.

Lemma Rpow_IZR (x : R) (z : Z) : Rpow x (IZR z) = powerRZ x z.
Proof.
  unfold Rpow. rewrite Int_part_IZR.
  destruct (Req_dec_T (IZR z) (IZR z)); [reflexivity | contradiction].
Qed.

Lemma lit_1_0001_exact : lit_1_0001 (N:=exact) = 10001 / 10000.
Proof. reflexivity. Qed.

Lemma ln_base_pos : 0 < ln (10001 / 10000).
Proof. rewrite <- ln_1. apply ln_increasing; lra. Qed.

Lemma tickToPrice_whole (z : Z) :
  tickToPrice (N:=exact) (IZR z) = powerRZ (10001 / 10000) z.
Proof. unfold tickToPrice. exact_ops. rewrite lit_1_0001_exact. apply Rpow_IZR. Qed.

Lemma tickToPrice_pos (z : Z) : 0 < tickToPrice (N:=exact) (IZR z).
Proof. rewrite tickToPrice_whole. apply powerRZ_lt. lra. Qed.

(** In exact arithmetic the tick of the price of a whole tick is that
    tick. *)
Lemma priceToTick_tickToPrice (z : Z) :
  priceToTick (N:=exact) (tickToPrice (N:=exact) (IZR z)) = IZR z.
Proof.
  rewrite tickToPrice_whole. unfold priceToTick. exact_ops.
  rewrite lit_1_0001_exact.
  rewrite powerRZ_Rpower by lra. rewrite ln_Rpower.
  replace (IZR z * ln (10001 / 10000) / ln (10001 / 10000)) with (IZR z).
  - rewrite Int_part_IZR. reflexivity.
  - field. pose proof ln_base_pos. lra.
Qed.

Lemma priceToTick_monotone (a b : R) :
  0 < a -> a <= b -> priceToTick (N:=exact) a <= priceToTick (N:=exact) b.
Proof.
  intros Ha Hab. unfold priceToTick. exact_ops. rewrite lit_1_0001_exact.
  apply IZR_le, Int_part_le.
  assert (Hln : ln a <= ln b).
  { destruct Hab as [Hlt | ->]; [left; apply ln_increasing; assumption | right; reflexivity]. }
  pose proof ln_base_pos as Hbase.
  apply Rmult_le_compat_r; [| exact Hln].
  left. apply Rinv_0_lt_compat, Hbase.
Qed.

(** Positions with [0 < lowerPrice <= upperPrice], on a positive tick
    spacing, have their lower tick at or below their upper tick. *)
Lemma lowerTick_le_upperTick (lowerPrice upperPrice tickSpacing : R) :
  0 < tickSpacing -> 0 < lowerPrice -> lowerPrice <= upperPrice ->
  lowerTickOf (N:=exact) lowerPrice tickSpacing <=
  upperTickOf (N:=exact) upperPrice tickSpacing.
Proof.
  intros Hs Hl Hlu. unfold lowerTickOf, upperTickOf. exact_ops.
  apply Rmult_le_compat_r; [lra |].
  apply IZR_le, Int_part_le.
  apply Rmult_le_compat_r; [left; apply Rinv_0_lt_compat, Hs |].
  apply priceToTick_monotone; assumption.
Qed.

Lemma Q96_exact : Q96 (N:=exact) = powerRZ 2 96.
Proof. unfold Q96. exact_ops. apply Rpow_IZR. Qed.

Lemma Q96_pos : 0 < Q96 (N:=exact).
Proof. rewrite Q96_exact. apply powerRZ_lt. lra. Qed.

End ExactConversions.

(** ** C6: from a tick to its price and back *)

Section TickRoundTrip.

(** In binary64 the tick of the price of tick 2 is 1, for every [Math]
    library that returns the correctly rounded power [1.0001^2] and the
    correctly rounded logarithms of that power and of [1.0001]: the
    quotient of the logarithms is [1.9999999999993923]. *)
Lemma priceToTick_tickToPrice_2 (M : MathLib binary64) :
  (@Math_pow binary64 M (lit_1_0001 (N:=binary64)) 2 = 0x1.000d1b9c68abep+0 ->
   @Math_log binary64 M 0x1.000d1b9c68abep+0 = 0x1.a368d0657f412p-13 ->
   @Math_log binary64 M (lit_1_0001 (N:=binary64)) = 0x1.a368d0657fcd4p-14 ->
   @Math_floor binary64 M (0x1.a368d0657f412p-13 / 0x1.a368d0657fcd4p-14) = 1 ->
   @priceToTick binary64 M (@tickToPrice binary64 M 2) = 1)%float.
Proof.
  intros Hpow Hlog Hbase Hfloor. unfold priceToTick, tickToPrice.
  change (@of_Z binary64 2) with 2%float.
  change (@div binary64) with PrimFloat.div.
  rewrite Hpow, Hlog, Hbase. exact Hfloor.
Qed.

(** C6, as amended: in exact arithmetic, for every whole tick [t], inside
    the range [-887272, 887272] or not, [priceToTick (tickToPrice t) = t],
    and so [tickToPrice (priceToTick (tickToPrice t)) = tickToPrice t]. *)
Theorem tick_roundtrip_in_exact_arithmetic (t : Z) :
  priceToTick (N:=exact) (tickToPrice (N:=exact) (IZR t)) = IZR t /\
  tickToPrice (N:=exact) (priceToTick (N:=exact) (tickToPrice (N:=exact) (IZR t)))
  = tickToPrice (N:=exact) (IZR t).
Proof.
  split; [apply priceToTick_tickToPrice |].
  rewrite priceToTick_tickToPrice. reflexivity.
Qed.

(** C6 as stated fails in binary64 at the valid tick 2: with the
    correctly rounded values of [Math.pow (1.0001, 2)], of its logarithm
    and of the logarithm of [1.0001], and the floor of their quotient
    [1.9999999999993923], which is 1, [priceToTick (tickToPrice 2)] is 1. *)
Lemma tick_roundtrip_fails_in_binary64 :
  exists M : MathLib binary64,
    (@Math_pow binary64 M (lit_1_0001 (N:=binary64)) 2 = 0x1.000d1b9c68abep+0 /\
     @Math_log binary64 M 0x1.000d1b9c68abep+0 = 0x1.a368d0657f412p-13 /\
     @Math_log binary64 M (lit_1_0001 (N:=binary64)) = 0x1.a368d0657fcd4p-14 /\
     @Math_floor binary64 M (0x1.a368d0657f412p-13 / 0x1.a368d0657fcd4p-14) = 1 /\
     PrimFloat.leb (MIN_TICK (N:=binary64)) 2 = true /\
     PrimFloat.leb 2 (MAX_TICK (N:=binary64)) = true /\
     @priceToTick binary64 M (@tickToPrice binary64 M 2) = 1 /\
     PrimFloat.eqb (@priceToTick binary64 M (@tickToPrice binary64 M 2)) 2 = false
    )%float.
Proof.
  exists (@Build_MathLib binary64
            (fun x => if PrimFloat.ltb x 2%float then 1%float else x)
            (fun x =>
               if PrimFloat.eqb x 0x1.000d1b9c68abep+0%float
               then 0x1.a368d0657f412p-13%float
               else 0x1.a368d0657fcd4p-14%float)
            (fun x y => PrimFloat.mul x x)).
  vm_compute. repeat split.
Qed.

End TickRoundTrip.

(** ** C9: the conversions have no failure path *)

Section Conversions.

(** C9, as amended: [priceToTick] and [tickToPrice] never fail.  For
    every number [price], [priceToTick] returns
    [Math.floor(Math.log(price) / Math.log(1.0001))], and for every
    number [tick], inside [MIN_TICK, MAX_TICK] or not, [tickToPrice]
    returns [Math.pow(1.0001, tick)].  This holds in every reading of the
    numbers. *)
Theorem conversions_always_return (N : Number) (M : MathLib N) :
  (forall price : num,
     Calls.call_priceToTick price =
     Returns (Math_floor (div (Math_log price) (Math_log lit_1_0001)))) /\
  (forall tick : num,
     Calls.call_tickToPrice tick = Returns (Math_pow lit_1_0001 tick)) /\
  (forall (price tick : num) (error : ErrorKind),
     Calls.call_priceToTick price <> Throws error /\
     Calls.call_tickToPrice tick <> Throws error).
Proof.
  repeat split; intros; try reflexivity; discriminate.
Qed.

(** C9 as stated fails: the call [priceToTick(0)] does not end with
    [InvalidPrice], nor [priceToTick(-1)], and the call
    [tickToPrice(887273)] does not end with [TickOutOfRange]; so it is in
    exact arithmetic, and so it is in binary64 whatever the [Math]
    library. *)
Lemma conversions_do_not_throw :
  (Calls.call_priceToTick (N:=exact) 0 <> Throws InvalidPrice /\
   Calls.call_priceToTick (N:=exact) (-1) <> Throws InvalidPrice /\
   Calls.call_tickToPrice (N:=exact) 887273 <> Throws TickOutOfRange) /\
  ~ (exists M : MathLib binary64,
       Calls.call_priceToTick (N:=binary64) (of_Z 0) = Throws InvalidPrice \/
       Calls.call_priceToTick (N:=binary64) (of_Z (-1)) = Throws InvalidPrice \/
       Calls.call_tickToPrice (N:=binary64) (of_Z 887273) = Throws TickOutOfRange).
Proof.
  split; [repeat split; discriminate |].
  intros [M [H | [H | H]]]; discriminate H.
Qed.

End Conversions.

(** ** C8: a swap of nothing *)

Section ZeroAmount.
Import Spec.

(** With no input the loop condition fails at once, in every reading of
    the numbers in which [0 > 0] is false. *)
Lemma executeSwap_zero_amount (N : Number) (M : MathLib N)
    (this : UniswapV3SwapSimulator) (zeroForOne : bool) :
  lt (of_Z 0) (of_Z 0) = false ->
  exists value this',
    executeSwap this (of_Z 0) zeroForOne = Some (value, this') /\
    amountOut value = of_Z 0 /\
    samePool this this'.
Proof.
  intros Hzero. unfold executeSwap, executeSwap_within.
  rewrite Nat.add_comm. cbn -[of_Z]. rewrite Hzero.
  eexists. eexists. split; [reflexivity |].
  split; [reflexivity |]. repeat split.
Qed.

(** C8: for every pool state and either direction, [executeSwap] with
    [amountIn = 0] returns a result with [amountOut = 0] and leaves the
    current tick, the current price (in both forms) and the stored ticks
    as they were.  This holds in exact arithmetic and in binary64 with
    any [Math] library. *)
Theorem executeSwap_zero_amount_is_neutral :
  (forall (this : UniswapV3SwapSimulator (N:=exact)) (zeroForOne : bool),
   exists value this',
     executeSwap this 0 zeroForOne = Some (value, this') /\
     amountOut value = 0 /\
     samePool this this') /\
  (forall (M : MathLib binary64) (this : UniswapV3SwapSimulator (N:=binary64))
          (zeroForOne : bool),
   exists value this',
     executeSwap this PrimFloat.zero zeroForOne = Some (value, this') /\
     amountOut value = PrimFloat.zero /\
     samePool this this').
Proof.
  split; intros.
  - apply (executeSwap_zero_amount exact exact_math).
    apply Rltb_false. cbn. lra.
  - apply (executeSwap_zero_amount binary64 M). reflexivity.
Qed.

End ZeroAmount.

(** ** C7: a swap without active liquidity *)

Section NoLiquidity.
Import Spec.

(** [this.swapSteps] is not read by [getActiveLiquidity]. *)
Lemma getActiveLiquidity_set_swapSteps (N : Number)
    (this : UniswapV3SwapSimulator) (recorded : list StepRecord) :
  getActiveLiquidity (set_swapSteps this recorded) = getActiveLiquidity this.
Proof. reflexivity. Qed.

Lemma executeSwap_without_liquidity_exact
    (this : UniswapV3SwapSimulator (N:=exact)) (amount : R) (zeroForOne : bool) :
  0 <= amount ->
  getActiveLiquidity this <= 0 ->
  exists value this',
    executeSwap this amount zeroForOne = Some (value, this') /\
    amountIn value = 0 /\
    amountOut value = 0 /\
    feesCollected value = 0 /\
    steps value = [] /\
    finalPrice value = currentPrice this /\
    samePool this this'.
Proof.
  intros Hamount Hstarved. unfold executeSwap, executeSwap_within.
  rewrite Nat.add_comm. cbn [Nat.add loop remainingAmount].
  exact_ops.
  case_Rltb 0 amount.
  - unfold loopBody. rewrite getActiveLiquidity_set_swapSteps.
    exact_ops.
    case_Rleb (getActiveLiquidity this) 0; [| lra].
    eexists. eexists. split; [reflexivity |].
    cbn. exact_ops. repeat split. lra.
  - eexists. eexists. split; [reflexivity |].
    cbn. repeat split. lra.
Qed.

Lemma executeSwap_without_liquidity_binary64 (M : MathLib binary64)
    (this : UniswapV3SwapSimulator (N:=binary64)) (amount : float)
    (zeroForOne : bool) :
  PrimFloat.leb 0 amount = true ->
  PrimFloat.ltb amount infinity = true ->
  PrimFloat.leb (getActiveLiquidity this) 0 = true ->
  exists value this',
    executeSwap this amount zeroForOne = Some (value, this') /\
    PrimFloat.eqb (amountIn value) 0 = true /\
    amountOut value = 0%float /\
    feesCollected value = 0%float /\
    steps value = [] /\
    finalPrice value = currentPrice this /\
    samePool this this'.
Proof.
  intros Hamount Hfinite Hstarved. unfold executeSwap, executeSwap_within.
  rewrite Nat.add_comm. cbn [Nat.add loop remainingAmount].
  change (@lt binary64 (@of_Z binary64 0) amount) with (PrimFloat.ltb 0 amount).
  destruct (PrimFloat.ltb 0 amount) eqn:Hpositive.
  - unfold loopBody. rewrite getActiveLiquidity_set_swapSteps.
    change (@le binary64 (getActiveLiquidity this) (@of_Z binary64 0))
      with (PrimFloat.leb (getActiveLiquidity this) 0).
    rewrite Hstarved.
    eexists. eexists. split; [reflexivity |].
    cbn [result amountIn amountOut feesCollected steps finalPrice
         remainingAmount totalAmountOut feeAmount set_swapSteps swapSteps
         currentPrice].
    change (@sub binary64 amount amount) with (PrimFloat.sub amount amount).
    rewrite (float_sub_diag amount Hamount Hfinite).
    repeat split.
  - eexists. eexists. split; [reflexivity |].
    cbn [result amountIn amountOut feesCollected steps finalPrice
         remainingAmount totalAmountOut feeAmount set_swapSteps swapSteps
         currentPrice].
    split; [exact (float_zero amount Hamount Hpositive) |].
    repeat split.
Qed.

(** C7: a swap of a non-negative amount requested while the active
    liquidity at the current tick is 0 or negative raises nothing:
    [executeSwap] returns a result that reports 0 consumed, 0 paid out,
    no fee and no step, at the unchanged price, and the pool state is as
    before.  This holds in exact arithmetic and, for a finite amount, in
    binary64 with any [Math] library. *)
Theorem executeSwap_without_liquidity :
  (forall (this : UniswapV3SwapSimulator (N:=exact)) (amount : R)
          (zeroForOne : bool),
     0 <= amount ->
     getActiveLiquidity this <= 0 ->
     exists value this',
       executeSwap this amount zeroForOne = Some (value, this') /\
       amountIn value = 0 /\
       amountOut value = 0 /\
       feesCollected value = 0 /\
       steps value = [] /\
       finalPrice value = currentPrice this /\
       samePool this this') /\
  (forall (M : MathLib binary64) (this : UniswapV3SwapSimulator (N:=binary64))
          (amount : float) (zeroForOne : bool),
     PrimFloat.leb 0 amount = true ->
     PrimFloat.ltb amount infinity = true ->
     PrimFloat.leb (getActiveLiquidity this) 0 = true ->
     exists value this',
       executeSwap this amount zeroForOne = Some (value, this') /\
       PrimFloat.eqb (amountIn value) 0 = true /\
       amountOut value = 0%float /\
       feesCollected value = 0%float /\
       steps value = [] /\
       finalPrice value = currentPrice this /\
       samePool this this').
Proof.
  split.
  - exact executeSwap_without_liquidity_exact.
  - exact executeSwap_without_liquidity_binary64.
Qed.

(** A swap of one unit in a fresh pool at price 1, which has no ticks. *)
Lemma executeSwap_without_liquidity_witness :
  exists value this',
    executeSwap (constructor (N:=exact) 1 None) 1 true = Some (value, this') /\
    amountIn value = 0 /\
    amountOut value = 0 /\
    feesCollected value = 0 /\
    steps value = [] /\
    finalPrice value = currentPrice (constructor (N:=exact) 1 None) /\
    samePool (constructor (N:=exact) 1 None) this'.
Proof.
  apply (proj1 executeSwap_without_liquidity
           (constructor (N:=exact) 1 None) 1 true).
  - lra.
  - cbn. lra.
Defined.

End NoLiquidity.

(** ** C4: the tick index *)

Section TickIndex.
Import Spec.

Local Notation "'Tick'" := (@Simulation.Tick exact).
Local Notation "'Simulator'" := (@UniswapV3SwapSimulator exact).
Local Notation "'Position'" := (@Simulation.Position exact).
Local Notation "'byIndex'" :=
  (fun a b : @Simulation.Tick exact => sub (index a) (index b)).

(** *** Sorting *)

Lemma insert_permutation (N : Number) (A : Type) (compareFn : A -> A -> num)
    (x : A) (l : list A) :
  Permutation (JSArray.insert compareFn x l) (x :: l).
Proof.
  induction l as [| y l IH]; cbn; [reflexivity |].
  destruct (lt (of_Z 0) (compareFn y x)); [reflexivity |].
  rewrite IH. apply perm_swap.
Qed.

Lemma sort_from_permutation (N : Number) (A : Type) (compareFn : A -> A -> num)
    (l sorted : list A) :
  Permutation (fold_left (fun sorted x => JSArray.insert compareFn x sorted) l sorted)
              (sorted ++ l).
Proof.
  revert sorted. induction l as [| x l IH]; intros sorted; cbn.
  - rewrite app_nil_r. reflexivity.
  - rewrite IH, insert_permutation. apply Permutation_middle.
Qed.

Lemma sort_permutation (N : Number) (A : Type) (compareFn : A -> A -> num)
    (l : list A) :
  Permutation (JSArray.sort compareFn l) l.
Proof. unfold JSArray.sort. apply (sort_from_permutation N A compareFn l []). Qed.

Lemma insert_ordered (x : Tick) (l : list Tick) :
  indexOrdered l -> indexOrdered (JSArray.insert byIndex x l).
Proof.
  unfold indexOrdered. induction 1 as [| y l Hl IH Hy]; cbn.
  - repeat constructor.
  - exact_ops. case_Rltb 0 (index y - index x).
    + constructor; [constructor; assumption |].
      constructor; [lra |].
      rewrite Forall_forall in *. intros z Hz. specialize (Hy z Hz). lra.
    + constructor; [assumption |].
      rewrite Forall_forall in *. intros z Hz.
      apply (Permutation_in z (insert_permutation exact Tick _ x l)) in Hz.
      destruct Hz as [<- | Hz]; [lra | auto].
Qed.

Lemma sort_from_ordered (l sorted : list Tick) :
  indexOrdered sorted ->
  indexOrdered (fold_left (fun sorted x => JSArray.insert byIndex x sorted) l sorted).
Proof.
  revert sorted. induction l as [| x l IH]; intros sorted Hs; cbn; [assumption |].
  apply IH, insert_ordered, Hs.
Qed.

Lemma sort_ordered (l : list Tick) : indexOrdered (JSArray.sort byIndex l).
Proof. apply sort_from_ordered. constructor. Qed.

(** *** Summing *)

Lemma netUpTo_cons (tick : R) (t : Tick) (l : list Tick) :
  netUpTo tick (t :: l) = netAt tick t + netUpTo tick l.
Proof. reflexivity. Qed.

Lemma netUpTo_permutation (tick : R) (l l' : list Tick) :
  Permutation l l' -> netUpTo tick l = netUpTo tick l'.
Proof.
  induction 1; rewrite ?netUpTo_cons; lra.
Qed.

Lemma netUpTo_app (tick : R) (l l' : list Tick) :
  netUpTo tick (l ++ l') = netUpTo tick l + netUpTo tick l'.
Proof.
  induction l as [| t l IH]; cbn [app]; rewrite ?netUpTo_cons; [cbn; lra | lra].
Qed.

Lemma netUpTo_above (tick : R) (l : list Tick) :
  Forall (fun t : Tick => tick < index t) l -> netUpTo tick l = 0.
Proof.
  induction 1 as [| t l Ht _ IH]; [reflexivity |].
  rewrite netUpTo_cons, IH. unfold netAt.
  case_Rleb (index t) tick; lra.
Qed.

(** On ordered ticks the loop with its [break] adds up exactly the ticks
    with index at most [tick]. *)
Lemma sumUpTo_ordered (tick : R) (l : list Tick) (activeLiquidity : R) :
  indexOrdered l ->
  sumUpTo (N:=exact) tick l activeLiquidity = activeLiquidity + netUpTo tick l.
Proof.
  intros Hl. revert activeLiquidity.
  induction Hl as [| t l Hl IH Ht]; intros activeLiquidity.
  - cbn. lra.
  - rewrite netUpTo_cons. cbn [sumUpTo]. exact_ops. unfold netAt.
    case_Rleb (index t) tick.
    + rewrite IH. lra.
    + rewrite (netUpTo_above tick l); [lra |].
      apply Forall_impl with (2 := Ht). intros; lra.
Qed.

(** *** Building *)

Lemma addTick_ordered (this : Simulator) (tickIndex net gross : R) :
  indexOrdered (liquidityTicks (addTick this tickIndex net gross)).
Proof. apply sort_ordered. Qed.

Lemma addTick_netUpTo (this : Simulator) (tickIndex net gross tick : R) :
  netUpTo tick (liquidityTicks (addTick this tickIndex net gross)) =
  netUpTo tick (liquidityTicks this) + (if Rleb tickIndex tick then net else 0).
Proof.
  cbn [addTick set_liquidityTicks liquidityTicks].
  rewrite (netUpTo_permutation tick _ _ (sort_permutation exact _ _ _)).
  rewrite netUpTo_app. cbn. unfold netAt. cbn. lra.
Qed.

(** A range whose lower tick is not above its upper tick adds its
    liquidity exactly at the ticks it contains. *)
Lemma range_contribution (lower upper liquidity tick : R) :
  lower <= upper ->
  (if Rleb lower tick then liquidity else 0) +
  (if Rleb upper tick then - liquidity else 0) =
  if rangeContains (N:=exact) lower upper tick then liquidity else 0.
Proof.
  intros Hrange. unfold rangeContains. exact_ops.
  case_Rleb lower tick; case_Rleb upper tick; case_Rltb tick upper;
    cbn; lra.
Qed.

Lemma addLiquidityInRange_ordered (this : Simulator)
    (lowerPrice upperPrice liquidity : R) (tickSpacing : option R) :
  indexOrdered
    (liquidityTicks
       (addLiquidityInRange this lowerPrice upperPrice liquidity tickSpacing)).
Proof. apply addTick_ordered. Qed.

Lemma addLiquidityInRange_netUpTo (this : Simulator)
    (lowerPrice upperPrice liquidity : R) (tickSpacing : option R) (tick : R) :
  let spacing := default (N:=exact) 10 tickSpacing in
  lowerTickOf lowerPrice spacing <= upperTickOf upperPrice spacing ->
  netUpTo tick
    (liquidityTicks
       (addLiquidityInRange this lowerPrice upperPrice liquidity tickSpacing)) =
  netUpTo tick (liquidityTicks this) +
  (if rangeContains (N:=exact)
        (lowerTickOf lowerPrice spacing) (upperTickOf upperPrice spacing) tick
   then liquidity else 0).
Proof.
  intros spacing Hrange. unfold addLiquidityInRange.
  cbv zeta. rewrite !addTick_netUpTo. exact_ops. fold spacing.
  rewrite <- (range_contribution _ _ liquidity tick Hrange). lra.
Qed.

Lemma liquidityOfRangesAt_cons (lower upper liquidity : R)
    (ranges : list (R * R * R)) (tick : R) :
  liquidityOfRangesAt (N:=exact) ((lower, upper, liquidity) :: ranges) tick =
  (if rangeContains (N:=exact) lower upper tick then liquidity else 0) +
  liquidityOfRangesAt (N:=exact) ranges tick.
Proof.
  unfold liquidityOfRangesAt. cbn [fold_left].
  match goal with
  | |- fold_left ?F _ _ = _ =>
      assert (Hshift : forall l a b, fold_left F l (a + b) = a + fold_left F l b)
  end.
  { induction l as [| [[x y] z] l IH]; intros a b; cbn [fold_left].
    - reflexivity.
    - destruct (rangeContains (N:=exact) x y tick); [| apply IH].
      rewrite <- IH. f_equal. exact_ops. lra. }
  exact_ops.
  destruct (rangeContains (N:=exact) lower upper tick).
  - replace (0 + liquidity) with (liquidity + 0) by lra. apply Hshift.
  - lra.
Qed.

Lemma addLiquidityInRange_fold (positions : list Position) (this : Simulator)
    (spacing tick : R) :
  indexOrdered (liquidityTicks this) ->
  (forall position, In position positions ->
     lowerTick spacing position <= upperTick spacing position) ->
  let pool :=
    fold_left
      (fun (this : Simulator) (position : Position) =>
         addLiquidityInRange this (lowerPrice position) (upperPrice position)
           (liquidity position) (Some spacing))
      positions this in
  indexOrdered (liquidityTicks pool) /\
  netUpTo tick (liquidityTicks pool) =
  netUpTo tick (liquidityTicks this) + liquidityOfPositionsAt positions spacing tick.
Proof.
  unfold liquidityOfPositionsAt. revert this.
  induction positions as [| position positions IH]; intros this Hordered Hranges.
  - cbn. split; [assumption |]. unfold liquidityOfRangesAt. cbn. lra.
  - cbn [fold_left map].
    destruct (IH (addLiquidityInRange this (lowerPrice position)
                    (upperPrice position) (liquidity position) (Some spacing)))
      as [Hord Hsum].
    + apply addLiquidityInRange_ordered.
    + intros p Hp. apply Hranges. right. exact Hp.
    + split; [exact Hord |].
      rewrite Hsum.
      rewrite (addLiquidityInRange_netUpTo this _ _ _ (Some spacing) tick)
        by (apply Hranges; left; reflexivity).
      change (@rangeOf exact exact_math spacing position)
        with (@lowerTick exact exact_math spacing position,
              @upperTick exact exact_math spacing position,
              @liquidity exact position).
      exact_ops. rewrite liquidityOfRangesAt_cons.
      unfold lowerTick, upperTick. cbn [default]. lra.
Qed.

(** C4, as amended: in exact arithmetic, after a fresh pool is built, on
    a positive tick spacing, from a list of positions with
    [0 < lowerPrice <= upperPrice], the active liquidity reported at any
    tick is the sum of the liquidity of exactly those positions whose
    range [lowerTick, upperTick) contains that tick. *)
Theorem active_liquidity_of_positions (initialPrice : R) (feeTier : option R)
    (positions : list Position) (tickSpacing : option R) (tick : R) :
  let spacing := default (N:=exact) 10 tickSpacing in
  0 < spacing ->
  (forall position, In position positions ->
     0 < lowerPrice position <= upperPrice position) ->
  let pool :=
    initializePoolFromPositions (constructor initialPrice feeTier) positions
      tickSpacing in
  getActiveLiquidity (set_currentTick pool tick) =
  liquidityOfPositionsAt positions spacing tick.
Proof.
  intros spacing Hspacing Hprices pool.
  destruct (addLiquidityInRange_fold positions
              (constructor (N:=exact) initialPrice feeTier) spacing tick)
    as [Hord Hsum].
  - constructor.
  - intros position Hin. destruct (Hprices position Hin) as [Hlow Hup].
    apply lowerTick_le_upperTick; assumption.
  - unfold getActiveLiquidity.
    cbn [set_currentTick set_price currentTick liquidityTicks].
    change (sumUpTo (N:=exact) tick (liquidityTicks pool) 0 =
            liquidityOfPositionsAt positions spacing tick).
    rewrite (sumUpTo_ordered tick _ _ Hord), Hsum. cbn. lra.
Qed.

(** A fresh pool at price 1 with the one position from price 1 to price 2
    and liquidity 5, read at tick 0. *)
Lemma active_liquidity_of_positions_witness :
  let position : Position :=
    {| lowerPrice := 1; upperPrice := 2; liquidity := 5 |} in
  getActiveLiquidity
    (set_currentTick
       (initializePoolFromPositions (constructor (N:=exact) 1 None) [position] None)
       0) =
  liquidityOfPositionsAt [position] (default (N:=exact) 10 None) 0.
Proof.
  intros position.
  apply (active_liquidity_of_positions 1 None [position] None 0).
  - cbn. lra.
  - intros p [<- | []]. cbn. lra.
Defined.

(** C4 as stated fails in two ways.

    In binary64, the arithmetic the program runs in: the four calls of
    [addTick] that record the ranges [0, 10) with liquidity [2^53] and
    [5, 20) with liquidity 1 leave a pool whose active liquidity at tick
    12 is reported as 0, although the second range contains tick 12 and
    has liquidity 1; the running sum [2^53 + 1] rounds to [2^53].

    In exact arithmetic, on a position given upside down: the two calls
    of [addTick] that record liquidity 5 from tick 10 down to tick 0 leave
    a pool whose active liquidity at tick 5 is [-5], while no range
    contains tick 5. *)
Lemma active_liquidity_differs_from_positions :
  (let fresh : @UniswapV3SwapSimulator binary64 :=
     {| feeTier := MEDIUM (FEE_TIERS (N:=binary64));
        initialPrice := 1;
        currentPrice := 1;
        currentSqrtPriceX96 := 79228162514264337593543950336;
        currentTick := 0;
        liquidityTicks := [];
        swapSteps := [] |} in
   let pool := addTick fresh 0 9007199254740992 9007199254740992 in
   let pool := addTick pool 10 (-9007199254740992) 9007199254740992 in
   let pool := addTick pool 5 1 1 in
   let pool := addTick pool 20 (-1) 1 in
   map (@index binary64) (liquidityTicks pool) = [0; 5; 10; 20] /\
   getActiveLiquidity (set_currentTick pool 12) = 0 /\
   liquidityOfRangesAt (N:=binary64)
     [(0, 10, 9007199254740992); (5, 20, 1)] 12 = 1)%float /\
  (let fresh : Simulator := constructor (N:=exact) 1 None in
   let pool := addTick fresh 10 5 5 in
   let pool := addTick pool 0 (-5) 5 in
   getActiveLiquidity (set_currentTick pool 5) = -5 /\
   liquidityOfRangesAt (N:=exact) [(10, 0, 5)] 5 = 0).
Proof.
  split; [vm_compute; repeat split |].
  cbv zeta. split.
  - unfold getActiveLiquidity.
    cbn [set_currentTick set_price currentTick liquidityTicks].
    match goal with
    | |- sumUpTo _ (liquidityTicks ?pool) _ = _ =>
        change (sumUpTo (N:=exact) 5 (liquidityTicks pool) 0 = -5)
    end.
    rewrite sumUpTo_ordered by apply addTick_ordered.
    rewrite !addTick_netUpTo. cbn [constructor liquidityTicks netUpTo fold_right].
    case_Rleb 10 5; [lra |]. case_Rleb 0 5; lra.
  - unfold liquidityOfRangesAt, rangeContains. cbn [fold_left]. exact_ops.
    case_Rleb 10 5; [lra | reflexivity].
Qed.

End TickIndex.

(** ** Termination of the swap loop *)

Section LoopTermination.
Import Spec.
Context {N : Number} {M : MathLib N} (laws : OrderLaws N).

Lemma findNextTick_beyond (this : UniswapV3SwapSimulator) (zeroForOne : bool)
    (t : Tick) :
  findNextTick this zeroForOne = Some t ->
  In t (liquidityTicks this) /\ beyond this zeroForOne t = true.
Proof.
  unfold findNextTick, beyond. destruct zeroForOne; intros Hfind;
    apply find_some in Hfind; destruct Hfind as [Hin Hbeyond];
    (split; [| exact Hbeyond]).
  - apply in_rev. exact Hin.
  - exact Hin.
Qed.

Lemma filter_length_lt (A : Type) (f g : A -> bool) (l : list A) (x : A) :
  (forall y, In y l -> f y = true -> g y = true) ->
  In x l -> g x = true -> f x = false ->
  (length (filter f l) < length (filter g l))%nat.
Proof.
  intros Hfg Hin Hg Hf.
  assert (Hle : forall l', (forall y, In y l' -> f y = true -> g y = true) ->
                (length (filter f l') <= length (filter g l'))%nat).
  { induction l' as [| y l' IH]; intros H; cbn; [lia |].
    assert (IH' := IH (fun z Hz => H z (or_intror Hz))).
    destruct (f y) eqn:Ef.
    - rewrite (H y (or_introl eq_refl) Ef). cbn. lia.
    - destruct (g y); cbn; lia. }
  induction l as [| y l IH]; [contradiction |].
  cbn. destruct Hin as [-> | Hin].
  - rewrite Hf, Hg. cbn.
    specialize (Hle l (fun z Hz => Hfg z (or_intror Hz))). lia.
  - assert (IH' := IH (fun z Hz => Hfg z (or_intror Hz)) Hin).
    destruct (f y) eqn:Ef.
    + rewrite (Hfg y (or_introl eq_refl) Ef). cbn. lia.
    + destruct (g y); cbn; lia.
Qed.

(** Moving the current tick onto the next tick leaves fewer ticks ahead. *)
Lemma ticksAhead_decreases (this this' : UniswapV3SwapSimulator)
    (zeroForOne : bool) (t : Tick) :
  liquidityTicks this' = liquidityTicks this ->
  currentTick this' = index t ->
  In t (liquidityTicks this) ->
  beyond this zeroForOne t = true ->
  (ticksAhead this' zeroForOne < ticksAhead this zeroForOne)%nat.
Proof.
  intros Hticks Htick Hin Hbeyond. unfold ticksAhead. rewrite Hticks.
  apply filter_length_lt with (x := t); try assumption.
  - intros u _. unfold beyond in *. rewrite Htick.
    destruct zeroForOne; intros Hu.
    + exact (lt_trans _ _ _ Hu Hbeyond).
    + exact (lt_trans _ _ _ Hbeyond Hu).
  - unfold beyond. rewrite Htick. destruct zeroForOne; apply lt_irrefl.
Qed.

(** A pass that neither returns nor breaks has used up the input or has
    moved the current tick onto the next stored tick. *)
Lemma loopBody_normal (this : UniswapV3SwapSimulator) (amount initialPrice : num)
    (zeroForOne : bool) (vars : Locals)
    (this' : UniswapV3SwapSimulator) (vars' : Locals) :
  loopBody this amount initialPrice zeroForOne vars = Normal this' vars' ->
  remainingAmount vars' = of_Z 0 \/
  (liquidityTicks this' = liquidityTicks this /\
   (ticksAhead this' zeroForOne < ticksAhead this zeroForOne)%nat).
Proof.
  unfold loopBody.
  destruct (le (getActiveLiquidity this) (of_Z 0)); [discriminate |].
  destruct (findNextTick this zeroForOne) as [nextTick |] eqn:Hnext;
    [| discriminate].
  destruct (le (remainingAmount vars) _).
  - intros [= <- <-]. left. reflexivity.
  - intros [= <- <-]. right.
    destruct (findNextTick_beyond this zeroForOne nextTick Hnext) as [Hin Hbeyond].
    split; [reflexivity |].
    apply ticksAhead_decreases with (t := nextTick); auto.
Qed.

Lemma loop_total (amount initialPrice : num) (zeroForOne : bool) (fuel : nat) :
  forall (this : UniswapV3SwapSimulator) (vars : Locals),
  (ticksAhead this zeroForOne + 2 <= fuel)%nat ->
  exists outcome, loop fuel this amount initialPrice zeroForOne vars = Some outcome.
Proof.
  induction fuel as [| fuel IH]; intros this vars Hfuel; [lia |].
  cbn [loop]. destruct (lt (of_Z 0) (remainingAmount vars)); [| eauto].
  destruct (loopBody this amount initialPrice zeroForOne vars)
    as [value this' | this' vars' | this' vars'] eqn:Hbody; eauto.
  destruct (loopBody_normal _ _ _ _ _ _ _ Hbody) as [Hdone | [_ Hahead]].
  - destruct fuel as [| fuel]; [lia |].
    cbn [loop]. rewrite Hdone, lt_irrefl. eauto.
  - apply IH. lia.
Qed.

Lemma loop_more_fuel (amount initialPrice : num) (zeroForOne : bool) (fuel : nat) :
  forall (this : UniswapV3SwapSimulator) (vars : Locals) outcome (fuel' : nat),
  loop fuel this amount initialPrice zeroForOne vars = Some outcome ->
  (fuel <= fuel')%nat ->
  loop fuel' this amount initialPrice zeroForOne vars = Some outcome.
Proof.
  induction fuel as [| fuel IH]; intros this vars outcome fuel' Hloop Hle;
    [discriminate |].
  destruct fuel' as [| fuel']; [lia |].
  cbn [loop] in *. destruct (lt (of_Z 0) (remainingAmount vars)); [| exact Hloop].
  destruct (loopBody this amount initialPrice zeroForOne vars); try exact Hloop.
  apply IH; [exact Hloop | lia].
Qed.

Lemma ticksAhead_bound (this : UniswapV3SwapSimulator) (zeroForOne : bool) :
  (ticksAhead this zeroForOne <= length (liquidityTicks this))%nat.
Proof. apply filter_length_le. Qed.

(** [executeSwap] returns on every input and pool state, and a larger
    bound on the loop tests returns the same. *)
Lemma executeSwap_total (this : UniswapV3SwapSimulator) (amount : num)
    (zeroForOne : bool) :
  exists outcome,
    executeSwap this amount zeroForOne = Some outcome /\
    forall fuel, (length (liquidityTicks this) + 2 <= fuel)%nat ->
      executeSwap_within fuel this amount zeroForOne = Some outcome.
Proof.
  unfold executeSwap, executeSwap_within.
  set (start := set_swapSteps this []).
  set (vars := Build_Locals amount (of_Z 0) (of_Z 0)).
  destruct (loop_total amount (currentPrice this) zeroForOne
              (length (liquidityTicks this) + 2) start vars) as [outcome Hloop].
  { pose proof (ticksAhead_bound start zeroForOne) as Hbound.
    cbn [start set_swapSteps liquidityTicks] in Hbound. lia. }
  exists outcome. split; [exact Hloop |].
  intros fuel Hfuel. apply loop_more_fuel with (1 := Hloop). exact Hfuel.
Qed.

End LoopTermination.

(** ** C5: the swap loop *)

Section SwapLoop.
Import Spec.

Local Notation "'Tick'" := (@Simulation.Tick exact).
Local Notation "'Simulator'" := (@UniswapV3SwapSimulator exact).
Local Notation "'Locals'" := (@Simulation.Locals exact).

(** *** Progress *)

(** In a consistent pool the square-root price at a whole tick other
    than the current one differs from the current square-root price, and
    both are positive. *)
Lemma next_price_differs (this : Simulator) (z : Z) :
  consistent this -> IZR z <> currentTick this ->
  let next := priceToSqrtPriceX96 (N:=exact) (tickToPrice (N:=exact) (IZR z)) in
  next <> currentSqrtPriceX96 this /\ 0 < next /\ 0 < currentSqrtPriceX96 this.
Proof.
  intros (_ & Hprice & Htick & Hsqrt & _) Hz next. subst next.
  rewrite Hsqrt. unfold priceToSqrtPriceX96. exact_ops.
  pose proof Q96_pos as HQ. pose proof (tickToPrice_pos z) as Hnext.
  repeat split.
  - intros Heq. apply Rmult_eq_reg_r in Heq; [| lra].
    apply sqrt_inj in Heq; [| lra | lra].
    apply Hz. rewrite Htick, <- Heq. symmetry. apply priceToTick_tickToPrice.
  - apply Rmult_lt_0_compat; [apply sqrt_lt_R0, Hnext | exact HQ].
  - apply Rmult_lt_0_compat; [apply sqrt_lt_R0, Hprice | exact HQ].
Qed.

(** ... so the estimated input up to the next tick is positive. *)
Lemma amountToNextTick_pos (this : Simulator) (activeLiquidity : R) (z : Z)
    (zeroForOne : bool) :
  consistent this -> 0 < activeLiquidity -> IZR z <> currentTick this ->
  0 < amountToNextTick this activeLiquidity
        (priceToSqrtPriceX96 (N:=exact) (tickToPrice (N:=exact) (IZR z))) zeroForOne.
Proof.
  intros Hcons Hliq Hz.
  destruct (next_price_differs this z Hcons Hz) as (Hdiff & Hnext & Hcur).
  destruct Hcons as (Hfee & _).
  cbv zeta in Hdiff, Hnext.
  set (next := priceToSqrtPriceX96 (N:=exact) (tickToPrice (N:=exact) (IZR z))) in *.
  unfold amountToNextTick, SCALE_FACTOR. exact_ops.
  assert (Hdelta :
    0 < (if zeroForOne
         then activeLiquidity * Rabs (1 / currentSqrtPriceX96 this - 1 / next)
         else activeLiquidity * Rabs (next - currentSqrtPriceX96 this))).
  { destruct zeroForOne; apply Rmult_lt_0_compat; try assumption;
      apply Rabs_pos_lt.
    - intros Heq. apply Hdiff. symmetry. apply Rinv_eq_reg. lra.
    - lra. }
  apply Rdiv_lt_0_compat; [| lra].
  apply Rdiv_lt_0_compat; [exact Hdelta | lra].
Qed.

(** One pass of the loop body that finds active liquidity: it records
    exactly one step and leaves less input, and when input is left the pool
    is consistent again. *)
Lemma loopBody_progress (this : Simulator) (amount initialPrice : R)
    (zeroForOne : bool) (vars : Locals) :
  consistent this ->
  0 < remainingAmount vars ->
  0 < getActiveLiquidity this ->
  exists (this' : Simulator) (vars' : Locals) (recorded : StepRecord),
    (loopBody this amount initialPrice zeroForOne vars = Break this' vars' \/
     loopBody this amount initialPrice zeroForOne vars = Normal this' vars') /\
    swapSteps this' = swapSteps this ++ [recorded] /\
    remainingAmount vars' < remainingAmount vars /\
    (0 < remainingAmount vars' -> consistent this').
Proof.
  intros Hcons Hremaining Hliq. unfold loopBody. cbv zeta. exact_ops.
  case_Rleb (getActiveLiquidity this) 0; [lra |].
  destruct (findNextTick this zeroForOne) as [nextTick |] eqn:Hnext.
  - destruct (findNextTick_beyond this zeroForOne nextTick Hnext) as [Hin Hbeyond].
    assert (Hwhole : exists z : Z, index nextTick = IZR z).
    { destruct Hcons as (_ & _ & _ & _ & Hticks).
      rewrite Forall_forall in Hticks. apply Hticks, Hin. }
    destruct Hwhole as [z Hz].
    assert (Hother : IZR z <> currentTick this).
    { unfold beyond in Hbeyond. rewrite Hz in Hbeyond. exact_ops.
      destruct zeroForOne; apply Rltb_true in Hbeyond; lra. }
    pose proof (amountToNextTick_pos this (getActiveLiquidity this) z zeroForOne
                  Hcons Hliq Hother) as Hpos.
    rewrite Hz.
    set (toNext := amountToNextTick this (getActiveLiquidity this)
                     (priceToSqrtPriceX96 (N:=exact) (tickToPrice (N:=exact) (IZR z)))
                     zeroForOne) in *.
    clearbody toNext.
    case_Rleb (remainingAmount vars) toNext.
    + do 3 eexists. split; [right; reflexivity |].
      split; [reflexivity |]. cbn. split; [lra | intros; lra].
    + do 3 eexists. split; [right; reflexivity |].
      split; [reflexivity |].
      unfold crossTick.
      cbn [remainingAmount feeTier currentPrice currentTick currentSqrtPriceX96
           liquidityTicks set_price set_swapSteps].
      exact_ops. split; [lra |].
      intros _. destruct Hcons as (Hfee & _ & _ & _ & Hticks).
      unfold consistent.
      cbn [feeTier currentPrice currentTick currentSqrtPriceX96
           liquidityTicks set_price set_swapSteps].
      split; [exact Hfee |].
      split; [apply tickToPrice_pos |].
      split; [rewrite Hz; symmetry; apply priceToTick_tickToPrice |].
      split; [reflexivity | exact Hticks].
  - do 3 eexists. split; [left; reflexivity |].
    split; [reflexivity |]. cbn. split; [lra | intros; lra].
Qed.

(** *** Consistent pools are those the simulator builds *)

Lemma constructor_consistent (price : R) (fee : option R) :
  0 < price -> default (N:=exact) (MEDIUM FEE_TIERS) fee < 1 ->
  consistent (constructor (N:=exact) price fee).
Proof.
  intros Hprice Hfee. unfold consistent, constructor.
  cbn [feeTier currentPrice currentTick currentSqrtPriceX96 liquidityTicks].
  repeat split; try assumption. constructor.
Qed.

Lemma addTick_consistent (this : Simulator) (z : Z) (net gross : R) :
  consistent this -> consistent (addTick this (IZR z) net gross).
Proof.
  intros (Hfee & Hprice & Htick & Hsqrt & Hticks). unfold consistent, addTick.
  cbn [feeTier currentPrice currentTick currentSqrtPriceX96 liquidityTicks
       set_liquidityTicks].
  repeat split; try assumption.
  apply (Permutation_Forall
           (Permutation_sym (sort_permutation exact _ _ _))).
  apply Forall_app. split; [exact Hticks |].
  constructor; [| constructor]. exists z. reflexivity.
Qed.

(** On a whole tick spacing the ticks of a range are whole. *)
Lemma addLiquidityInRange_consistent (this : Simulator)
    (lowerPrice upperPrice liquidity : R) (spacing : Z) :
  consistent this ->
  consistent
    (addLiquidityInRange this lowerPrice upperPrice liquidity (Some (IZR spacing))).
Proof.
  intros Hcons. unfold addLiquidityInRange, lowerTickOf, upperTickOf.
  cbv zeta. cbn [default]. exact_ops.
  rewrite <- !mult_IZR. apply addTick_consistent, addTick_consistent, Hcons.
Qed.

Lemma initializePoolFromPositions_consistent
    (positions : list (@Position exact)) (this : Simulator) (spacing : Z) :
  consistent this ->
  consistent (initializePoolFromPositions this positions (Some (IZR spacing))).
Proof.
  unfold initializePoolFromPositions. cbv zeta. cbn [default]. revert this.
  induction positions as [| position positions IH]; intros this Hcons;
    cbn [fold_left]; [exact Hcons |].
  apply IH, addLiquidityInRange_consistent, Hcons.
Qed.

(** *** The loop, pass by pass *)

(** A pass that finds no active liquidity returns the partial result and
    changes nothing. *)
Lemma loopBody_starved (this : Simulator) (amount initialPrice : R)
    (zeroForOne : bool) (vars : Locals) :
  getActiveLiquidity this <= 0 ->
  loopBody this amount initialPrice zeroForOne vars =
  Return (result this initialPrice (amount - remainingAmount vars) vars) this.
Proof.
  intros Hstarved. unfold loopBody. cbv zeta. exact_ops.
  case_Rleb (getActiveLiquidity this) 0; [reflexivity | lra].
Qed.

(** C5, as amended: in exact arithmetic and from a consistent pool state,
    every pass of the swap loop that finds positive active liquidity
    appends exactly one swap-step record and strictly decreases the
    remaining input (and leaves the pool consistent when input remains); a
    pass that finds none returns the partial result, appending no record
    and leaving the remaining input as it was.  For every input and pool
    state the loop terminates: [executeSwap] returns, within two loop
    tests more than there are stored ticks, in exact arithmetic and in
    binary64 with any [Math] library. *)
Theorem executeSwap_loop_progress_and_termination :
  (forall (this : Simulator) (amount initialPrice : R) (zeroForOne : bool)
          (vars : Locals),
     consistent this ->
     0 < remainingAmount vars ->
     0 < getActiveLiquidity this ->
     exists (this' : Simulator) (vars' : Locals) (recorded : StepRecord),
       (loopBody this amount initialPrice zeroForOne vars = Break this' vars' \/
        loopBody this amount initialPrice zeroForOne vars = Normal this' vars') /\
       swapSteps this' = swapSteps this ++ [recorded] /\
       remainingAmount vars' < remainingAmount vars /\
       (0 < remainingAmount vars' -> consistent this')) /\
  (forall (this : Simulator) (amount initialPrice : R) (zeroForOne : bool)
          (vars : Locals),
     getActiveLiquidity this <= 0 ->
     loopBody this amount initialPrice zeroForOne vars =
     Return (result this initialPrice (amount - remainingAmount vars) vars) this) /\
  (forall (this : Simulator) (amount : R) (zeroForOne : bool),
     exists outcome,
       executeSwap this amount zeroForOne = Some outcome /\
       forall fuel, (length (liquidityTicks this) + 2 <= fuel)%nat ->
         executeSwap_within fuel this amount zeroForOne = Some outcome) /\
  (forall (M : MathLib binary64) (this : @UniswapV3SwapSimulator binary64)
          (amount : float) (zeroForOne : bool),
     exists outcome,
       executeSwap this amount zeroForOne = Some outcome /\
       forall fuel, (length (liquidityTicks this) + 2 <= fuel)%nat ->
         executeSwap_within fuel this amount zeroForOne = Some outcome).
Proof.
  split; [exact loopBody_progress |].
  split; [exact loopBody_starved |].
  split; [exact (executeSwap_total exact_order) |].
  intros M. exact (@executeSwap_total binary64 M binary64_order).
Qed.

Lemma priceToTick_1 : priceToTick (N:=exact) 1 = 0.
Proof.
  unfold priceToTick. exact_ops. rewrite ln_1.
  replace (0 / ln (lit_1_0001 (N:=exact))) with 0 by (unfold Rdiv; ring).
  rewrite (Int_part_IZR 0). reflexivity.
Qed.

(** One pass in a pool at price 1 with the fee 0.3% and one stored tick,
    at index -10 with liquidity 5, one unit of input remaining. *)
Lemma executeSwap_loop_progress_witness :
  let this : Simulator :=
    {| feeTier := 3 / 1000;
       initialPrice := 1;
       currentPrice := 1;
       currentSqrtPriceX96 := priceToSqrtPriceX96 (N:=exact) 1;
       currentTick := priceToTick (N:=exact) 1;
       liquidityTicks :=
         [ {| index := IZR (-10); liquidityNet := 5; liquidityGross := 5 |} ];
       swapSteps := [] |} in
  let vars : Locals :=
    {| remainingAmount := 1; totalAmountOut := 0; feeAmount := 0 |} in
  exists (this' : Simulator) (vars' : Locals) (recorded : StepRecord),
    (loopBody this 1 1 true vars = Break this' vars' \/
     loopBody this 1 1 true vars = Normal this' vars') /\
    swapSteps this' = swapSteps this ++ [recorded] /\
    remainingAmount vars' < remainingAmount vars /\
    (0 < remainingAmount vars' -> consistent this').
Proof.
  intros this vars.
  apply (proj1 executeSwap_loop_progress_and_termination this 1 1 true vars).
  - unfold consistent, this.
    cbn [feeTier currentPrice currentTick currentSqrtPriceX96 liquidityTicks].
    split; [lra |]. split; [lra |]. split; [reflexivity |].
    split; [reflexivity |].
    constructor; [| constructor]. exists (-10)%Z. reflexivity.
  - cbn. lra.
  - unfold getActiveLiquidity, this.
    cbn [currentTick liquidityTicks sumUpTo index liquidityNet].
    rewrite priceToTick_1. exact_ops.
    case_Rleb (-10) 0; lra.
Defined.

(** A pass that crosses the next tick takes the estimate of the input up
    to that tick off the remaining input. *)
Lemma loopBody_crossing (this : Simulator) (amount initialPrice : R)
    (zeroForOne : bool) (vars : Locals) (nextTick : Tick) :
  0 < getActiveLiquidity this ->
  findNextTick this zeroForOne = Some nextTick ->
  let toNext :=
    amountToNextTick this (getActiveLiquidity this)
      (priceToSqrtPriceX96 (N:=exact) (tickToPrice (N:=exact) (index nextTick)))
      zeroForOne in
  toNext < remainingAmount vars ->
  exists this' vars',
    loopBody this amount initialPrice zeroForOne vars = Normal this' vars' /\
    remainingAmount vars' = remainingAmount vars - toNext.
Proof.
  intros Hactive Hnext toNext Hless. unfold loopBody. exact_ops.
  case_Rleb (getActiveLiquidity this) 0; [lra |].
  rewrite Hnext. fold toNext. clearbody toNext.
  case_Rleb (remainingAmount vars) toNext; [lra |].
  eexists. eexists. split; reflexivity.
Qed.

(** With a fee rate above 1 the estimate is not positive, and the pass
    that crosses the tick leaves no less input than it found: the pool of
    the example above with the fee rate 2. *)
Lemma loopBody_fee_above_1 :
  let this : Simulator :=
    {| feeTier := 2;
       initialPrice := 1;
       currentPrice := 1;
       currentSqrtPriceX96 := priceToSqrtPriceX96 (N:=exact) 1;
       currentTick := priceToTick (N:=exact) 1;
       liquidityTicks :=
         [ {| index := IZR (-10); liquidityNet := 5; liquidityGross := 5 |} ];
       swapSteps := [] |} in
  let vars : Locals :=
    {| remainingAmount := 1; totalAmountOut := 0; feeAmount := 0 |} in
  0 < remainingAmount vars /\
  0 < getActiveLiquidity this /\
  exists this' vars',
    loopBody this 1 1 true vars = Normal this' vars' /\
    ~ remainingAmount vars' < remainingAmount vars.
Proof.
  intros this vars.
  assert (Hactive : getActiveLiquidity this = 5).
  { unfold getActiveLiquidity, this.
    cbn [currentTick liquidityTicks sumUpTo index liquidityNet].
    rewrite priceToTick_1. exact_ops. case_Rleb (-10) 0; lra. }
  split; [cbn; lra |]. split; [lra |].
  assert (Hnext :
    findNextTick this true
    = Some {| index := IZR (-10); liquidityNet := 5; liquidityGross := 5 |}).
  { unfold findNextTick, this. cbn [currentTick liquidityTicks rev app find index].
    rewrite priceToTick_1. exact_ops. case_Rltb (-10) 0; [reflexivity | lra]. }
  assert (Hestimate :
    amountToNextTick this (getActiveLiquidity this)
      (priceToSqrtPriceX96 (N:=exact) (tickToPrice (N:=exact) (IZR (-10)))) true
    <= 0).
  { rewrite Hactive. unfold amountToNextTick, SCALE_FACTOR, this. cbn [feeTier].
    exact_ops.
    match goal with
    | |- context [Rabs ?d] =>
        pose proof (Rabs_pos d) as Habs; generalize dependent (Rabs d)
    end.
    intros a Ha. unfold Rdiv.
    replace (5 * a * / (1 - 2) * / 1000000000000000000)
      with (- (5 * a * / 1000000000000000000)) by (field; lra).
    assert (0 <= 5 * a * / 1000000000000000000); [| lra].
    apply Rmult_le_pos; [lra |]. left. apply Rinv_0_lt_compat. lra. }
  destruct (loopBody_crossing this 1 1 true vars _ ltac:(lra) Hnext)
    as (this' & vars' & Hbody & Hremaining).
  { cbn [index remainingAmount vars]. lra. }
  exists this', vars'. split; [exact Hbody |].
  rewrite Hremaining. cbn [index remainingAmount vars]. lra.
Qed.

End SwapLoop.

Section SwapLoopRounding.
Local Open Scope float_scope.

(** In binary64, in the pool at price 1 with the fee 0.3% and one stored
    tick, at index -10 with liquidity 5, the pass that crosses the tick
    records the input [3.17e-50] and leaves the remaining input 1 as it
    was: the difference is rounded back to 1.  So it is for every [Math]
    library with [pow (2, 96) = 2^96], [log 1 = 0], [floor 0 = 0] and the
    correctly rounded [pow (1.0001, -10)]. *)
Lemma loopBody_crossing_absorbed (M : MathLib binary64) :
  @Math_pow binary64 M 2 96 = 0x1p+96 ->
  @Math_log binary64 M 1 = 0 ->
  @Math_floor binary64 M (0 / @Math_log binary64 M (lit_1_0001 (N:=binary64))) = 0 ->
  @Math_pow binary64 M (lit_1_0001 (N:=binary64)) (-10) = 0x1.ff7d0003fb9c6p-1 ->
  let this : @UniswapV3SwapSimulator binary64 :=
    addTick (constructor (N:=binary64) 1 None) (-10) 5 5 in
  let vars : @Locals binary64 := @Build_Locals binary64 1 0 0 in
  (0 <? remainingAmount vars) = true /\
  (0 <? getActiveLiquidity this) = true /\
  exists this' vars' recorded,
    loopBody this 1 1 true vars = Normal this' vars' /\
    swapSteps this' = [recorded] /\
    crossedTick recorded = true /\
    step_amountIn recorded = 0x1.7b007bd8377e1p-165 /\
    remainingAmount vars' = remainingAmount vars /\
    (remainingAmount vars' <? remainingAmount vars) = false.
Proof.
  destruct M as [floor log pow].
  intros Hpow96 Hlog1 Hfloor Hpow10 this vars.
  vm_compute in Hpow96, Hlog1, Hfloor, Hpow10.
  assert (Hthis : this =
    @Build_UniswapV3SwapSimulator binary64 (MEDIUM (FEE_TIERS (N:=binary64))) 1 1
      0x1p+96 0 [ @Build_Tick binary64 (-10) 5 5 ] []).
  { unfold this, addTick, constructor, priceToSqrtPriceX96, priceToTick, Q96.
    cbn [Math_pow Math_log Math_floor default set_liquidityTicks liquidityTicks
         feeTier Simulation.initialPrice currentPrice currentSqrtPriceX96 currentTick
         swapSteps app].
    vm_compute. rewrite Hpow96, Hlog1, Hfloor. reflexivity. }
  clearbody this. subst this.
  split; [vm_compute; reflexivity |]. split; [vm_compute; reflexivity |].
  unfold loopBody.
  vm_compute. rewrite Hpow10. vm_compute. rewrite !Hpow96. vm_compute.
  do 3 eexists. repeat split.
Qed.

End SwapLoopRounding.

(** C5 as stated fails in three ways.  In binary64 the remaining input
    need not decrease: in the pool at price 1 with the fee 0.3% and one
    stored tick, at index -10 with liquidity 5, the first pass of a swap
    of one unit crosses the tick with the input [3.17e-50] and leaves one
    unit to swap, with a [Math] library that returns [2^96] for
    [pow (2, 96)], 0 for [log 1] and for [floor 0], and the correctly
    rounded [pow (1.0001, -10)].  In exact arithmetic it need not decrease
    from a pool state that is not consistent: in the same pool with the
    fee rate 2 the pass that crosses the tick leaves at least one unit.
    And a pass that finds no active liquidity, as in a fresh pool, which
    has no ticks, returns at once; the simulator and its (empty) list of
    steps are as before and no input has been consumed. *)
Lemma swap_loop_pass_without_progress :
  (exists M : MathLib binary64,
     @Math_pow binary64 M 2 96 = 0x1p+96 /\
     @Math_log binary64 M 1 = 0 /\
     @Math_floor binary64 M (0 / @Math_log binary64 M (lit_1_0001 (N:=binary64))) = 0 /\
     @Math_pow binary64 M (lit_1_0001 (N:=binary64)) (-10) = 0x1.ff7d0003fb9c6p-1 /\
     let this : @UniswapV3SwapSimulator binary64 :=
       addTick (constructor (N:=binary64) 1 None) (-10) 5 5 in
     let vars : @Locals binary64 := @Build_Locals binary64 1 0 0 in
     (0 <? remainingAmount vars) = true /\
     (0 <? getActiveLiquidity this) = true /\
     exists this' vars' recorded,
       loopBody this 1 1 true vars = Normal this' vars' /\
       swapSteps this' = [recorded] /\
       crossedTick recorded = true /\
       step_amountIn recorded = 0x1.7b007bd8377e1p-165 /\
       remainingAmount vars' = remainingAmount vars /\
       (remainingAmount vars' <? remainingAmount vars) = false)%float /\
  (let this : @UniswapV3SwapSimulator exact :=
     {| feeTier := 2;
        initialPrice := 1;
        currentPrice := 1;
        currentSqrtPriceX96 := priceToSqrtPriceX96 (N:=exact) 1;
        currentTick := priceToTick (N:=exact) 1;
        liquidityTicks :=
          [ {| index := IZR (-10); liquidityNet := 5; liquidityGross := 5 |} ];
        swapSteps := [] |} in
   let vars : @Locals exact :=
     {| remainingAmount := 1; totalAmountOut := 0; feeAmount := 0 |} in
   0 < remainingAmount vars /\
   0 < getActiveLiquidity this /\
   exists this' vars',
     loopBody this 1 1 true vars = Normal this' vars' /\
     ~ remainingAmount vars' < remainingAmount vars) /\
  (let this : @UniswapV3SwapSimulator exact := constructor (N:=exact) 1 None in
   let vars : @Locals exact :=
     {| remainingAmount := 1; totalAmountOut := 0; feeAmount := 0 |} in
   0 < remainingAmount vars /\
   swapSteps this = [] /\
   exists value,
     loopBody this 1 1 true vars = Return value this /\
     steps value = [] /\
     amountIn value = 0).
Proof.
  split; [| split].
  - exists (@Build_MathLib binary64
              (fun x => x)
              (fun x => if PrimFloat.eqb x 1 then 0 else 0x1.a368d0657fcd4p-14)%float
              (fun x y =>
                 if PrimFloat.eqb y 96 then 0x1p+96
                 else if PrimFloat.eqb y 2 then x * x
                 else 0x1.ff7d0003fb9c6p-1)%float).
    do 4 (split; [vm_compute; reflexivity |]).
    apply loopBody_crossing_absorbed; vm_compute; reflexivity.
  - exact loopBody_fee_above_1.
  - intros this vars. split; [cbn; lra |]. split; [reflexivity |].
    eexists. split.
    + apply loopBody_starved. cbn. lra.
    + split; [reflexivity |]. cbn. lra.
Qed.


(** * Further properties

    Of the functions of the two files that the properties above leave
    out, and more of those they cover. *)

(** ** Price and square-root price *)

Section SqrtPrice.

Lemma sqrtPriceX96ToPrice_exact (s : R) :
  sqrtPriceX96ToPrice (N:=exact) s = (s / powerRZ 2 96) * (s / powerRZ 2 96).
Proof.
  unfold sqrtPriceX96ToPrice. rewrite Q96_exact. exact_ops.
  rewrite Rpow_IZR. cbn [powerRZ]. unfold pow.
  change (Pos.to_nat 2) with 2%nat. cbn. ring.
Qed.

(** X1: over the real numbers, converting a price that is not negative
    to its square-root form and back gives the price again. *)
Theorem sqrtPrice_roundtrip (price : R) :
  0 <= price ->
  sqrtPriceX96ToPrice (N:=exact) (priceToSqrtPriceX96 (N:=exact) price) = price.
Proof.
  intros Hprice. rewrite sqrtPriceX96ToPrice_exact.
  unfold priceToSqrtPriceX96. rewrite Q96_exact. exact_ops.
  pose proof Q96_pos as Hq. rewrite Q96_exact in Hq.
  replace (R_sqrt.sqrt price * powerRZ 2 96 / powerRZ 2 96)
    with (R_sqrt.sqrt price) by (field; lra).
  apply sqrt_sqrt. exact Hprice.
Qed.

(** The round trip at the price 4. *)
Lemma sqrtPrice_roundtrip_witness :
  sqrtPriceX96ToPrice (N:=exact) (priceToSqrtPriceX96 (N:=exact) 4) = 4.
Proof. apply (sqrtPrice_roundtrip 4). lra. Defined.

(** X2: over the real numbers, converting a square-root price to a price
    and back gives its absolute value: the sign of a negative square-root
    price (which [computeSwapStep] can return) is lost. *)
Theorem sqrtPrice_of_price_loses_sign (sqrtPriceX96 : R) :
  priceToSqrtPriceX96 (N:=exact) (sqrtPriceX96ToPrice (N:=exact) sqrtPriceX96)
  = Rabs sqrtPriceX96.
Proof.
  rewrite sqrtPriceX96ToPrice_exact.
  unfold priceToSqrtPriceX96. rewrite Q96_exact. exact_ops.
  pose proof Q96_pos as Hq. rewrite Q96_exact in Hq.
  fold (Rsqr (sqrtPriceX96 / powerRZ 2 96)). rewrite sqrt_Rsqr_abs.
  unfold Rdiv. rewrite Rabs_mult, (Rabs_right (/ powerRZ 2 96)).
  - field. lra.
  - left. apply Rinv_0_lt_compat. exact Hq.
Qed.

End SqrtPrice.

(** ** The tick of a price *)

Section TickOfPrice.

(** X3: over the real numbers, [priceToTick] of a positive price is a
    whole tick, the price of that tick is at most the given price, and the
    price of the next tick is above it. *)
Theorem priceToTick_brackets_price (price : R) :
  0 < price ->
  exists z : Z,
    priceToTick (N:=exact) price = IZR z /\
    tickToPrice (N:=exact) (IZR z) <= price < tickToPrice (N:=exact) (IZR (z + 1)).
Proof.
  intros Hprice.
  exists (Int_part (ln price / ln (10001 / 10000))).
  split.
  { unfold priceToTick. exact_ops. rewrite lit_1_0001_exact. reflexivity. }
  rewrite !tickToPrice_whole, !powerRZ_Rpower by lra.
  pose proof ln_base_pos as Hbase.
  set (x := ln price / ln (10001 / 10000)).
  destruct (base_Int_part x) as [Hlow Hhigh].
  assert (Hx : x * ln (10001 / 10000) = ln price) by (unfold x; field; lra).
  assert (Hexp : price = exp (x * ln (10001 / 10000)))
    by (rewrite Hx; symmetry; apply exp_ln; exact Hprice).
  unfold Rpower. split.
  - rewrite Hexp at 1. destruct Hlow as [Hlt | Heq].
    + left. apply exp_increasing. apply Rmult_lt_compat_r; assumption.
    + right. rewrite Heq. reflexivity.
  - rewrite Hexp at 1. apply exp_increasing.
    apply Rmult_lt_compat_r; [assumption |].
    rewrite plus_IZR. lra.
Qed.

(** The tick of the price 2000. *)
Lemma priceToTick_brackets_price_witness :
  exists z : Z,
    priceToTick (N:=exact) 2000 = IZR z /\
    tickToPrice (N:=exact) (IZR z) <= 2000 < tickToPrice (N:=exact) (IZR (z + 1)).
Proof. apply (priceToTick_brackets_price 2000). lra. Defined.

End TickOfPrice.

(** ** Amounts for a liquidity *)

Section AmountsForLiquidity.

Lemma getAmountsForLiquidity_regimes_exact (p A B liquidity : R) :
  let lo := Rmin A B in
  let hi := Rmax A B in
  let amounts := getAmountsForLiquidity (N:=exact) p A B liquidity in
  amounts = getAmountsForLiquidity (N:=exact) p B A liquidity /\
  (p <= lo ->
   amounts = @Build_Amounts exact (liquidity * (hi - lo) / (lo * hi)) 0) /\
  (lo < p < hi ->
   amounts =
   @Build_Amounts exact (liquidity * (hi - p) / (p * hi)) (liquidity * (p - lo))) /\
  (hi <= p -> lo < p ->
   amounts = @Build_Amounts exact 0 (liquidity * (hi - lo))).
Proof.
  cbv zeta.
  unfold getAmountsForLiquidity, calculateAmount0, calculateAmount1.
  exact_ops.
  case_Rltb B A.
  - rewrite (Rmin_right A B), (Rmax_left A B) in * by lra.
    case_Rltb A B; [lra |].
    split; [reflexivity |].
    case_Rleb p B; [| case_Rltb p A]; repeat split; intros; try reflexivity; lra.
  - rewrite (Rmin_left A B), (Rmax_right A B) in * by lra.
    split.
    + case_Rltb A B; [reflexivity |].
      assert (A = B) by lra. subst B. reflexivity.
    + case_Rleb p A; [| case_Rltb p B]; repeat split; intros; try reflexivity; lra.
Qed.

Lemma getAmountsForLiquidity_regimes_binary64 (p A B liquidity : float) :
  (let lo := if B <? A then B else A in
   let hi := if B <? A then A else B in
   let amounts := getAmountsForLiquidity (N:=binary64) p A B liquidity in
   ((A <? B) = true \/ (B <? A) = true ->
    amounts = getAmountsForLiquidity (N:=binary64) p B A liquidity) /\
   ((p <=? lo) = true ->
    amounts = @Build_Amounts binary64 (liquidity * (hi - lo) / (lo * hi)) 0) /\
   ((lo <? p) = true -> (p <? hi) = true ->
    amounts =
    @Build_Amounts binary64 (liquidity * (hi - p) / (p * hi)) (liquidity * (p - lo))) /\
   ((hi <=? p) = true -> (lo <? p) = true ->
    amounts = @Build_Amounts binary64 0 (liquidity * (hi - lo))))%float.
Proof.
  cbv zeta.
  unfold getAmountsForLiquidity, calculateAmount0, calculateAmount1.
  change (@lt binary64) with PrimFloat.ltb. change (@le binary64) with PrimFloat.leb.
  change (@mul binary64) with PrimFloat.mul. change (@div binary64) with PrimFloat.div.
  change (@sub binary64) with PrimFloat.sub.
  change (@of_Z binary64 0) with 0%float.
  destruct (PrimFloat.ltb B A) eqn:Hswap.
  - rewrite (float_ltb_asym B A Hswap).
    split; [intros _; reflexivity |].
    split; [intros ->; reflexivity |].
    split.
    + intros Hlow Hhigh. rewrite (float_ltb_not_leb _ _ Hlow), Hhigh. reflexivity.
    + intros Hhigh Hlow.
      rewrite (float_ltb_not_leb _ _ Hlow), (float_leb_not_ltb _ _ Hhigh).
      reflexivity.
  - split.
    + intros [Hlt | Hlt]; [rewrite Hlt; reflexivity | congruence].
    + split; [intros ->; reflexivity |].
      split.
      * intros Hlow Hhigh. rewrite (float_ltb_not_leb _ _ Hlow), Hhigh. reflexivity.
      * intros Hhigh Hlow.
        rewrite (float_ltb_not_leb _ _ Hlow), (float_leb_not_ltb _ _ Hhigh).
        reflexivity.
Qed.

(** X4: [getAmountsForLiquidity] takes the two bounds in either order
    and works with the smaller as [lo] and the larger as [hi].  At or
    below [lo] it returns [amount0 = liquidity * (hi - lo) / (lo * hi)]
    and [amount1 = 0]; strictly inside it returns
    [amount0 = liquidity * (hi - p) / (p * hi)] and
    [amount1 = liquidity * (p - lo)]; at or above [hi], and above [lo],
    it returns [amount0 = 0] and [amount1 = liquidity * (hi - lo)].  This
    holds over the real numbers and, operation for operation, in binary64
    (where two bounds can be given in either order if one is below the
    other). *)
Theorem getAmountsForLiquidity_regimes :
  (forall p A B liquidity : R,
   let lo := Rmin A B in
   let hi := Rmax A B in
   let amounts := getAmountsForLiquidity (N:=exact) p A B liquidity in
   amounts = getAmountsForLiquidity (N:=exact) p B A liquidity /\
   (p <= lo ->
    amounts = @Build_Amounts exact (liquidity * (hi - lo) / (lo * hi)) 0) /\
   (lo < p < hi ->
    amounts =
    @Build_Amounts exact (liquidity * (hi - p) / (p * hi)) (liquidity * (p - lo))) /\
   (hi <= p -> lo < p ->
    amounts = @Build_Amounts exact 0 (liquidity * (hi - lo)))) /\
  (forall p A B liquidity : float,
   let lo := if B <? A then B else A in
   let hi := if B <? A then A else B in
   let amounts := getAmountsForLiquidity (N:=binary64) p A B liquidity in
   ((A <? B) = true \/ (B <? A) = true ->
    amounts = getAmountsForLiquidity (N:=binary64) p B A liquidity) /\
   ((p <=? lo) = true ->
    amounts = @Build_Amounts binary64 (liquidity * (hi - lo) / (lo * hi)) 0) /\
   ((lo <? p) = true -> (p <? hi) = true ->
    amounts =
    @Build_Amounts binary64 (liquidity * (hi - p) / (p * hi)) (liquidity * (p - lo))) /\
   ((hi <=? p) = true -> (lo <? p) = true ->
    amounts = @Build_Amounts binary64 0 (liquidity * (hi - lo))))%float.
Proof.
  split.
  - exact getAmountsForLiquidity_regimes_exact.
  - exact getAmountsForLiquidity_regimes_binary64.
Qed.

(** X5: over the real numbers, the liquidity of the amounts of a
    liquidity is that liquidity, wherever the price lies, for two
    different bounds, the bounds and the price not being 0. *)
Theorem liquidity_of_amounts_of_liquidity (p A B liquidity : R) :
  A <> B -> A <> 0 -> B <> 0 -> p <> 0 ->
  let amounts := getAmountsForLiquidity (N:=exact) p A B liquidity in
  getLiquidityForAmounts (N:=exact) p A B (amount0 amounts) (amount1 amounts)
  = liquidity.
Proof.
  intros HAB HA HB Hp. cbv zeta.
  set (lo := Rmin A B). set (hi := Rmax A B).
  assert (Hlohi : lo < hi).
  { unfold lo, hi. destruct (Rle_dec A B).
    - rewrite Rmin_left, Rmax_right by lra. lra.
    - rewrite Rmin_right, Rmax_left by lra. lra. }
  assert (Hlo : lo <> 0).
  { unfold lo. destruct (Rle_dec A B);
      [rewrite Rmin_left by lra | rewrite Rmin_right by lra]; assumption. }
  assert (Hhi : hi <> 0).
  { unfold hi. destruct (Rle_dec A B);
      [rewrite Rmax_right by lra | rewrite Rmax_left by lra]; assumption. }
  destruct (getAmountsForLiquidity_regimes_exact p A B liquidity)
    as (_ & Hbelow & Hinside & Habove).
  destruct (getLiquidityForAmounts_regimes_exact p A B
              (amount0 (getAmountsForLiquidity (N:=exact) p A B liquidity))
              (amount1 (getAmountsForLiquidity (N:=exact) p A B liquidity)))
    as (_ & _ & Lbelow & Labove & Linside).
  fold lo hi in Hbelow, Hinside, Habove, Lbelow, Labove, Linside.
  destruct (Rle_dec p lo) as [Hle | Hgt].
  - rewrite (Lbelow Hle), (Hbelow Hle). cbn. field. lra.
  - destruct (Rlt_dec p hi) as [Hlt | Hge].
    + assert (Hin : lo < p < hi) by lra.
      rewrite (Linside Hin), (Hinside Hin). cbn.
      replace (liquidity * (hi - p) / (p * hi) * p * hi / (hi - p)) with liquidity
        by (field; lra).
      replace (liquidity * (p - lo) / (p - lo)) with liquidity by (field; lra).
      apply Rmin_left. lra.
    + assert (Hhigh : hi <= p) by lra. assert (Hlow : lo < p) by lra.
      rewrite (Labove Hhigh Hlow), (Habove Hhigh Hlow). cbn. field. lra.
Qed.

(** The liquidity 7 at the price 2 in the range [1, 4]. *)
Lemma liquidity_of_amounts_of_liquidity_witness :
  getLiquidityForAmounts (N:=exact) 2 1 4
    (amount0 (getAmountsForLiquidity (N:=exact) 2 1 4 7))
    (amount1 (getAmountsForLiquidity (N:=exact) 2 1 4 7))
  = 7.
Proof. apply (liquidity_of_amounts_of_liquidity 2 1 4 7); lra. Defined.

(** X6: over the real numbers, for a price strictly inside the range
    (the price and the upper bound not being 0), sizing a liquidity from
    two amounts and converting it back returns one of the two amounts
    unchanged: one of the tokens is used up. *)
Theorem roundtrip_uses_up_one_token (p A B a0 a1 : R) :
  Rmin A B < p < Rmax A B -> p <> 0 -> Rmax A B <> 0 ->
  let liquidity := getLiquidityForAmounts (N:=exact) p A B a0 a1 in
  let amounts := getAmountsForLiquidity (N:=exact) p A B liquidity in
  amount0 amounts = a0 \/ amount1 amounts = a1.
Proof.
  intros Hin Hp Hhi. cbv zeta.
  rewrite (getLiquidityForAmounts_inside p A B a0 a1 Hin).
  rewrite (getAmountsForLiquidity_inside p A B _ Hin). cbn.
  set (lo := Rmin A B) in *. set (hi := Rmax A B) in *.
  set (L0 := a0 * p * hi / (hi - p)). set (L1 := a1 / (p - lo)).
  destruct (Rle_dec L0 L1) as [Hle | Hgt].
  - left. rewrite (Rmin_left L0 L1 Hle). unfold L0. field. lra.
  - right. rewrite (Rmin_right L0 L1) by lra. unfold L1. field. lra.
Qed.

(** The amounts 3 and 5 at the price 2 in the range [1, 4]. *)
Lemma roundtrip_uses_up_one_token_witness :
  amount0 (getAmountsForLiquidity (N:=exact) 2 1 4
             (getLiquidityForAmounts (N:=exact) 2 1 4 3 5)) = 3 \/
  amount1 (getAmountsForLiquidity (N:=exact) 2 1 4
             (getLiquidityForAmounts (N:=exact) 2 1 4 3 5)) = 5.
Proof.
  assert (Hmin : Rmin 1 4 = 1) by (apply Rmin_left; lra).
  assert (Hmax : Rmax 1 4 = 4) by (apply Rmax_right; lra).
  apply (roundtrip_uses_up_one_token 2 1 4 3 5); rewrite ?Hmin, ?Hmax; lra.
Defined.

End AmountsForLiquidity.

(** ** The output of a swap step *)

Section AbsorbedStep.
Local Open Scope float_scope.

Lemma finite_nonnegative_cases (a : float) :
  finite_nonnegative a = true ->
  (exists s, Prim2SF a = S754_zero s) \/
  (exists m e, Prim2SF a = S754_finite false m e).
Proof.
  unfold finite_nonnegative. intros H. apply andb_prop in H. destruct H as [H0 Hinf].
  apply float_nonnegative_finite; assumption.
Qed.

(** The numbers equal to 0 are the two zeros. *)
Lemma float_is_zero (a : float) :
  (a =? 0) = true <-> exists s, Prim2SF a = S754_zero s.
Proof.
  rewrite FloatAxioms.eqb_spec. change (Prim2SF 0) with (S754_zero false).
  split.
  - destruct (Prim2SF a) as [s | s | | s m e]; cbn; try discriminate.
    + intros _. exists s. reflexivity.
    + destruct s; discriminate.
    + destruct s; discriminate.
  - intros [s ->]. reflexivity.
Qed.

(** A finite number that is not negative, times a zero, is a zero. *)
Lemma float_mul_zero (a z : float) :
  finite_nonnegative a = true -> (z =? 0) = true -> (a * z =? 0) = true.
Proof.
  intros Ha Hz. apply float_is_zero in Hz. destruct Hz as [sz Hz].
  apply float_is_zero. rewrite FloatAxioms.mul_spec, Hz.
  destruct (finite_nonnegative_cases a Ha) as [[s ->] | (m & e & ->)]; cbn; eauto.
Qed.

Lemma float_zero_mul (z b : float) :
  (z =? 0) = true -> finite_nonnegative b = true -> (z * b =? 0) = true.
Proof.
  intros Hz Hb. apply float_is_zero in Hz. destruct Hz as [sz Hz].
  apply float_is_zero. rewrite FloatAxioms.mul_spec, Hz.
  destruct (finite_nonnegative_cases b Hb) as [[s ->] | (m & e & ->)]; cbn; eauto.
Qed.

Lemma float_sub_diag_zero (a : float) :
  finite_nonnegative a = true -> (a - a =? 0) = true.
Proof.
  unfold finite_nonnegative. intros H. apply andb_prop in H. destruct H as [H0 Hinf].
  rewrite (float_sub_diag a H0 Hinf). reflexivity.
Qed.

(** A zero stays a zero when the scale factor [1e18] is taken out. *)
Lemma float_zero_scaled (z : float) :
  (z =? 0) = true -> (z / SCALE_FACTOR (N:=binary64) =? 0) = true.
Proof.
  intros Hz. apply float_is_zero in Hz. destruct Hz as [sz Hz].
  apply float_is_zero. rewrite FloatAxioms.div_spec, Hz.
  exists sz. destruct sz; reflexivity.
Qed.

(** The total [0 + out / 1e18] of a zero output is [0]. *)
Lemma float_total_of_zero (z : float) :
  (z =? 0) = true -> 0 + z / SCALE_FACTOR (N:=binary64) = 0.
Proof.
  intros Hz. apply float_is_zero in Hz. destruct Hz as [sz Hz].
  apply Prim2SF_inj. rewrite FloatAxioms.add_spec, FloatAxioms.div_spec, Hz.
  destruct sz; reflexivity.
Qed.

(** The outputs of the closed formulas when the new square-root price is
    the old one. *)
Lemma absorbed_difference (liquidity sqrtPriceX96 : float) :
  finite_nonnegative liquidity = true ->
  finite_nonnegative sqrtPriceX96 = true ->
  (liquidity * (sqrtPriceX96 - sqrtPriceX96) =? 0) = true.
Proof.
  intros Hliquidity Hprice.
  apply float_mul_zero; [exact Hliquidity |].
  apply float_sub_diag_zero, Hprice.
Qed.

Lemma absorbed_inverse_difference (liquidity sqrtPriceX96 : float) :
  finite_nonnegative liquidity = true ->
  finite_nonnegative (1 / sqrtPriceX96) = true ->
  finite_nonnegative (sqrtPriceX96 * sqrtPriceX96) = true ->
  (liquidity * (1 / sqrtPriceX96 - 1 / sqrtPriceX96) * (sqrtPriceX96 * sqrtPriceX96)
   =? 0) = true.
Proof.
  intros Hliquidity Hinverse Hsquare.
  apply float_zero_mul; [| exact Hsquare].
  apply float_mul_zero; [exact Hliquidity |].
  apply float_sub_diag_zero, Hinverse.
Qed.

(** X7: in binary64, whatever the [Math] library, when [computeSwapStep]
    on an input of at least [1e-10] returns the square-root price it was
    given, the change having been lost where the new price was rounded,
    the output it returns is a zero: the input buys nothing.  The
    liquidity, the square-root price, its inverse and its square are
    taken finite and not negative. *)
Theorem computeSwapStep_absorbed_input (M : MathLib binary64)
    (amountIn sqrtPriceX96 liquidity feeTier : float) (zeroForOne : bool) :
  (amountIn <? lit_1e_10 (N:=binary64)) = false ->
  finite_nonnegative liquidity = true ->
  finite_nonnegative sqrtPriceX96 = true ->
  finite_nonnegative (1 / sqrtPriceX96) = true ->
  finite_nonnegative (sqrtPriceX96 * sqrtPriceX96) = true ->
  newSqrtPriceX96
    (computeSwapStep (N:=binary64) amountIn sqrtPriceX96 liquidity feeTier zeroForOne)
  = sqrtPriceX96 ->
  (Calculations.amountOut
     (computeSwapStep (N:=binary64) amountIn sqrtPriceX96 liquidity feeTier zeroForOne)
   =? 0) = true.
Proof.
  intros Hlarge Hliquidity Hprice Hinverse Hsquare.
  rewrite (computeSwapStep_large_amount_binary64 M) by exact Hlarge.
  cbv zeta. destruct zeroForOne; cbn [newSqrtPriceX96 Calculations.amountOut];
    intros ->.
  - apply absorbed_difference; assumption.
  - apply absorbed_inverse_difference; assumption.
Qed.

(** An input of [1e14] of token1, which is [0.0001] scaled by [1e18], at
    the square-root price of the price 2000, against the liquidity 175000
    with the fee 0.3%: the change of the price, [5.7e8], is below half a
    unit in the last place of [3.5e30]. *)
Lemma computeSwapStep_absorbed_input_witness :
  ~ (exists M : MathLib binary64,
       (Calculations.amountOut
          (computeSwapStep (N:=binary64) 100000000000000
             (sqrt 2000 * 0x1p+96) 175000 (MEDIUM (FEE_TIERS (N:=binary64))) false)
        =? 0) = false).
Proof.
  intros [M H].
  rewrite (computeSwapStep_absorbed_input M) in H; try reflexivity.
  discriminate H.
Defined.

End AbsorbedStep.

Section SwapStepOutput.

(** X8: over the real numbers, for a positive input, a positive
    liquidity, a positive square-root price and a fee below 100%,
    [computeSwapStep] lowers the square-root price when token0 is swapped
    for token1 and raises it otherwise, in both of its branches. *)
Theorem computeSwapStep_moves_price (amountIn sqrtPrice liquidity feeTier : R)
    (zeroForOne : bool) :
  0 < amountIn -> 0 < sqrtPrice -> 0 < liquidity -> feeTier < 1 ->
  let after :=
    newSqrtPriceX96
      (computeSwapStep (N:=exact) amountIn sqrtPrice liquidity feeTier zeroForOne) in
  if zeroForOne then after < sqrtPrice else sqrtPrice < after.
Proof.
  intros Hamount Hprice Hliquidity Hfee. cbv zeta.
  assert (Hnet : 0 < amountInNet amountIn feeTier)
    by (unfold amountInNet; apply Rmult_lt_0_compat; lra).
  assert (Hinv : 0 < / liquidity) by (apply Rinv_0_lt_compat; assumption).
  destruct (Rlt_dec amountIn (1 / 10000000000)) as [Hsmall | Hlarge].
  - rewrite computeSwapStep_small_amount by assumption.
    assert (Hratio : 0 < amountIn / (liquidity * 1000)).
    { apply Rdiv_lt_0_compat; [assumption | lra]. }
    destruct zeroForOne; cbn; nra.
  - rewrite computeSwapStep_large_amount by lra.
    destruct zeroForOne; cbn.
    + assert (0 < amountInNet amountIn feeTier * sqrtPrice / liquidity).
      { apply Rdiv_lt_0_compat; [apply Rmult_lt_0_compat |]; assumption. }
      lra.
    + assert (0 < amountInNet amountIn feeTier / liquidity)
        by (apply Rdiv_lt_0_compat; assumption).
      lra.
Qed.

(** A swap of 2 units of token0 against liquidity 4 at square-root price
    3 without fee. *)
Lemma computeSwapStep_moves_price_witness :
  newSqrtPriceX96 (computeSwapStep (N:=exact) 2 3 4 0 true) < 3.
Proof. apply (computeSwapStep_moves_price 2 3 4 0 true); lra. Defined.

End SwapStepOutput.

(** ** Price impact and fees *)

Section PriceImpactAndFees.

Lemma binary_round_aux_not_negative (mx ex : Z) (lx : SpecFloat.location) :
  SFltb (binary_round_aux prec emax false mx ex lx) (S754_zero false) = false.
Proof.
  unfold binary_round_aux.
  destruct (shr_fexp prec emax mx ex lx) as [mrs' e'].
  destruct (shr_fexp prec emax _ e' SpecFloat.loc_Exact) as [mrs'' e''].
  destruct (shr_m mrs'') as [| m | m]; [reflexivity | | reflexivity].
  destruct (e'' <=? emax - prec)%Z; reflexivity.
Qed.

Lemma float_abs_times_100_not_negative (x : float) :
  PrimFloat.ltb (PrimFloat.mul (PrimFloat.abs x) (float_of_Z 100)) PrimFloat.zero
  = false.
Proof.
  rewrite FloatAxioms.ltb_spec, FloatAxioms.mul_spec, FloatAxioms.abs_spec.
  change (Prim2SF (float_of_Z 100)) with (S754_finite false 7036874417766400 (-46)).
  change (Prim2SF PrimFloat.zero) with (S754_zero false).
  destruct (Prim2SF x) as [s | s | | s m e]; try reflexivity.
  cbn [SFabs SF64mul SFmul xorb]. apply binary_round_aux_not_negative.
Qed.

(** X9: [calculatePriceImpact] never returns a negative number, whatever
    its arguments and in either direction: over the real numbers the
    result is at least 0, and in binary64 the test [result < 0] is false
    (the result can be [NaN]). *)
Theorem calculatePriceImpact_not_negative :
  (forall (amountIn amountOut spotPrice : R) (zeroForOne : bool),
   0 <= calculatePriceImpact (N:=exact) amountIn amountOut spotPrice zeroForOne) /\
  (forall (amountIn amountOut spotPrice : float) (zeroForOne : bool),
   PrimFloat.ltb
     (calculatePriceImpact (N:=binary64) amountIn amountOut spotPrice zeroForOne)
     PrimFloat.zero = false).
Proof.
  split; intros; unfold calculatePriceImpact.
  - exact_ops. apply Rmult_le_pos; [apply Rabs_pos | lra].
  - apply float_abs_times_100_not_negative.
Qed.

(** X10: over the real numbers, the fees that [calculateFees] gives to
    positions which together hold all the liquidity of the pool (not 0)
    add up to the volume times the fee rate. *)
Theorem calculateFees_shares_add_up (positions : list R) (volumeUSD feeTier : R) :
  let totalLiquidity := fold_right Rplus 0 positions in
  totalLiquidity <> 0 ->
  feesOfPositions positions volumeUSD totalLiquidity feeTier = volumeUSD * feeTier.
Proof.
  cbv zeta. intros Htotal.
  assert (Hsum : forall l total,
            feesOfPositions l volumeUSD total feeTier
            = fold_right Rplus 0 l / total * volumeUSD * feeTier).
  { induction l as [| x l IH]; intros total; cbn [feesOfPositions fold_right].
    - unfold Rdiv. ring.
    - rewrite IH. unfold calculateFees. exact_ops. unfold Rdiv. ring. }
  rewrite Hsum. field. exact Htotal.
Qed.

(** Two positions of liquidity 1 and 3, a volume of 1000 and the fee
    0.003. *)
Lemma calculateFees_shares_add_up_witness :
  feesOfPositions [1; 3] 1000 (fold_right Rplus 0 [1; 3]) (3 / 1000)
  = 1000 * (3 / 1000).
Proof. apply (calculateFees_shares_add_up [1; 3] 1000 (3 / 1000)). cbn. lra. Defined.

End PriceImpactAndFees.

(** ** simulateSwap *)

Section NotANumberLaws.
Local Open Scope float_scope.

Ltac NaN_by spec :=
  intros; apply Prim2SF_inj; rewrite spec;
  change (Prim2SF nan) with S754_nan;
  match goal with |- context [Prim2SF ?x] => destruct (Prim2SF x) end;
  reflexivity.

Lemma float_add_NaN (x : float) : x + nan = nan.
Proof. NaN_by FloatAxioms.add_spec. Qed.

Lemma float_sub_NaN (x : float) : x - nan = nan.
Proof. NaN_by FloatAxioms.sub_spec. Qed.

Lemma float_NaN_mul (x : float) : nan * x = nan.
Proof. NaN_by FloatAxioms.mul_spec. Qed.

Lemma float_mul_NaN (x : float) : x * nan = nan.
Proof. NaN_by FloatAxioms.mul_spec. Qed.

Lemma float_NaN_div (x : float) : nan / x = nan.
Proof. NaN_by FloatAxioms.div_spec. Qed.

Lemma float_NaN_ltb (x : float) : (nan <? x) = false.
Proof. rewrite FloatAxioms.ltb_spec. reflexivity. Qed.

Lemma float_NaN_leb (x : float) : (nan <=? x) = false.
Proof. rewrite FloatAxioms.leb_spec. reflexivity. Qed.

Lemma float_leb_NaN (x : float) : (x <=? nan) = false.
Proof.
  rewrite FloatAxioms.leb_spec. change (Prim2SF nan) with S754_nan.
  destruct (Prim2SF x); reflexivity.
Qed.

End NotANumberLaws.

Section SimulateSwapProperties.
Import SimulateSwap.

(** A swap step on [NaN] returns [NaN] twice. *)
Lemma computeSwapStep_NaN (M : MathLib binary64)
    (sqrtPrice liquidity feeTier : float) (zeroForOne : bool) :
  computeSwapStep (N:=binary64) PrimFloat.nan sqrtPrice liquidity feeTier zeroForOne
  = @Build_SwapStep binary64 PrimFloat.nan PrimFloat.nan.
Proof.
  rewrite computeSwapStep_large_amount_binary64 by apply float_NaN_ltb.
  cbv zeta.
  destruct zeroForOne;
    repeat first
      [ rewrite float_NaN_mul | rewrite float_mul_NaN | rewrite float_NaN_div
      | rewrite float_sub_NaN | rewrite float_add_NaN ];
    reflexivity.
Qed.

(** X11: with fewer than two ticks [simulateSwap] swaps nothing: it
    returns the output 0 and the current tick, whatever the amount, and
    whatever liquidity the one tick carries.  This holds in every reading
    of the numbers. *)
Theorem simulateSwap_needs_two_ticks (N : Number) (M : MathLib N) (U : NotANumber N)
    (amountIn currentTick feeTier : num) (zeroForOne : bool) :
  simulateSwap amountIn [] currentTick feeTier zeroForOne
  = {| amountOut := of_Z 0; newTick := currentTick |} /\
  forall t : TickData,
    simulateSwap amountIn [t] currentTick feeTier zeroForOne
    = {| amountOut := of_Z 0; newTick := currentTick |}.
Proof. split; reflexivity. Qed.

(** X12: in binary64, whatever the [Math] library, when the sorted ticks
    are at least three and the first two are not skipped: if the first
    swap step does not reach the second tick, [simulateSwap] returns the
    output of that step and the tick of its price; if it does, the
    remaining amount becomes [NaN] (the step has no property [amountIn]),
    the second step runs on [NaN], and [simulateSwap] returns the output
    [NaN]. *)
Theorem simulateSwap_after_crossing (M : MathLib binary64)
    (amountIn currentTick feeTier : float) (zeroForOne : bool)
    (ticks : list (TickData (N:=binary64)))
    (first second third : TickData (N:=binary64))
    (rest : list (TickData (N:=binary64))) :
  JSArray.sort (byDirection zeroForOne) ticks = first :: second :: third :: rest ->
  skipped (N:=binary64) currentTick zeroForOne first = false ->
  skipped (N:=binary64) currentTick zeroForOne second = false ->
  let sqrtPrice :=
    PrimFloat.mul (PrimFloat.sqrt (tickToPrice (N:=binary64) currentTick))
      (Q96 (N:=binary64)) in
  let step :=
    computeSwapStep (N:=binary64) amountIn sqrtPrice (liquidityNet first)
      feeTier zeroForOne in
  let nextTickPrice :=
    PrimFloat.mul (PrimFloat.sqrt (tickToPrice (N:=binary64) (index second)))
      (Q96 (N:=binary64)) in
  let crossedNextTick :=
    if zeroForOne
    then PrimFloat.leb (newSqrtPriceX96 step) nextTickPrice
    else PrimFloat.leb nextTickPrice (newSqrtPriceX96 step) in
  simulateSwap (N:=binary64) amountIn ticks currentTick feeTier zeroForOne =
  if crossedNextTick then
    @Build_Simulated binary64 PrimFloat.nan
      (priceToTick (N:=binary64) (sqrtPriceX96ToPrice (N:=binary64) PrimFloat.nan))
  else
    @Build_Simulated binary64
      (PrimFloat.add PrimFloat.zero (Calculations.amountOut step))
      (priceToTick (N:=binary64)
         (sqrtPriceX96ToPrice (N:=binary64) (newSqrtPriceX96 step))).
Proof.
  intros Hsorted Hfirst Hsecond. cbv zeta.
  unfold simulateSwap. rewrite Hsorted.
  unfold skipped in Hfirst, Hsecond.
  cbn [forLoop remainingAmount currentSqrtPrice totalAmountOut var_newTick].
  change (@lt binary64) with PrimFloat.ltb in *.
  change (@le binary64) with PrimFloat.leb in *.
  change (@add binary64) with PrimFloat.add in *.
  change (@sub binary64) with PrimFloat.sub in *.
  change (@mul binary64) with PrimFloat.mul in *.
  change (@Math_sqrt binary64) with PrimFloat.sqrt in *.
  change (@of_Z binary64 0) with PrimFloat.zero in *.
  change (@NaN binary64 binary64_NaN) with PrimFloat.nan.
  destruct zeroForOne; cbn [andb negb]; rewrite Hfirst, Hsecond.
  - destruct (PrimFloat.leb _ _); [| reflexivity].
    rewrite float_sub_NaN, computeSwapStep_NaN.
    cbn [newSqrtPriceX96 Calculations.amountOut].
    rewrite float_NaN_leb, float_add_NaN. reflexivity.
  - destruct (PrimFloat.leb _ _); [| reflexivity].
    rewrite float_sub_NaN, computeSwapStep_NaN.
    cbn [newSqrtPriceX96 Calculations.amountOut].
    rewrite float_leb_NaN, float_add_NaN. reflexivity.
Qed.

(** Three ticks at 20, 0 and 10, given out of order, and a swap of one
    unit of token0 from the tick 30: no [Math] library makes the result
    differ from the two cases. *)
Lemma simulateSwap_after_crossing_witness :
  ~ (exists M : MathLib binary64,
       let ticks : list (TickData (N:=binary64)) :=
         [ @Build_TickData binary64 20%float 7%float;
           @Build_TickData binary64 0%float 5%float;
           @Build_TickData binary64 10%float 3%float ] in
       let sqrtPrice :=
         PrimFloat.mul (PrimFloat.sqrt (tickToPrice (N:=binary64) 30%float))
           (Q96 (N:=binary64)) in
       let step :=
         computeSwapStep (N:=binary64) 1%float sqrtPrice 5%float 0%float true in
       let nextTickPrice :=
         PrimFloat.mul (PrimFloat.sqrt (tickToPrice (N:=binary64) 10%float))
           (Q96 (N:=binary64)) in
       simulateSwap (N:=binary64) 1%float ticks 30%float 0%float true <>
       if PrimFloat.leb (newSqrtPriceX96 step) nextTickPrice then
         @Build_Simulated binary64 PrimFloat.nan
           (priceToTick (N:=binary64)
              (sqrtPriceX96ToPrice (N:=binary64) PrimFloat.nan))
       else
         @Build_Simulated binary64
           (PrimFloat.add PrimFloat.zero (Calculations.amountOut step))
           (priceToTick (N:=binary64)
              (sqrtPriceX96ToPrice (N:=binary64) (newSqrtPriceX96 step)))).
Proof.
  intros [M H]. apply H.
  apply (simulateSwap_after_crossing M 1%float 30%float 0%float true _
           (@Build_TickData binary64 0%float 5%float)
           (@Build_TickData binary64 10%float 3%float)
           (@Build_TickData binary64 20%float 7%float) []);
    reflexivity.
Defined.

(** X13: in binary64, whatever the [Math] library, when the sorted ticks
    are two and the first is not skipped, [simulateSwap] returns the
    output of one swap step on the whole amount against the liquidity of
    the first tick, whether or not that step reaches the second tick:
    reaching it changes the tick that is returned (the second tick
    instead of the tick of the step's price), not the output. *)
Theorem simulateSwap_on_two_ticks (M : MathLib binary64)
    (amountIn currentTick feeTier : float) (zeroForOne : bool)
    (ticks : list (TickData (N:=binary64)))
    (first second : TickData (N:=binary64)) :
  JSArray.sort (byDirection zeroForOne) ticks = [first; second] ->
  skipped (N:=binary64) currentTick zeroForOne first = false ->
  let sqrtPrice :=
    PrimFloat.mul (PrimFloat.sqrt (tickToPrice (N:=binary64) currentTick))
      (Q96 (N:=binary64)) in
  let step :=
    computeSwapStep (N:=binary64) amountIn sqrtPrice (liquidityNet first)
      feeTier zeroForOne in
  let nextTickPrice :=
    PrimFloat.mul (PrimFloat.sqrt (tickToPrice (N:=binary64) (index second)))
      (Q96 (N:=binary64)) in
  let crossedNextTick :=
    if zeroForOne
    then PrimFloat.leb (newSqrtPriceX96 step) nextTickPrice
    else PrimFloat.leb nextTickPrice (newSqrtPriceX96 step) in
  simulateSwap (N:=binary64) amountIn ticks currentTick feeTier zeroForOne =
  @Build_Simulated binary64
    (PrimFloat.add PrimFloat.zero (Calculations.amountOut step))
    (if crossedNextTick
     then index second
     else priceToTick (N:=binary64)
            (sqrtPriceX96ToPrice (N:=binary64) (newSqrtPriceX96 step))).
Proof.
  intros Hsorted Hfirst. cbv zeta.
  unfold simulateSwap. rewrite Hsorted.
  unfold skipped in Hfirst.
  cbn [forLoop remainingAmount currentSqrtPrice totalAmountOut var_newTick].
  change (@lt binary64) with PrimFloat.ltb in *.
  change (@le binary64) with PrimFloat.leb in *.
  change (@add binary64) with PrimFloat.add in *.
  change (@mul binary64) with PrimFloat.mul in *.
  change (@Math_sqrt binary64) with PrimFloat.sqrt in *.
  change (@of_Z binary64 0) with PrimFloat.zero in *.
  destruct zeroForOne; cbn [andb negb]; rewrite Hfirst;
    destruct (PrimFloat.leb _ _); reflexivity.
Qed.

(** Two ticks at 10 and 0, given out of order, and a swap of one unit of
    token0 from the tick 30. *)
Lemma simulateSwap_on_two_ticks_witness :
  ~ (exists M : MathLib binary64,
       let ticks : list (TickData (N:=binary64)) :=
         [ @Build_TickData binary64 10%float 3%float;
           @Build_TickData binary64 0%float 5%float ] in
       let sqrtPrice :=
         PrimFloat.mul (PrimFloat.sqrt (tickToPrice (N:=binary64) 30%float))
           (Q96 (N:=binary64)) in
       let step :=
         computeSwapStep (N:=binary64) 1%float sqrtPrice 5%float 0%float true in
       let nextTickPrice :=
         PrimFloat.mul (PrimFloat.sqrt (tickToPrice (N:=binary64) 10%float))
           (Q96 (N:=binary64)) in
       simulateSwap (N:=binary64) 1%float ticks 30%float 0%float true <>
       @Build_Simulated binary64
         (PrimFloat.add PrimFloat.zero (Calculations.amountOut step))
         (if PrimFloat.leb (newSqrtPriceX96 step) nextTickPrice
          then 10%float
          else priceToTick (N:=binary64)
                 (sqrtPriceX96ToPrice (N:=binary64) (newSqrtPriceX96 step)))).
Proof.
  intros [M H]. apply H.
  apply (simulateSwap_on_two_ticks M 1%float 30%float 0%float true _
           (@Build_TickData binary64 0%float 5%float)
           (@Build_TickData binary64 10%float 3%float));
    reflexivity.
Defined.

End SimulateSwapProperties.

(** ** The tick index *)

Section Positions.
Import Spec.

Local Notation "'Tick'" := (@Simulation.Tick exact).
Local Notation "'Simulator'" := (@UniswapV3SwapSimulator exact).

Lemma addTick_permutation (N : Number) (M : MathLib N)
    (this : UniswapV3SwapSimulator) (tickIndex net gross : num) :
  Permutation (liquidityTicks (addTick this tickIndex net gross))
    (liquidityTicks this ++ [Build_Tick tickIndex net gross]).
Proof. cbn [addTick set_liquidityTicks liquidityTicks]. apply sort_permutation. Qed.

(** X14: in every reading of the numbers, [addPosition] stores exactly
    two more entries, one at the tick of the lower price with
    [+liquidity] and one at the tick of the upper price with
    [-liquidity]; every entry stored before is kept (an entry at the same
    index is not merged), and the price, the current tick, the fee and
    the recorded steps are left as they were. *)
Theorem addPosition_adds_two_entries (N : Number) (M : MathLib N)
    (this : UniswapV3SwapSimulator) (lowerPrice upperPrice liquidity : num) :
  let this' := addPosition this lowerPrice upperPrice liquidity in
  Permutation (liquidityTicks this')
    (liquidityTicks this ++
     [ Build_Tick (priceToTick lowerPrice) liquidity liquidity;
       Build_Tick (priceToTick upperPrice) (neg liquidity) liquidity ]) /\
  currentTick this' = currentTick this /\
  currentPrice this' = currentPrice this /\
  currentSqrtPriceX96 this' = currentSqrtPriceX96 this /\
  feeTier this' = feeTier this /\
  swapSteps this' = swapSteps this.
Proof.
  cbv zeta. split; [| repeat split; reflexivity].
  unfold addPosition. cbv zeta.
  rewrite (addTick_permutation N M).
  rewrite (addTick_permutation N M this).
  rewrite <- app_assoc. reflexivity.
Qed.

(** X15: over the real numbers, on a pool whose stored ticks are in
    ascending order, [addPosition] with [0 < lowerPrice <= upperPrice]
    raises the active liquidity by [liquidity] at every tick from the
    tick of the lower price up to, and not including, the tick of the
    upper price, and leaves it as it was at every other tick. *)
Theorem addPosition_active_liquidity (this : Simulator)
    (lowerPrice upperPrice liquidity tick : R) :
  indexOrdered (liquidityTicks this) ->
  0 < lowerPrice -> lowerPrice <= upperPrice ->
  getActiveLiquidity
    (set_currentTick (addPosition this lowerPrice upperPrice liquidity) tick)
  = getActiveLiquidity (set_currentTick this tick)
    + (if rangeContains (N:=exact) (priceToTick (N:=exact) lowerPrice)
            (priceToTick (N:=exact) upperPrice) tick
       then liquidity else 0).
Proof.
  intros Hordered Hlower Hrange.
  unfold getActiveLiquidity.
  cbn [set_currentTick set_price currentTick liquidityTicks].
  unfold addPosition. cbv zeta.
  rewrite sumUpTo_ordered by apply addTick_ordered.
  rewrite sumUpTo_ordered by exact Hordered.
  rewrite !addTick_netUpTo. exact_ops.
  rewrite <- (range_contribution _ _ liquidity tick
                (priceToTick_monotone _ _ Hlower Hrange)).
  lra.
Qed.

(** A position of liquidity 7 between the prices 1 and 2 added to a
    fresh pool, read at the tick 5. *)
Lemma addPosition_active_liquidity_witness :
  getActiveLiquidity
    (set_currentTick (addPosition (constructor (N:=exact) 1 None) 1 2 7) 5)
  = getActiveLiquidity (set_currentTick (constructor (N:=exact) 1 None) 5)
    + (if rangeContains (N:=exact) (priceToTick (N:=exact) 1)
            (priceToTick (N:=exact) 2) 5
       then 7 else 0).
Proof.
  apply (addPosition_active_liquidity (constructor (N:=exact) 1 None) 1 2 7 5).
  - constructor.
  - lra.
  - lra.
Defined.

(** X16: in every reading of the numbers, [initializePoolFromPositions]
    stores two entries for each position: afterwards there are twice as
    many more stored ticks as there are positions, also when positions
    share a boundary. *)
Theorem initializePoolFromPositions_tick_count (N : Number) (M : MathLib N)
    (positions : list Position) (this : UniswapV3SwapSimulator)
    (tickSpacing : option num) :
  length (liquidityTicks (initializePoolFromPositions this positions tickSpacing))
  = (length (liquidityTicks this) + 2 * length positions)%nat.
Proof.
  unfold initializePoolFromPositions.
  generalize (default (of_Z 10) tickSpacing). intros spacing.
  revert this. induction positions as [| position positions IH]; intros this;
    cbn [fold_left length]; [lia |].
  rewrite IH. unfold addLiquidityInRange. cbv zeta.
  rewrite (Permutation_length (addTick_permutation N M _ _ _ _)), length_app.
  rewrite (Permutation_length (addTick_permutation N M _ _ _ _)), length_app.
  cbn [length]. lia.
Qed.




End Positions.

(** ** The next tick *)

Section NearestTick.
Import Spec.
Context {N : Number} {M : MathLib N}.
Hypothesis le_refl_of_lt :
  forall x y : num, lt x y = true -> le x x = true /\ le y y = true.

Lemma ascending_split (before after : list Tick) (x : Tick) :
  ascending (before ++ x :: after) ->
  (forall a, In a before -> le (index a) (index x) = true) /\
  (forall b, In b after -> le (index x) (index b) = true).
Proof.
  unfold ascending. induction before as [| y before IH]; cbn; intros Hsorted;
    inversion Hsorted as [| ? ? Hrest Hhead]; subst.
  - split; [contradiction |]. rewrite Forall_forall in Hhead. exact Hhead.
  - destruct (IH Hrest) as [Hbefore Hafter]. split; [| exact Hafter].
    intros a [<- | Ha]; [| exact (Hbefore a Ha)].
    rewrite Forall_forall in Hhead. apply Hhead, in_elt.
Qed.

Lemma find_first (A : Type) (f : A -> bool) (l : list A) (x : A) :
  find f l = Some x ->
  exists before after, l = before ++ x :: after /\ f x = true /\
    Forall (fun y => f y = false) before.
Proof.
  induction l as [| y l IH]; [discriminate |]. cbn.
  destruct (f y) eqn:Hy.
  - intros [= ->]. exists [], l. repeat split; [assumption | constructor].
  - intros Hfind. destruct (IH Hfind) as (before & after & -> & Hx & Hbefore).
    exists (y :: before), after. repeat split; [assumption |].
    constructor; assumption.
Qed.

Lemma findNextTick_nearest (this : UniswapV3SwapSimulator) (zeroForOne : bool) :
  ascending (liquidityTicks this) ->
  match findNextTick this zeroForOne with
  | Some next =>
      In next (liquidityTicks this) /\
      beyond this zeroForOne next = true /\
      forall t : Tick, In t (liquidityTicks this) -> beyond this zeroForOne t = true ->
        if zeroForOne
        then le (index t) (index next) = true
        else le (index next) (index t) = true
  | None =>
      forall t : Tick, In t (liquidityTicks this) -> beyond this zeroForOne t = false
  end.
Proof.
  intros Hordered.
  destruct (findNextTick this zeroForOne) as [next |] eqn:Hfind.
  - destruct (findNextTick_beyond this zeroForOne next Hfind) as [Hin Hbeyond].
    split; [exact Hin |]. split; [exact Hbeyond |].
    intros t Ht Htb. unfold findNextTick in Hfind. unfold beyond in *.
    destruct zeroForOne.
    + apply find_first in Hfind.
      destruct Hfind as (before & after & Hrev & _ & Hbefore).
      assert (Hsplit : liquidityTicks this = rev after ++ next :: rev before).
      { rewrite <- (rev_involutive (liquidityTicks this)), Hrev, rev_app_distr.
        cbn. rewrite <- app_assoc. reflexivity. }
      rewrite Hsplit in Ht, Hordered.
      destruct (ascending_split _ _ _ Hordered) as [Hlow _].
      apply in_app_or in Ht. destruct Ht as [Ht | [<- | Ht]].
      * exact (Hlow t Ht).
      * exact (proj1 (le_refl_of_lt _ _ Hbeyond)).
      * rewrite Forall_forall in Hbefore. apply in_rev in Ht.
        rewrite (Hbefore t Ht) in Htb. discriminate.
    + apply find_first in Hfind.
      destruct Hfind as (before & after & Hsplit & _ & Hbefore).
      rewrite Hsplit in Ht, Hordered.
      destruct (ascending_split _ _ _ Hordered) as [_ Hhigh].
      apply in_app_or in Ht. destruct Ht as [Ht | [<- | Ht]].
      * rewrite Forall_forall in Hbefore.
        rewrite (Hbefore t Ht) in Htb. discriminate.
      * exact (proj2 (le_refl_of_lt _ _ Hbeyond)).
      * exact (Hhigh t Ht).
  - intros t Ht. unfold findNextTick, beyond in *.
    destruct zeroForOne.
    + apply (find_none _ _ Hfind). apply in_rev in Ht. exact Ht.
    + apply (find_none _ _ Hfind). exact Ht.
Qed.

End NearestTick.

Section NearestTickBothReadings.
Import Spec.

Lemma exact_le_refl_of_lt (x y : R) :
  Rltb x y = true -> Rleb x x = true /\ Rleb y y = true.
Proof. intros _. split; apply Rleb_true; lra. Qed.

Lemma float_leb_refl_of_ltb (x y : float) :
  PrimFloat.ltb x y = true -> PrimFloat.leb x x = true /\ PrimFloat.leb y y = true.
Proof.
  rewrite FloatAxioms.ltb_spec, !FloatAxioms.leb_spec.
  unfold SFltb, SFleb.
  destruct (Prim2SF x) as [sx | sx | | sx mx ex],
           (Prim2SF y) as [sy | sy | | sy my ey];
    cbn; try discriminate; intros _;
    repeat match goal with
           | s : bool |- _ => destruct s
           end;
    cbn; rewrite ?Z.compare_refl, ?Pos.compare_cont_refl; split; reflexivity.
Qed.

Lemma indexOrdered_ascending (ticks : list (Simulation.Tick (N:=exact))) :
  indexOrdered ticks -> ascending ticks.
Proof.
  unfold indexOrdered, ascending. induction 1 as [| t l Hl IH Ht]; constructor.
  - exact IH.
  - apply Forall_impl with (2 := Ht). intros u Hu. apply Rleb_true. exact Hu.
Qed.

(** X18: on stored ticks in ascending order of index, [findNextTick]
    returns the stored tick nearest to the current tick among those
    strictly beyond it in the direction of the swap (the highest one
    below it when token0 is swapped for token1, the lowest one above it
    otherwise), and it returns [null] exactly when no stored tick lies
    strictly beyond the current one.  This holds over the real numbers
    and in binary64. *)
Theorem findNextTick_is_the_nearest :
  (forall (this : UniswapV3SwapSimulator (N:=exact)) (zeroForOne : bool),
   indexOrdered (liquidityTicks this) ->
   match findNextTick this zeroForOne with
   | Some next =>
       In next (liquidityTicks this) /\
       beyond this zeroForOne next = true /\
       forall t, In t (liquidityTicks this) -> beyond this zeroForOne t = true ->
         if zeroForOne then index t <= index next else index next <= index t
   | None =>
       forall t, In t (liquidityTicks this) -> beyond this zeroForOne t = false
   end) /\
  (forall (this : UniswapV3SwapSimulator (N:=binary64)) (zeroForOne : bool),
   ascending (liquidityTicks this) ->
   match findNextTick this zeroForOne with
   | Some next =>
       In next (liquidityTicks this) /\
       beyond this zeroForOne next = true /\
       forall t, In t (liquidityTicks this) -> beyond this zeroForOne t = true ->
         if zeroForOne
         then PrimFloat.leb (index t) (index next) = true
         else PrimFloat.leb (index next) (index t) = true
   | None =>
       forall t, In t (liquidityTicks this) -> beyond this zeroForOne t = false
   end).
Proof.
  split.
  - intros this zeroForOne Hordered.
    pose proof (@findNextTick_nearest exact exact_le_refl_of_lt
                  this zeroForOne (indexOrdered_ascending _ Hordered)) as H.
    destruct (findNextTick this zeroForOne) as [next |]; [| exact H].
    destruct H as (Hin & Hbeyond & Hnearest).
    split; [exact Hin |]. split; [exact Hbeyond |].
    intros t Ht Htb. specialize (Hnearest t Ht Htb).
    destruct zeroForOne; apply Rleb_true; exact Hnearest.
  - intros this zeroForOne Hordered.
    exact (@findNextTick_nearest binary64 float_leb_refl_of_ltb
             this zeroForOne Hordered).
Qed.

(** The tick below the current tick 0 among the stored ticks -20, -10
    and 10, in binary64. *)
Lemma findNextTick_is_the_nearest_witness :
  let this : UniswapV3SwapSimulator (N:=binary64) :=
    @Build_UniswapV3SwapSimulator binary64
      0.5%float 1%float 1%float 79228162514264337593543950336%float 0%float
      [ @Build_Tick binary64 (-20)%float 3%float 3%float;
        @Build_Tick binary64 (-10)%float 5%float 5%float;
        @Build_Tick binary64 10%float (-8)%float 8%float ]
      [] in
  match findNextTick this true with
  | Some next =>
      In next (liquidityTicks this) /\
      beyond this true next = true /\
      forall t, In t (liquidityTicks this) -> beyond this true t = true ->
        PrimFloat.leb (index t) (index next) = true
  | None =>
      forall t, In t (liquidityTicks this) -> beyond this true t = false
  end.
Proof.
  intros this.
  apply (proj2 findNextTick_is_the_nearest this true).
  unfold ascending, this. cbn [liquidityTicks].
  repeat constructor.
Defined.

End NearestTickBothReadings.

(** ** The swap loop: what it records and totals *)

Section SwapLedger.
Import Spec Ledger.
Context {N : Number} {M : MathLib N}.

Lemma useRemaining_records (this : UniswapV3SwapSimulator) (vars : Locals)
    (activeLiquidity : num) (zeroForOne : bool) :
  let '(this', vars') := useRemaining this vars activeLiquidity zeroForOne in
  sameSetup this this' /\
  remainingAmount vars' = of_Z 0 /\
  exists recorded : StepRecord,
    swapSteps this' = swapSteps this ++ [recorded] /\
    step_amountIn recorded = remainingAmount vars /\
    crossedTick recorded = false /\
    tickCrossed recorded = None /\
    totalAmountOut vars' = add (totalAmountOut vars) (step_amountOut recorded) /\
    feeAmount vars' =
      add (feeAmount vars) (mul (step_amountIn recorded) (feeTier this)).
Proof.
  unfold useRemaining. cbv zeta. split; [repeat split |]. split; [reflexivity |].
  eexists. split; [reflexivity |]. repeat split.
Qed.

Lemma crossTick_records (this : UniswapV3SwapSimulator) (vars : Locals)
    (activeLiquidity : num) (nextTick : Tick)
    (nextTickPrice nextTickSqrtPriceX96 toNext : num) (zeroForOne : bool) :
  let '(this', vars') :=
    crossTick this vars activeLiquidity nextTick nextTickPrice nextTickSqrtPriceX96
      toNext zeroForOne in
  sameSetup this this' /\
  remainingAmount vars' = sub (remainingAmount vars) toNext /\
  currentTick this' = index nextTick /\
  exists recorded : StepRecord,
    swapSteps this' = swapSteps this ++ [recorded] /\
    step_amountIn recorded = toNext /\
    crossedTick recorded = true /\
    tickCrossed recorded = Some (index nextTick) /\
    tickAfter recorded = index nextTick /\
    priceAfter recorded = nextTickPrice /\
    totalAmountOut vars' = add (totalAmountOut vars) (step_amountOut recorded) /\
    feeAmount vars' =
      add (feeAmount vars) (mul (step_amountIn recorded) (feeTier this)).
Proof.
  unfold crossTick. cbv zeta. split; [repeat split |].
  split; [reflexivity |]. split; [reflexivity |].
  eexists. split; [reflexivity |]. repeat split.
Qed.

Lemma outputOf_app (l : list StepRecord) (recorded : StepRecord) :
  outputOf (l ++ [recorded]) = add (outputOf l) (step_amountOut recorded).
Proof. unfold outputOf. rewrite fold_left_app. reflexivity. Qed.

Lemma feesOf_app (fee : num) (l : list StepRecord) (recorded : StepRecord) :
  feesOf fee (l ++ [recorded]) = add (feesOf fee l) (mul (step_amountIn recorded) fee).
Proof. unfold feesOf. rewrite fold_left_app. reflexivity. Qed.

Lemma inputOf_app (l : list StepRecord) (recorded : StepRecord) :
  inputOf (l ++ [recorded]) = add (inputOf l) (step_amountIn recorded).
Proof. unfold inputOf. rewrite fold_left_app. reflexivity. Qed.

(** One pass keeps the totals balanced and the setup as it was. *)
Lemma loopBody_balanced (this : UniswapV3SwapSimulator) (amount price0 : num)
    (zeroForOne : bool) (vars : Locals) :
  balanced this vars ->
  match loopBody this amount price0 zeroForOne vars with
  | Return value this' =>
      this' = this /\ value = result this price0 (sub amount (remainingAmount vars)) vars
  | Break this' vars' | Normal this' vars' =>
      balanced this' vars' /\ sameSetup this this'
  end.
Proof.
  intros [Hout Hfee]. unfold loopBody.
  destruct (le (getActiveLiquidity this) (of_Z 0)); [split; reflexivity |].
  destruct (findNextTick this zeroForOne) as [nextTick |].
  - destruct (le (remainingAmount vars) _).
    + pose proof (useRemaining_records this vars (getActiveLiquidity this) zeroForOne)
        as H.
      destruct (useRemaining this vars (getActiveLiquidity this) zeroForOne)
        as [this' vars'].
      destruct H as (Hsame & _ & recorded & Hsteps & _ & _ & _ & Hout' & Hfee').
      split; [| exact Hsame]. destruct Hsame as (Hfeetier & _ & _).
      split.
      * rewrite Hout', Hsteps, outputOf_app, Hout. reflexivity.
      * rewrite Hfee', Hsteps, Hfeetier, feesOf_app, Hfee. reflexivity.
    + match goal with
      | |- context [crossTick ?a ?b ?c ?d ?e ?f ?g ?h] =>
          pose proof (crossTick_records a b c d e f g h) as H;
          destruct (crossTick a b c d e f g h) as [this' vars']
      end.
      destruct H as (Hsame & _ & _ & recorded & Hsteps
                     & _ & _ & _ & _ & _ & Hout' & Hfee').
      split; [| exact Hsame]. destruct Hsame as (Hfeetier & _ & _).
      split.
      * rewrite Hout', Hsteps, outputOf_app, Hout. reflexivity.
      * rewrite Hfee', Hsteps, Hfeetier, feesOf_app, Hfee. reflexivity.
  - pose proof (useRemaining_records this vars (getActiveLiquidity this) zeroForOne)
      as H.
    destruct (useRemaining this vars (getActiveLiquidity this) zeroForOne)
      as [this' vars'].
    destruct H as (Hsame & _ & recorded & Hsteps & _ & _ & _ & Hout' & Hfee').
    split; [| exact Hsame]. destruct Hsame as (Hfeetier & _ & _).
    split.
    + rewrite Hout', Hsteps, outputOf_app, Hout. reflexivity.
    + rewrite Hfee', Hsteps, Hfeetier, feesOf_app, Hfee. reflexivity.
Qed.

Lemma sameSetup_trans (a b c : UniswapV3SwapSimulator) :
  sameSetup a b -> sameSetup b c -> sameSetup a c.
Proof.
  intros (H1 & H2 & H3) (H1' & H2' & H3'). repeat split; congruence.
Qed.

Lemma loop_balanced (amount price0 : num) (zeroForOne : bool) (fuel : nat) :
  forall (this : UniswapV3SwapSimulator) (vars : Locals) value this',
  balanced this vars ->
  loop fuel this amount price0 zeroForOne vars = Some (value, this') ->
  amountOut value = outputOf (steps value) /\
  feesCollected value = feesOf (feeTier this) (steps value) /\
  steps value = swapSteps this' /\
  finalPrice value = currentPrice this' /\
  sameSetup this this'.
Proof.
  induction fuel as [| fuel IH]; intros this vars value this' Hbal Hloop;
    [discriminate |].
  cbn [loop] in Hloop.
  assert (Hdone : forall consumed,
            Some (result this price0 consumed vars, this) = Some (value, this') ->
            amountOut value = outputOf (steps value) /\
            feesCollected value = feesOf (feeTier this) (steps value) /\
            steps value = swapSteps this' /\
            finalPrice value = currentPrice this' /\
            sameSetup this this').
  { intros consumed [= <- <-]. destruct Hbal as [Hout Hfee]. cbn.
    repeat split; assumption. }
  destruct (lt (of_Z 0) (remainingAmount vars)); [| exact (Hdone _ Hloop)].
  pose proof (loopBody_balanced this amount price0 zeroForOne vars Hbal) as Hbody.
  destruct (loopBody this amount price0 zeroForOne vars)
    as [value1 this1 | this1 vars1 | this1 vars1].
  - destruct Hbody as [-> ->]. exact (Hdone _ Hloop).
  - destruct Hbody as [[Hout Hfee] Hsame]. injection Hloop as <- <-. cbn.
    destruct Hsame as (Hfeetier & Hinitial & Hticks).
    repeat split; try assumption. rewrite <- Hfeetier. exact Hfee.
  - destruct Hbody as [Hbal1 Hsame].
    destruct (IH this1 vars1 value this' Hbal1 Hloop)
      as (Hout & Hfee & Hsteps & Hfinal & Hsame').
    split; [exact Hout |]. split.
    + destruct Hsame as (Hfeetier & _ & _). rewrite <- Hfeetier. exact Hfee.
    + split; [exact Hsteps |]. split; [exact Hfinal |].
      exact (sameSetup_trans _ _ _ Hsame Hsame').
Qed.

Lemma executeSwap_balanced (this : UniswapV3SwapSimulator) (amount : num)
    (zeroForOne : bool) value this' :
  executeSwap this amount zeroForOne = Some (value, this') ->
  amountOut value = outputOf (steps value) /\
  feesCollected value = feesOf (feeTier this) (steps value) /\
  steps value = swapSteps this' /\
  finalPrice value = currentPrice this' /\
  sameSetup this this'.
Proof.
  unfold executeSwap, executeSwap_within. intros Hloop.
  apply loop_balanced in Hloop; [exact Hloop |].
  split; reflexivity.
Qed.

(** The price impact that is reported is the relative change from the
    price at the call to the final price. *)
Lemma loop_priceImpact (amount price0 : num) (zeroForOne : bool) (fuel : nat) :
  forall (this : UniswapV3SwapSimulator) (vars : Locals) value this',
  loop fuel this amount price0 zeroForOne vars = Some (value, this') ->
  priceImpact value = div (sub price0 (finalPrice value)) price0.
Proof.
  induction fuel as [| fuel IH]; intros this vars value this' Hloop; [discriminate |].
  cbn [loop] in Hloop.
  destruct (lt (of_Z 0) (remainingAmount vars));
    [| injection Hloop as <- <-; reflexivity].
  unfold loopBody in Hloop.
  destruct (le (getActiveLiquidity this) (of_Z 0));
    [injection Hloop as <- <-; reflexivity |].
  destruct (findNextTick this zeroForOne) as [nextTick |].
  - destruct (le (remainingAmount vars) _).
    + destruct (useRemaining this vars (getActiveLiquidity this) zeroForOne)
        as [this1 vars1].
      exact (IH _ _ _ _ Hloop).
    + destruct (crossTick _ _ _ _ _ _ _ _) as [this1 vars1].
      exact (IH _ _ _ _ Hloop).
  - destruct (useRemaining this vars (getActiveLiquidity this) zeroForOne)
      as [this1 vars1].
    injection Hloop as <- <-. reflexivity.
Qed.

End SwapLedger.

Section SwapSteps.
Import Spec Ledger Shape.
Context {N : Number} {M : MathLib N} (laws : OrderLaws N).

(** What one pass records. *)
Lemma loopBody_appends (this : UniswapV3SwapSimulator) (amount price0 : num)
    (zeroForOne : bool) (vars : Locals) :
  match loopBody this amount price0 zeroForOne vars with
  | Return value this' =>
      this' = this /\ value = result this price0 (sub amount (remainingAmount vars)) vars
  | Break this' vars' =>
      sameSetup this this' /\
      exists recorded, swapSteps this' = swapSteps this ++ [recorded] /\ closing recorded
  | Normal this' vars' =>
      sameSetup this this' /\
      exists recorded, swapSteps this' = swapSteps this ++ [recorded] /\
        ((closing recorded /\ remainingAmount vars' = of_Z 0) \/
         (crossing this recorded /\
          (ticksAhead this' zeroForOne < ticksAhead this zeroForOne)%nat))
  end.
Proof.
  unfold loopBody.
  destruct (le (getActiveLiquidity this) (of_Z 0)); [split; reflexivity |].
  destruct (findNextTick this zeroForOne) as [nextTick |] eqn:Hnext.
  - destruct (le (remainingAmount vars) _).
    + pose proof (useRemaining_records this vars (getActiveLiquidity this) zeroForOne)
        as H.
      destruct (useRemaining this vars (getActiveLiquidity this) zeroForOne)
        as [this' vars'].
      destruct H as (Hsame & Hzero & recorded & Hsteps & _ & Hc & Ht & _).
      split; [exact Hsame |]. exists recorded. split; [exact Hsteps |].
      left. split; [split; assumption | exact Hzero].
    + match goal with
      | |- context [crossTick ?a ?b ?c ?d ?e ?f ?g ?h] =>
          pose proof (crossTick_records a b c d e f g h) as H;
          destruct (crossTick a b c d e f g h) as [this' vars']
      end.
      destruct H as (Hsame & _ & Htick & recorded & Hsteps
                     & _ & Hc & Ht & Hafter & Hprice & _).
      split; [exact Hsame |]. exists recorded. split; [exact Hsteps |].
      right.
      destruct (findNextTick_beyond this zeroForOne nextTick Hnext) as [Hin Hbeyond].
      split.
      * split; [exact Hc |]. split; [rewrite Ht, Hafter; reflexivity |].
        exists nextTick. repeat split; assumption.
      * destruct Hsame as (_ & _ & Hticks).
        apply (ticksAhead_decreases laws) with (t := nextTick); assumption.
  - pose proof (useRemaining_records this vars (getActiveLiquidity this) zeroForOne)
      as H.
    destruct (useRemaining this vars (getActiveLiquidity this) zeroForOne)
      as [this' vars'].
    destruct H as (Hsame & Hzero & recorded & Hsteps & _ & Hc & Ht & _).
    split; [exact Hsame |]. exists recorded. split; [exact Hsteps |].
    split; assumption.
Qed.

Lemma crossing_sameSetup (this this' : UniswapV3SwapSimulator) (recorded : StepRecord) :
  sameSetup this this' -> crossing this' recorded -> crossing this recorded.
Proof.
  intros (_ & _ & Hticks) (Hc & Ht & t & Hin & Hrest).
  split; [exact Hc |]. split; [exact Ht |].
  exists t. rewrite <- Hticks. split; assumption.
Qed.

Lemma loop_steps (amount price0 : num) (zeroForOne : bool) (fuel : nat) :
  forall (this : UniswapV3SwapSimulator) (vars : Locals) value this',
  loop fuel this amount price0 zeroForOne vars = Some (value, this') ->
  exists (crossed final : list StepRecord),
    steps value = swapSteps this ++ crossed ++ final /\
    Forall (crossing this) crossed /\
    (final = [] \/ exists last, final = [last] /\ closing last) /\
    (length crossed <= ticksAhead this zeroForOne)%nat.
Proof.
  induction fuel as [| fuel IH]; intros this vars value this' Hloop; [discriminate |].
  cbn [loop] in Hloop.
  assert (Hdone : forall consumed,
            Some (result this price0 consumed vars, this) = Some (value, this') ->
            exists (crossed final : list StepRecord),
              steps value = swapSteps this ++ crossed ++ final /\
              Forall (crossing this) crossed /\
              (final = [] \/ exists last, final = [last] /\ closing last) /\
              (length crossed <= ticksAhead this zeroForOne)%nat).
  { intros consumed [= <- <-]. exists [], []. cbn. rewrite app_nil_r.
    repeat split; [constructor | left; reflexivity | lia]. }
  destruct (lt (of_Z 0) (remainingAmount vars)); [| exact (Hdone _ Hloop)].
  pose proof (loopBody_appends this amount price0 zeroForOne vars) as Hbody.
  destruct (loopBody this amount price0 zeroForOne vars)
    as [value1 this1 | this1 vars1 | this1 vars1].
  - destruct Hbody as [-> ->]. exact (Hdone _ Hloop).
  - destruct Hbody as (_ & recorded & Hsteps & Hclosing).
    injection Hloop as <- <-. exists [], [recorded]. cbn.
    repeat split; [exact Hsteps | constructor | | lia].
    right. exists recorded. split; [reflexivity | exact Hclosing].
  - destruct Hbody
      as (Hsame & recorded & Hsteps & [[Hclosing Hzero] | [Hcrossing Hahead]]).
    + destruct fuel as [| fuel]; [discriminate |].
      cbn [loop] in Hloop. rewrite Hzero, lt_irrefl in Hloop.
      injection Hloop as <- <-. exists [], [recorded]. cbn.
      repeat split; [exact Hsteps | constructor | | lia].
      right. exists recorded. split; [reflexivity | exact Hclosing].
    + destruct (IH this1 vars1 value this' Hloop)
        as (crossed & final & Hvalue & Hcrossed & Hfinal & Hlength).
      exists (recorded :: crossed), final.
      split; [rewrite Hvalue, Hsteps, <- app_assoc; reflexivity |].
      split.
      * constructor; [exact Hcrossing |].
        apply Forall_impl with (2 := Hcrossed).
        intros s. apply crossing_sameSetup. exact Hsame.
      * split; [exact Hfinal |]. cbn [length]. lia.
Qed.

Lemma executeSwap_steps (this : UniswapV3SwapSimulator) (amount : num)
    (zeroForOne : bool) :
  exists value this',
    executeSwap this amount zeroForOne = Some (value, this') /\
    wellFormed this (steps value) /\
    (length (steps value) <= ticksAhead this zeroForOne + 1)%nat.
Proof.
  destruct (executeSwap_total laws this amount zeroForOne) as [[value this'] [Hrun _]].
  exists value, this'. split; [exact Hrun |].
  unfold executeSwap, executeSwap_within in Hrun.
  apply loop_steps in Hrun.
  destruct Hrun as (crossed & final & Hsteps & Hcrossed & Hfinal & Hlength).
  cbn [set_swapSteps swapSteps app] in Hsteps.
  split.
  - exists crossed, final. split; [exact Hsteps |]. split; [| exact Hfinal].
    apply Forall_impl with (2 := Hcrossed).
    intros s (Hc & Ht & t & Hin & Hrest). split; [exact Hc |]. split; [exact Ht |].
    exists t. split; [exact Hin | exact Hrest].
  - rewrite Hsteps, length_app.
    change (ticksAhead (set_swapSteps this []) zeroForOne)
      with (ticksAhead this zeroForOne) in Hlength.
    destruct Hfinal as [-> | (last & -> & _)]; cbn [length]; lia.
Qed.

End SwapSteps.

Section SwapStepsBothReadings.
Import Spec Ledger Shape.

(** X19: [executeSwap] returns on every pool and amount, and the steps it
    returns are crossing steps followed by at most one step that does not
    cross: a crossing step ends on a stored tick, which it names as
    [tickCrossed] and [tickAfter], at the price of that tick; only the
    last step can be one that uses up the input inside a range.  There is
    at most one step more than there are stored ticks strictly beyond the
    current tick in the direction of the swap.  This holds over the real
    numbers and in binary64 with any [Math] library. *)
Theorem executeSwap_step_log :
  (forall (this : UniswapV3SwapSimulator (N:=exact)) (amountIn : R)
          (zeroForOne : bool),
   exists value this',
     executeSwap this amountIn zeroForOne = Some (value, this') /\
     wellFormed this (steps value) /\
     (length (steps value) <= ticksAhead this zeroForOne + 1)%nat) /\
  (forall (M : MathLib binary64) (this : UniswapV3SwapSimulator (N:=binary64))
          (amountIn : float) (zeroForOne : bool),
   exists value this',
     executeSwap this amountIn zeroForOne = Some (value, this') /\
     wellFormed this (steps value) /\
     (length (steps value) <= ticksAhead this zeroForOne + 1)%nat).
Proof.
  split; intros.
  - apply (executeSwap_steps exact_order).
  - apply (@executeSwap_steps binary64 M binary64_order).
Qed.

(** X20: [executeSwap] returns on every pool and amount; the output it
    reports is the sum of the outputs of the steps it returns, the fee it
    reports is the sum of their inputs each times the fee rate (both
    added in the order of the steps, from 0), and the steps it returns
    are those left in [swapSteps]: steps of an earlier swap are gone.
    This holds over the real numbers and, bit for bit, in binary64 with
    any [Math] library. *)
Theorem executeSwap_totals :
  (forall (this : UniswapV3SwapSimulator (N:=exact)) (amountIn : R)
          (zeroForOne : bool),
   exists value this',
     executeSwap this amountIn zeroForOne = Some (value, this') /\
     amountOut value = outputOf (steps value) /\
     feesCollected value = feesOf (feeTier this) (steps value) /\
     steps value = swapSteps this') /\
  (forall (M : MathLib binary64) (this : UniswapV3SwapSimulator (N:=binary64))
          (amountIn : float) (zeroForOne : bool),
   exists value this',
     executeSwap this amountIn zeroForOne = Some (value, this') /\
     amountOut value = outputOf (steps value) /\
     feesCollected value = feesOf (feeTier this) (steps value) /\
     steps value = swapSteps this').
Proof.
  split; [intros this amount zeroForOne | intros M this amount zeroForOne].
  - destruct (executeSwap_total exact_order this amount zeroForOne)
      as [[value this'] [Hrun _]].
    exists value, this'. split; [exact Hrun |].
    destruct (executeSwap_balanced _ _ _ _ _ Hrun) as (H1 & H2 & H3 & _).
    repeat split; assumption.
  - destruct (@executeSwap_total binary64 M binary64_order this amount zeroForOne)
      as [[value this'] [Hrun _]].
    exists value, this'. split; [exact Hrun |].
    destruct (executeSwap_balanced _ _ _ _ _ Hrun) as (H1 & H2 & H3 & _).
    repeat split; assumption.
Qed.

(** X21: [executeSwap] never changes the stored ticks, the fee rate or
    the initial price of the simulator; the final price it reports is the
    current price it leaves, and the price impact it reports is the
    change from the current price at the call to that final price,
    divided by the former.  This holds over the real numbers and in
    binary64 with any [Math] library. *)
Theorem executeSwap_keeps_the_pool_setup :
  (forall (this : UniswapV3SwapSimulator (N:=exact)) (amountIn : R)
          (zeroForOne : bool),
   exists value this',
     executeSwap this amountIn zeroForOne = Some (value, this') /\
     liquidityTicks this' = liquidityTicks this /\
     feeTier this' = feeTier this /\
     initialPrice this' = initialPrice this /\
     finalPrice value = currentPrice this' /\
     priceImpact value = (currentPrice this - finalPrice value) / currentPrice this) /\
  (forall (M : MathLib binary64) (this : UniswapV3SwapSimulator (N:=binary64))
          (amountIn : float) (zeroForOne : bool),
   exists value this',
     executeSwap this amountIn zeroForOne = Some (value, this') /\
     liquidityTicks this' = liquidityTicks this /\
     feeTier this' = feeTier this /\
     initialPrice this' = initialPrice this /\
     finalPrice value = currentPrice this' /\
     priceImpact value =
       PrimFloat.div (PrimFloat.sub (currentPrice this) (finalPrice value))
         (currentPrice this)).
Proof.
  split; [intros this amount zeroForOne | intros M this amount zeroForOne].
  - destruct (executeSwap_total exact_order this amount zeroForOne)
      as [[value this'] [Hrun _]].
    exists value, this'. split; [exact Hrun |].
    destruct (executeSwap_balanced _ _ _ _ _ Hrun) as (_ & _ & _ & H4 & H5 & H6 & H7).
    unfold executeSwap, executeSwap_within in Hrun.
    apply loop_priceImpact in Hrun.
    repeat split; assumption.
  - destruct (@executeSwap_total binary64 M binary64_order this amount zeroForOne)
      as [[value this'] [Hrun _]].
    exists value, this'. split; [exact Hrun |].
    destruct (executeSwap_balanced _ _ _ _ _ Hrun) as (_ & _ & _ & H4 & H5 & H6 & H7).
    unfold executeSwap, executeSwap_within in Hrun.
    apply loop_priceImpact in Hrun.
    repeat split; assumption.
Qed.

End SwapStepsBothReadings.

(** ** The swap loop: the input *)

Section NoInput.
Import Spec.

(** X22: in every reading of the numbers, when the test [amountIn > 0]
    fails (a negative amount, 0, or [NaN] in binary64), [executeSwap]
    swaps nothing and reports the amount as given: it returns [amountIn]
    itself, the output 0, the fee 0, the current price and no step, and
    it leaves the pool as it was but for the emptied step list. *)
Theorem executeSwap_without_positive_input (N : Number) (M : MathLib N)
    (this : UniswapV3SwapSimulator) (amount : num) (zeroForOne : bool) :
  lt (of_Z 0) amount = false ->
  executeSwap this amount zeroForOne =
  Some ({| amountIn := amount;
           amountOut := of_Z 0;
           feesCollected := of_Z 0;
           finalPrice := currentPrice this;
           priceImpact := div (sub (currentPrice this) (currentPrice this))
                              (currentPrice this);
           steps := [] |},
        set_swapSteps this []).
Proof.
  intros Hamount. unfold executeSwap, executeSwap_within.
  rewrite Nat.add_comm. cbn [Nat.add loop remainingAmount]. rewrite Hamount.
  reflexivity.
Qed.

(** A swap of -5 on a fresh pool. *)
Lemma executeSwap_without_positive_input_witness :
  option_map (fun outcome => (amountIn (fst outcome), steps (fst outcome)))
    (executeSwap (constructor (N:=exact) 1 None) (-5) true)
  = Some (-5, []).
Proof.
  rewrite (executeSwap_without_positive_input exact exact_math
             (constructor (N:=exact) 1 None) (-5) true).
  - reflexivity.
  - apply Rltb_false. cbn. lra.
Defined.

End NoInput.

Section Consumed.
Import Spec Ledger.

Local Notation "'Simulator'" := (@UniswapV3SwapSimulator exact).
Local Notation "'Locals'" := (@Simulation.Locals exact).
Local Notation "'StepRecord'" := (@Simulation.StepRecord exact).

Lemma useRemaining_settled (this : Simulator) (amount : R) (vars : Locals)
    (activeLiquidity : R) (zeroForOne : bool) :
  settled this amount vars ->
  let '(this', vars') := useRemaining this vars activeLiquidity zeroForOne in
  settled this' amount vars' /\ remainingAmount vars' = 0 /\
  feeTier this' = feeTier this.
Proof.
  intros (Hpos & Hin & Hfee).
  pose proof (useRemaining_records this vars activeLiquidity zeroForOne) as H.
  destruct (useRemaining this vars activeLiquidity zeroForOne) as [this' vars'].
  destruct H as ((Hfeetier & _ & _) & Hzero & recorded & Hsteps & Hrec
                 & _ & _ & _ & Hfee').
  exact_ops. split; [| split; assumption].
  unfold settled. rewrite Hzero, Hsteps, inputOf_app, Hfee', Hfeetier, Hrec, Hfee.
  exact_ops. repeat split; lra.
Qed.

Lemma loopBody_settled (this : Simulator) (amount price0 : R)
    (zeroForOne : bool) (vars : Locals) :
  settled this amount vars ->
  match loopBody this amount price0 zeroForOne vars with
  | Return value this' =>
      this' = this /\ value = result this price0 (amount - remainingAmount vars) vars /\
      getActiveLiquidity this <= 0
  | Break this' vars' =>
      settled this' amount vars' /\ remainingAmount vars' = 0 /\
      feeTier this' = feeTier this
  | Normal this' vars' =>
      settled this' amount vars' /\ feeTier this' = feeTier this
  end.
Proof.
  intros Hsettled. unfold loopBody. exact_ops.
  case_Rleb (getActiveLiquidity this) 0; [repeat split; assumption |].
  destruct (findNextTick this zeroForOne) as [nextTick |].
  - match goal with |- context [Rleb ?a ?b] => case_Rleb a b end.
    + pose proof (useRemaining_settled this amount vars (getActiveLiquidity this)
                    zeroForOne Hsettled) as H.
      destruct (useRemaining this vars (getActiveLiquidity this) zeroForOne)
        as [this' vars'].
      destruct H as (H1 & _ & H3). split; assumption.
    + match goal with
      | |- context [crossTick ?a ?b ?c ?d ?e ?f ?g ?h] =>
          pose proof (crossTick_records a b c d e f g h) as H;
          destruct (crossTick a b c d e f g h) as [this' vars']
      end.
      destruct Hsettled as (Hpos & Hin & Hfee).
      destruct H as ((Hfeetier & _ & _) & Hrem & _ & recorded & Hsteps & Hrec
                     & _ & _ & _ & _ & _ & Hfee').
      exact_ops. split; [| exact Hfeetier].
      unfold settled. rewrite Hrem, Hsteps, inputOf_app, Hfee', Hfeetier, Hrec, Hfee.
      exact_ops. repeat split; lra.
  - pose proof (useRemaining_settled this amount vars (getActiveLiquidity this)
                  zeroForOne Hsettled) as H.
    destruct (useRemaining this vars (getActiveLiquidity this) zeroForOne)
      as [this' vars'].
    exact H.
Qed.

Lemma loop_settled (amount price0 : R) (zeroForOne : bool) (fuel : nat) :
  forall (this : Simulator) (vars : Locals) value this',
  settled this amount vars ->
  loop fuel this amount price0 zeroForOne vars = Some (value, this') ->
  amountIn value = inputOf (steps value) /\
  feesCollected value = feeTier this * amountIn value /\
  (amountIn value = amount \/ getActiveLiquidity this' <= 0).
Proof.
  induction fuel as [| fuel IH]; intros this vars value this' Hsettled Hloop;
    [discriminate |].
  cbn [loop] in Hloop. exact_ops.
  case_Rltb 0 (remainingAmount vars).
  - pose proof (loopBody_settled this amount price0 zeroForOne vars Hsettled) as Hbody.
    destruct (loopBody this amount price0 zeroForOne vars)
      as [value1 this1 | this1 vars1 | this1 vars1].
    + destruct Hbody as (-> & -> & Hstarved). injection Hloop as <- <-.
      destruct Hsettled as (Hpos & Hin & Hfee).
      cbn [amountIn feesCollected steps result].
      split; [exact Hin |]. split; [rewrite Hfee, Hin; reflexivity |].
      right. exact Hstarved.
    + destruct Hbody as ((Hpos & Hin & Hfee) & Hzero & Hfeetier).
      injection Hloop as <- <-.
      cbn [amountIn feesCollected steps result]. rewrite Hzero in Hin.
      split; [rewrite <- Hin; lra |].
      split; [rewrite Hfee, Hfeetier, <- Hin; f_equal; lra | left; reflexivity].
    + destruct Hbody as (Hsettled1 & Hfeetier).
      destruct (IH this1 vars1 value this' Hsettled1 Hloop) as (H1 & H2 & H3).
      split; [exact H1 |]. split; [rewrite <- Hfeetier; exact H2 | exact H3].
  - injection Hloop as <- <-. destruct Hsettled as (Hpos & Hin & Hfee).
    cbn [amountIn feesCollected steps result].
    assert (Hzero : remainingAmount vars = 0) by lra. rewrite Hzero in Hin.
    split; [rewrite <- Hin; lra |].
    split; [rewrite Hfee, <- Hin; f_equal; lra | left; reflexivity].
Qed.

(** X23: over the real numbers, for an amount that is not negative,
    [executeSwap] reports as consumed the sum of the inputs of the steps
    it returns, takes as fee the fee rate times what it consumed, and
    consumes the whole amount unless it stops for want of active
    liquidity. *)
Theorem executeSwap_accounts_for_the_input (this : Simulator) (amount : R)
    (zeroForOne : bool) :
  0 <= amount ->
  exists value this',
    executeSwap this amount zeroForOne = Some (value, this') /\
    amountIn value = inputOf (steps value) /\
    feesCollected value = feeTier this * amountIn value /\
    (amountIn value = amount \/ getActiveLiquidity this' <= 0).
Proof.
  intros Hamount.
  destruct (executeSwap_total exact_order this amount zeroForOne)
    as [[value this'] [Hrun _]].
  exists value, this'. split; [exact Hrun |].
  unfold executeSwap, executeSwap_within in Hrun.
  apply loop_settled in Hrun; [exact Hrun |].
  unfold settled, inputOf. cbn. exact_ops. repeat split; lra.
Qed.

(** A swap of 5 on a fresh pool. *)
Lemma executeSwap_accounts_for_the_input_witness :
  exists value this',
    executeSwap (constructor (N:=exact) 1 None) 5 true = Some (value, this') /\
    amountIn value = inputOf (steps value) /\
    feesCollected value = feeTier (constructor (N:=exact) 1 None) * amountIn value /\
    (amountIn value = 5 \/ getActiveLiquidity this' <= 0).
Proof.
  apply (executeSwap_accounts_for_the_input (constructor (N:=exact) 1 None) 5 true).
  lra.
Defined.

End Consumed.

Section AbsorbedSwap.
Local Open Scope float_scope.

(** X24: in binary64, whatever the [Math] library, on a pool with
    positive (finite) active liquidity and no stored tick beyond the
    current one, a swap of a positive amount that, scaled by [1e18], is at
    least [1e-10] and is absorbed by the swap step takes one step, which
    records the whole amount as input and a zero as output.
    [executeSwap] reports the amount as consumed, takes the fee on it,
    returns the output 0 and leaves the square-root price of the pool as
    it was.  The square-root price, its inverse and its square are taken
    finite and not negative. *)
Theorem executeSwap_absorbed_input (M : MathLib binary64)
    (this : @UniswapV3SwapSimulator binary64) (amount : float) (zeroForOne : bool) :
  let sqrtPriceX96 : float := currentSqrtPriceX96 this in
  let scaledAmount : float := amount * SCALE_FACTOR (N:=binary64) in
  (0 <? amount) = true ->
  (0 <? getActiveLiquidity this) = true ->
  (getActiveLiquidity this <? infinity) = true ->
  findNextTick this zeroForOne = None ->
  (scaledAmount <? lit_1e_10 (N:=binary64)) = false ->
  finite_nonnegative sqrtPriceX96 = true ->
  finite_nonnegative (1 / sqrtPriceX96) = true ->
  finite_nonnegative (sqrtPriceX96 * sqrtPriceX96) = true ->
  absorbed scaledAmount sqrtPriceX96 (getActiveLiquidity this) (feeTier this)
    zeroForOne ->
  exists value this',
    executeSwap this amount zeroForOne = Some (value, this') /\
    amountIn value = amount /\
    amountOut value = 0 /\
    feesCollected value = 0 + amount * feeTier this /\
    (exists recorded,
       steps value = [recorded] /\
       step_amountIn recorded = amount /\
       (step_amountOut recorded =? 0) = true /\
       crossedTick recorded = false) /\
    currentSqrtPriceX96 this' = currentSqrtPriceX96 this.
Proof.
  intros sqrtPriceX96 scaledAmount Hamount Hactive Hfinite Hnext Hlarge
    Hprice Hinverse Hsquare Habsorbed.
  assert (Hliquidity : finite_nonnegative (getActiveLiquidity this) = true).
  { unfold finite_nonnegative. rewrite Hfinite, (float_ltb_leb _ _ Hactive).
    reflexivity. }
  assert (Hzero :
    (Calculations.amountOut
       (computeSwapStep (N:=binary64) scaledAmount sqrtPriceX96
          (getActiveLiquidity this) (feeTier this) zeroForOne)
     =? 0) = true).
  { revert Habsorbed. unfold absorbed.
    rewrite (computeSwapStep_large_amount_binary64 M) by exact Hlarge.
    cbv zeta. destruct zeroForOne; cbn [newSqrtPriceX96 Calculations.amountOut];
      intros ->.
    - apply absorbed_difference; assumption.
    - apply absorbed_inverse_difference; assumption. }
  unfold executeSwap, executeSwap_within.
  rewrite Nat.add_comm. cbn [Nat.add loop remainingAmount].
  change (@lt binary64 (@of_Z binary64 0) amount) with (0 <? amount).
  rewrite Hamount. unfold loopBody.
  change (getActiveLiquidity (set_swapSteps this [])) with (getActiveLiquidity this).
  change (@le binary64 (getActiveLiquidity this) (@of_Z binary64 0))
    with (getActiveLiquidity this <=? 0).
  rewrite (float_ltb_not_leb _ _ Hactive).
  change (findNextTick (set_swapSteps this []) zeroForOne)
    with (findNextTick this zeroForOne).
  rewrite Hnext. unfold useRemaining. cbv zeta.
  cbn [set_swapSteps set_price feeTier currentSqrtPriceX96 swapSteps remainingAmount
       totalAmountOut feeAmount].
  eexists. eexists. split; [reflexivity |].
  cbn [result steps amountIn amountOut feesCollected swapSteps set_swapSteps set_price
       currentSqrtPriceX96 totalAmountOut feeAmount app].
  fold scaledAmount. fold sqrtPriceX96.
  split; [reflexivity |].
  split; [exact (float_total_of_zero _ Hzero) |].
  split; [reflexivity |].
  split.
  - eexists. split; [reflexivity |].
    cbn [step_amountIn step_amountOut crossedTick].
    split; [reflexivity |]. split; [| reflexivity].
    exact (float_zero_scaled _ Hzero).
  - exact Habsorbed.
Qed.

(** A swap of 0.0001 of token1 in a pool at the price 2000 with the fee
    0.3% and the liquidity 175000, stored two ticks below the current
    tick 76012. *)
Lemma executeSwap_absorbed_input_witness :
  let this : @UniswapV3SwapSimulator binary64 :=
    @Build_UniswapV3SwapSimulator binary64
      (MEDIUM (FEE_TIERS (N:=binary64))) 2000 2000 (sqrt 2000 * 0x1p+96) 76012
      [ @Build_Tick binary64 76010 175000 175000 ] [] in
  let amount : float := 1 / 10000 in
  ~ (exists M : MathLib binary64,
       ~ (exists value this',
            executeSwap this amount false = Some (value, this') /\
            amountIn value = amount /\
            amountOut value = 0 /\
            currentSqrtPriceX96 this' = currentSqrtPriceX96 this)).
Proof.
  intros this amount [M H]. apply H.
  destruct (executeSwap_absorbed_input M this amount false)
    as (value & this' & Hrun & Hin & Hout & _ & _ & Hprice); try reflexivity.
  exists value, this'. repeat split; assumption.
Defined.

End AbsorbedSwap.
